(** * AI Scrum Master frontend (frontend/src/App.js): a shallow embedding

    The React components of [App.js] are embedded as follows.
    - JavaScript strings are sequences of UTF-16 code units ([jsstring]).
    - Values received from the backend (the [AnalysisResult] of a module) are
      JSON trees ([value]); their Numbers include the two zeros, the
      infinities and [NaN], and the conversions of the language ([ToString],
      [ToBoolean], [JSON.stringify], [JSON.parse]) are functions on them.
    - An event handler is a computation in a small state-and-exception monad
      over the component's state; every observable action (an [alert], a
      [console.error], an HTTP request, a state setter, a download) is
      appended to a trace.
    - The browser stands between the user and a submit handler: a form is
      submitted only when its button is enabled and its controls are valid.
    - The network, the clipboard, the clock and the browser's timer queue are
      the environment: an oracle answers HTTP requests, and where calls can
      interleave (the dashboard's polling, the blocker scan) the component is
      a transition system driven by external events. *)

From Stdlib Require Import String Ascii.
From Stdlib Require Import List ZArith NArith Bool Lia.
From Stdlib Require Import DecimalN DecimalFacts.
Import ListNotations.

Set Warnings "-register-all".
Local Open Scope N_scope.
Local Open Scope list_scope.

(** ** JavaScript strings *)

Module JsString.

(** A JavaScript string: a finite sequence of UTF-16 code units. *)
Definition jsstring := list N.

(** The code units of an ASCII literal of the source. *)
Definition js (s : string) : jsstring :=
  map N_of_ascii (list_ascii_of_string s).

Definition eqb (a b : jsstring) : bool :=
  if list_eq_dec N.eq_dec a b then true else false.

(** ToBoolean on a string: the empty string is the only falsy one. *)
Definition truthy (s : jsstring) : bool :=
  match s with [] => false | _ :: _ => true end.

(** [WhiteSpace] and [LineTerminator] of ECMA-262, the code units that
    [String.prototype.trim] strips. *)
Definition is_white_space (c : N) : bool :=
  (c =? 9) || (c =? 10) || (c =? 11) || (c =? 12) || (c =? 13) || (c =? 32)
  || (c =? 160) || (c =? 5760)
  || ((8192 <=? c) && (c <=? 8202))
  || (c =? 8232) || (c =? 8233) || (c =? 8239) || (c =? 8287)
  || (c =? 12288) || (c =? 65279).

Fixpoint trimStart (s : jsstring) : jsstring :=
  match s with
  | [] => []
  | c :: s' => if is_white_space c then trimStart s' else s
  end.

Definition trimEnd (s : jsstring) : jsstring := rev (trimStart (rev s)).

Definition trim (s : jsstring) : jsstring := trimEnd (trimStart s).

(** [s.split(sep)] for a separator of one code unit.  The result is never
    empty: the empty string splits into one empty piece. *)
Fixpoint split (sep : N) (s : jsstring) : list jsstring :=
  match s with
  | [] => [[]]
  | c :: s' =>
      if c =? sep then [] :: split sep s'
      else match split sep s' with
           | [] => [[c]]
           | p :: ps => (c :: p) :: ps
           end
  end.

(** [a.join(sep)] on an array of strings. *)
Fixpoint join (sep : jsstring) (l : list jsstring) : jsstring :=
  match l with
  | [] => []
  | [x] => x
  | x :: l' => x ++ sep ++ join sep l'
  end.

Definition first (s : jsstring) : option N := hd_error s.
Definition final (s : jsstring) : option N := hd_error (rev s).

End JsString.

Import JsString.


(** ** JSON values, [JSON.stringify] and the conversions of ECMA-262 *)

Module Json.

(** A Number.  The two zeros, the infinities and [NaN] are themselves; a
    finite Number other than zero is held in decimal, as a sign, a
    significand and an exponent standing for [significand * 10^exponent],
    the significand not divisible by ten: the digits [Number::toString]
    writes, which are the shortest that read back as the same double.  What
    lies between two doubles is not rounded here; what is too large for a
    double reads as [Infinity] and what is too small as zero. *)
Inductive number : Type :=
| Zero
| NegZero
| Dec (neg : bool) (significand : positive) (exponent : Z)
| Infinity (neg : bool)
| NaN.

Inductive value : Type :=
| JNull
| JBool (b : bool)
| JNum (x : number)
| JStr (s : jsstring)
| JArr (elems : list value)
| JObj (props : list (jsstring * value)).

Definition is_digit (c : N) : bool := (48 <=? c) && (c <=? 57).

(** The digits of a natural number, without leading zeros ("0" for 0). *)
Fixpoint units_of_uint (d : Decimal.uint) : list N :=
  match d with
  | Decimal.Nil => []
  | Decimal.D0 d => 48 :: units_of_uint d
  | Decimal.D1 d => 49 :: units_of_uint d
  | Decimal.D2 d => 50 :: units_of_uint d
  | Decimal.D3 d => 51 :: units_of_uint d
  | Decimal.D4 d => 52 :: units_of_uint d
  | Decimal.D5 d => 53 :: units_of_uint d
  | Decimal.D6 d => 54 :: units_of_uint d
  | Decimal.D7 d => 55 :: units_of_uint d
  | Decimal.D8 d => 56 :: units_of_uint d
  | Decimal.D9 d => 57 :: units_of_uint d
  end.

Definition decimal (n : N) : jsstring := units_of_uint (N.to_uint n).

(** [ds] without its leading zeros. *)
Fixpoint strip_zeros (ds : list N) : list N :=
  match ds with
  | c :: ds' => if c =? 48 then strip_zeros ds' else ds
  | [] => []
  end.

(** [Number::toString(x)] (radix 10), ECMA-262 6.1.6.1.20: for a finite
    Number other than zero, the [k] significant digits [ds] (the last one
    not '0') and the position [n] of the decimal point, the value being
    [0.ds * 10^n]. *)
Definition exponent_part (e : Z) : jsstring :=
  js "e" ++ (if (e <? 0)%Z then js "-" else js "+") ++ decimal (Z.abs_N e).

Definition digits_to_string (ds : list N) (n : Z) : jsstring :=
  let k := Z.of_nat (length ds) in
  if ((k <=? n) && (n <=? 21))%Z then
    ds ++ repeat 48 (Z.to_nat (n - k))
  else if ((0 <? n) && (n <=? 21))%Z then
    firstn (Z.to_nat n) ds ++ js "." ++ skipn (Z.to_nat n) ds
  else if ((-6 <? n) && (n <=? 0))%Z then
    js "0." ++ repeat 48 (Z.to_nat (- n)) ++ ds
  else
    match ds with
    | [] => []
    | [d] => [d] ++ exponent_part (n - 1)
    | d :: rest => [d] ++ js "." ++ rest ++ exponent_part (n - 1)
    end.

Definition number_to_string (x : number) : jsstring :=
  match x with
  | NaN => js "NaN"
  | Zero | NegZero => js "0"
  | Infinity neg => (if neg then js "-" else []) ++ js "Infinity"
  | Dec neg s e =>
      let ds := decimal (Npos s) in
      (if neg then js "-" else [])
      ++ digits_to_string (rev (strip_zeros (rev ds)))
                          (e + Z.of_nat (List.length ds))
  end.

(** Reading a property: [undefined] is [None]; reading a property of [null]
    throws.  Only own properties of objects are found, which is what
    JavaScript does for the keys the components read ([id], [detail],
    [content], [content_type]): no built-in prototype defines them. *)
Fixpoint lookup (k : jsstring) (props : list (jsstring * value)) : option value :=
  match props with
  | [] => None
  | (k', v) :: props' => if JsString.eqb k k' then Some v else lookup k props'
  end.

Inductive error : Type :=
| TypeError
| SyntaxError
| NetworkError
| HttpStatusError (status : Z)
| NotAllowedError.

Definition get (v : value) (k : jsstring) : error + option value :=
  match v with
  | JNull => inl TypeError
  | JObj props => inr (lookup k props)
  | _ => inr None
  end.

(** [ToBoolean] *)
Definition truthy (v : option value) : bool :=
  match v with
  | None => false
  | Some JNull => false
  | Some (JBool b) => b
  | Some (JNum (Zero | NegZero | NaN)) => false
  | Some (JNum (Dec _ _ _ | Infinity _)) => true
  | Some (JStr s) => JsString.truthy s
  | Some (JArr _) => true
  | Some (JObj _) => true
  end.

(** [ToString], as a template literal applies it.  An array is joined with
    commas, [null] elements giving nothing.  An object goes through
    [OrdinaryToPrimitive]: with an own property [toString], which in a value
    read from JSON is never a function, the inherited [valueOf] gives the
    object back and the conversion throws a [TypeError]; without one,
    [Object.prototype.toString] answers. *)
Fixpoint to_string (v : value) : error + jsstring :=
  match v with
  | JNull => inr (js "null")
  | JBool true => inr (js "true")
  | JBool false => inr (js "false")
  | JNum x => inr (number_to_string x)
  | JStr s => inr s
  | JArr elems =>
      match
        (fix items (l : list value) : error + list jsstring :=
           match l with
           | [] => inr []
           | e :: l' =>
               match match e with JNull => inr [] | _ => to_string e end with
               | inl err => inl err
               | inr s =>
                   match items l' with
                   | inl err => inl err
                   | inr ss => inr (s :: ss)
                   end
               end
           end) elems
      with
      | inl err => inl err
      | inr ss => inr (join (js ",") ss)
      end
  | JObj props =>
      match lookup (js "toString") props with
      | Some _ => inl TypeError
      | None => inr (js "[object Object]")
      end
  end.

Definition to_string_opt (v : option value) : error + jsstring :=
  match v with
  | None => inr (js "undefined")
  | Some v => to_string v
  end.

(** [QuoteJSONString], ECMA-262 25.5.2.3: the short escapes, [\uXXXX] for the
    other control characters and for lone surrogates, every other code unit
    as it is. *)
Definition hex_digit (n : N) : N :=
  if n <? 10 then 48 + n else 87 + n.

Definition unicode_escape (c : N) : jsstring :=
  [92; 117; hex_digit (c / 4096 mod 16); hex_digit (c / 256 mod 16);
   hex_digit (c / 16 mod 16); hex_digit (c mod 16)].

Definition is_leading_surrogate (c : N) : bool := (55296 <=? c) && (c <=? 56319).
Definition is_trailing_surrogate (c : N) : bool := (56320 <=? c) && (c <=? 57343).

Definition quote_unit (c : N) : jsstring :=
  if c =? 8 then js "\b"
  else if c =? 9 then js "\t"
  else if c =? 10 then js "\n"
  else if c =? 12 then js "\f"
  else if c =? 13 then js "\r"
  else if c =? 34 then [92; 34]
  else if c =? 92 then [92; 92]
  else if (c <? 32) || is_leading_surrogate c || is_trailing_surrogate c
       then unicode_escape c
  else [c].

Fixpoint quote_units (s : jsstring) : jsstring :=
  match s with
  | [] => []
  | c :: s' =>
      if is_leading_surrogate c then
        match s' with
        | d :: s'' =>
            if is_trailing_surrogate d then c :: d :: quote_units s''
            else unicode_escape c ++ quote_units s'
        | [] => unicode_escape c
        end
      else quote_unit c ++ quote_units s'
  end.

Definition quote (s : jsstring) : jsstring := [34] ++ quote_units s ++ [34].

(** [SerializeJSONProperty] with [SerializeJSONArray] and
    [SerializeJSONObject], ECMA-262 25.5.2: [gap] is the indentation unit
    ([JSON.stringify]'s third argument as spaces), [indent] the current
    indentation. *)
Definition line_feed : jsstring := [10].

Definition wrap (opening closing gap stepback indent : jsstring)
  (partial : list jsstring) : jsstring :=
  match partial with
  | [] => opening ++ closing
  | _ =>
      if JsString.truthy gap then
        opening ++ line_feed ++ indent
        ++ join (js "," ++ line_feed ++ indent) partial
        ++ line_feed ++ stepback ++ closing
      else opening ++ join (js ",") partial ++ closing
  end.

Fixpoint serialize (gap indent : jsstring) (v : value) : jsstring :=
  match v with
  | JNull => js "null"
  | JBool true => js "true"
  | JBool false => js "false"
  | JNum x =>
      match x with
      | NaN | Infinity _ => js "null"
      | _ => number_to_string x
      end
  | JStr s => quote s
  | JArr elems =>
      wrap (js "[") (js "]") gap indent (indent ++ gap)
           (map (serialize gap (indent ++ gap)) elems)
  | JObj props =>
      wrap (js "{") (js "}") gap indent (indent ++ gap)
           (map (fun p => quote (fst p) ++ js ":"
                          ++ (if JsString.truthy gap then js " " else [])
                          ++ serialize gap (indent ++ gap) (snd p))
                props)
  end.

(** [JSON.stringify(v)] and [JSON.stringify(v, null, n)] for [0 <= n <= 10]. *)
Definition stringify (v : value) : jsstring := serialize [] [] v.
Definition stringify_indented (v : value) (spaces : nat) : jsstring :=
  serialize (repeat 32 spaces) [] v.

(** [JSON.parse], ECMA-262 25.5.1, by recursive descent over the grammar of
    ECMA-404.  White space is tab, line feed, carriage return and space. *)
Definition is_json_ws (c : N) : bool :=
  (c =? 9) || (c =? 10) || (c =? 13) || (c =? 32).

Fixpoint skip_ws (s : jsstring) : jsstring :=
  match s with
  | c :: s' => if is_json_ws c then skip_ws s' else s
  | [] => []
  end.

(** The longest prefix of digits, and what follows it. *)
Fixpoint span_digits (s : jsstring) : list N * jsstring :=
  match s with
  | c :: s' =>
      if is_digit c then let (ds, r) := span_digits s' in (c :: ds, r)
      else ([], s)
  | [] => ([], [])
  end.

Fixpoint uint_of_units (ds : list N) : Decimal.uint :=
  match ds with
  | [] => Decimal.Nil
  | c :: ds' =>
      let d := uint_of_units ds' in
      match c with
      | 48 => Decimal.D0 d | 49 => Decimal.D1 d | 50 => Decimal.D2 d
      | 51 => Decimal.D3 d | 52 => Decimal.D4 d | 53 => Decimal.D5 d
      | 54 => Decimal.D6 d | 55 => Decimal.D7 d | 56 => Decimal.D8 d
      | _ => Decimal.D9 d
      end
  end.

(** The number denoted by a string of digits. *)
Definition digits_value (ds : list N) : N := N.of_uint (uint_of_units ds).

(** The decimal form of a literal with integer digits [int], fraction
    digits [frac] and exponent [e]: its significant digits and the position
    of the decimal point, or nothing when all the digits are zeros. *)
Definition decimal_form (int frac : list N) (e : Z) : option (list N * Z) :=
  let all := int ++ frac in
  let significant := strip_zeros all in
  let leading := (List.length all - List.length significant)%nat in
  match rev (strip_zeros (rev significant)) with
  | [] => None
  | ds => Some (ds, (Z.of_nat (List.length int) - Z.of_nat leading + e)%Z)
  end.

(** The Number value of a decimal (ECMA-262 6.1.6.1): half-way between the
    largest double and [2^1024], and from there on, it is an infinity; up to
    [2^-1075], half the smallest double, it is a zero. *)
Definition overflow_bound : Z := Eval vm_compute in (2 ^ 1024 - 2 ^ 970)%Z.
Definition underflow_scale : Z := Eval vm_compute in (2 ^ 1075)%Z.

Definition overflows (ds : list N) (n : Z) : bool :=
  let k := Z.of_nat (List.length ds) in
  let d := Z.of_N (digits_value ds) in
  if (k <=? n)%Z then (overflow_bound <=? d * 10 ^ (n - k))%Z
  else (overflow_bound * 10 ^ (k - n) <=? d)%Z.

Definition underflows (ds : list N) (n : Z) : bool :=
  let k := Z.of_nat (List.length ds) in
  let d := Z.of_N (digits_value ds) in
  if (k <=? n)%Z then false
  else (d * underflow_scale <=? 10 ^ (k - n))%Z.

Definition signed_zero (neg : bool) : number := if neg then NegZero else Zero.

Definition of_decimal (neg : bool) (ds : list N) (n : Z) : number :=
  if overflows ds n then Infinity neg
  else if underflows ds n then signed_zero neg
  else match digits_value ds with
       | Npos s => Dec neg s (n - Z.of_nat (List.length ds))
       | N0 => signed_zero neg
       end.

Definition make_number (neg : bool) (int frac : list N) (e : Z) : number :=
  match decimal_form int frac e with
  | Some (ds, n) => of_decimal neg ds n
  | None => signed_zero neg
  end.

Arguments overflows : simpl never.
Arguments underflows : simpl never.
Arguments of_decimal : simpl never.
Arguments make_number : simpl never.

(** The Number of a non-negative integer literal of the source. *)
Definition num_of_N (n : N) : number := make_number false (decimal n) [] 0.

(** [s] without its first code unit, when that is [k]. *)
Definition starts (k : N) (s : jsstring) : option jsstring :=
  match s with
  | c :: r => if c =? k then Some r else None
  | [] => None
  end.

(** [s] without the prefix [lit], when it has it. *)
Fixpoint expect (lit s : jsstring) : option jsstring :=
  match lit with
  | [] => Some s
  | k :: lit' =>
      match starts k s with
      | Some r => expect lit' r
      | None => None
      end
  end.

Definition parse_int (s : jsstring) : option (list N * jsstring) :=
  match s with
  | c :: r =>
      if c =? 48 then Some ([48], r)
      else if is_digit c then Some (span_digits s)
      else None
  | [] => None
  end.

Definition parse_frac (s : jsstring) : option (list N * jsstring) :=
  match starts 46 s with
  | Some r =>
      match span_digits r with
      | ([], _) => None
      | (ds, r') => Some (ds, r')
      end
  | None => Some ([], s)
  end.

Definition parse_sign (s : jsstring) : bool * jsstring :=
  match starts 43 s, starts 45 s with
  | Some r, _ => (false, r)
  | None, Some r => (true, r)
  | None, None => (false, s)
  end.

Definition parse_exp (s : jsstring) : option (Z * jsstring) :=
  match starts 101 s, starts 69 s with
  | None, None => Some (0%Z, s)
  | Some r, _ | None, Some r =>
      let (negative, r1) := parse_sign r in
      match span_digits r1 with
      | ([], _) => None
      | (ds, r2) =>
          let m := Z.of_N (digits_value ds) in
          Some (if negative then (- m)%Z else m, r2)
      end
  end.

Definition parse_unsigned (neg : bool) (s : jsstring) : option (number * jsstring) :=
  match parse_int s with
  | None => None
  | Some (int, s2) =>
      match parse_frac s2 with
      | None => None
      | Some (frac, s3) =>
          match parse_exp s3 with
          | None => None
          | Some (e, s4) => Some (make_number neg int frac e, s4)
          end
      end
  end.

Definition parse_number (s : jsstring) : option (number * jsstring) :=
  match starts 45 s with
  | Some r => parse_unsigned true r
  | None => parse_unsigned false s
  end.

Definition hex_value (c : N) : option N :=
  if (48 <=? c) && (c <=? 57) then Some (c - 48)
  else if (97 <=? c) && (c <=? 102) then Some (c - 87)
  else if (65 <=? c) && (c <=? 70) then Some (c - 55)
  else None.

Definition hex4 (a b c d : N) : option N :=
  match hex_value a, hex_value b, hex_value c, hex_value d with
  | Some a, Some b, Some c, Some d => Some (a * 4096 + b * 256 + c * 16 + d)
  | _, _, _, _ => None
  end.

Definition unescape (c : N) : option N :=
  if c =? 34 then Some 34
  else if c =? 92 then Some 92
  else if c =? 47 then Some 47
  else if c =? 98 then Some 8
  else if c =? 102 then Some 12
  else if c =? 110 then Some 10
  else if c =? 114 then Some 13
  else if c =? 116 then Some 9
  else None.

(** The characters of a string literal after its opening quote, up to and
    including the closing one. *)
Fixpoint parse_string_body (s : jsstring) : option (jsstring * jsstring) :=
  match s with
  | [] => None
  | c :: s1 =>
      if c =? 34 then Some ([], s1)
      else if c =? 92 then
        match s1 with
        | [] => None
        | e :: s2 =>
            if e =? 117 then
              match s2 with
              | h1 :: h2 :: h3 :: h4 :: s3 =>
                  match hex4 h1 h2 h3 h4, parse_string_body s3 with
                  | Some u, Some (body, r) => Some (u :: body, r)
                  | _, _ => None
                  end
              | _ => None
              end
            else
              match unescape e, parse_string_body s2 with
              | Some u, Some (body, r) => Some (u :: body, r)
              | _, _ => None
              end
        end
      else if c <? 32 then None
      else
        match parse_string_body s1 with
        | Some (body, r) => Some (c :: body, r)
        | None => None
        end
  end.

(** [CreateDataProperty]: a key met again keeps its place and takes the new
    value. *)
Fixpoint set_property (k : jsstring) (v : value) (props : list (jsstring * value))
  : list (jsstring * value) :=
  match props with
  | [] => [(k, v)]
  | (k', v') :: props' =>
      if JsString.eqb k k' then (k, v) :: props'
      else (k', v') :: set_property k v props'
  end.

Definition object_of (members : list (jsstring * value)) : value :=
  JObj (fold_left (fun props kv => set_property (fst kv) (snd kv) props) members []).

(** The value at the head of [s], and the rest.  [fuel] bounds the nesting
    and the number of elements; the length of the text is enough of it. *)
Fixpoint parse_value (fuel : nat) (s : jsstring) : option (value * jsstring) :=
  match fuel with
  | O => None
  | S fuel =>
      match s with
      | [] => None
      | c :: r =>
          if c =? 110 then
            option_map (pair JNull) (expect (js "ull") r)
          else if c =? 116 then
            option_map (pair (JBool true)) (expect (js "rue") r)
          else if c =? 102 then
            option_map (pair (JBool false)) (expect (js "alse") r)
          else if c =? 34 then
            match parse_string_body r with
            | Some (str, r') => Some (JStr str, r')
            | None => None
            end
          else if c =? 91 then
            match starts 93 (skip_ws r) with
            | Some r' => Some (JArr [], r')
            | None =>
                match parse_elements fuel (skip_ws r) with
                | Some (elems, r') => Some (JArr elems, r')
                | None => None
                end
            end
          else if c =? 123 then
            match starts 125 (skip_ws r) with
            | Some r' => Some (JObj [], r')
            | None =>
                match parse_members fuel (skip_ws r) with
                | Some (members, r') => Some (object_of members, r')
                | None => None
                end
            end
          else
            match parse_number s with
            | Some (x, r) => Some (JNum x, r)
            | None => None
            end
      end
  end

with parse_elements (fuel : nat) (s : jsstring) : option (list value * jsstring) :=
  match fuel with
  | O => None
  | S fuel =>
      match parse_value fuel s with
      | None => None
      | Some (v, r) =>
          match starts 44 (skip_ws r), starts 93 (skip_ws r) with
          | Some r1, _ =>
              match parse_elements fuel (skip_ws r1) with
              | Some (vs, r2) => Some (v :: vs, r2)
              | None => None
              end
          | None, Some r1 => Some ([v], r1)
          | None, None => None
          end
      end
  end

with parse_members (fuel : nat) (s : jsstring)
  : option (list (jsstring * value) * jsstring) :=
  match fuel with
  | O => None
  | S fuel =>
      match starts 34 s with
      | None => None
      | Some r =>
          match parse_string_body r with
          | None => None
          | Some (k, r0) =>
              match starts 58 (skip_ws r0) with
              | None => None
              | Some r1 =>
                  match parse_value fuel (skip_ws r1) with
                  | None => None
                  | Some (v, r2) =>
                      match starts 44 (skip_ws r2), starts 125 (skip_ws r2) with
                      | Some r3, _ =>
                          match parse_members fuel (skip_ws r3) with
                          | Some (ms, r4) => Some ((k, v) :: ms, r4)
                          | None => None
                          end
                      | None, Some r3 => Some ([(k, v)], r3)
                      | None, None => None
                      end
                  end
              end
          end
      end
  end.

(** How much fuel the parser needs for the text of a value: one unit for the
    value and one more for each element or member on the way. *)
Fixpoint weight (v : value) : nat :=
  match v with
  | JArr elems => S (fold_right (fun e n => S (weight e + n)) O elems)
  | JObj props => S (fold_right (fun p n => S (weight (snd p) + n)) O props)
  | _ => 1
  end.

(** [JSON.parse(text)]: [None] stands for the [SyntaxError]. *)
Definition parse (text : jsstring) : option value :=
  match parse_value (List.length text) (skip_ws text) with
  | Some (v, r) => match skip_ws r with [] => Some v | _ => None end
  | None => None
  end.

(** What may follow a value in a JSON text: nothing, a comma, a closing
    bracket or brace, or white space. *)
Definition ends_token (rest : jsstring) : bool :=
  match rest with
  | [] => true
  | c :: _ => (c =? 44) || (c =? 93) || (c =? 125) || is_json_ws c
  end.

Definition blank (w : jsstring) : bool := forallb is_json_ws w.

(** The digits of a Number in the form described above. *)
Record significant (ds : list N) : Prop := Significant {
  sig_digits : forallb is_digit ds = true;
  sig_first : exists c t, ds = c :: t /\ c <> 48;
  sig_last : exists c t, rev ds = c :: t /\ c <> 48
}.

(** A text at whose head a run of digits ends. *)
Definition stops (rest : jsstring) : Prop :=
  match rest with [] => True | c :: _ => is_digit c = false end.

(** A serialized value starts with a character that is not white space and
    closes no array or object. *)
Definition opens_value (c : N) : Prop :=
  is_json_ws c = false /\ c <> 93 /\ c <> 125 /\ c <> 44.

(** The text of one property: [quote(key) + ":" + (gap ? " " : "") + value]. *)
Definition member_text (gap indent : jsstring) (p : jsstring * value) : jsstring :=
  quote (fst p) ++ js ":" ++ (if JsString.truthy gap then js " " else [])
  ++ serialize gap indent (snd p).

(** The parser's answer on the text of a value, for every fuel that covers
    its weight. *)
Definition reads_back (gap indent : jsstring) (v : value) : Prop :=
  forall fuel rest,
    ends_token rest = true -> (weight v <= fuel)%nat ->
    parse_value fuel (serialize gap indent v ++ rest) = Some (v, rest).

(** Well-formed UTF-16: every leading surrogate is followed by a trailing
    one and no trailing one stands alone.  Such a string is what a [Blob]
    stores without loss (it is encoded as UTF-8, which has no form for a lone
    surrogate). *)
Fixpoint well_formed (s : jsstring) : bool :=
  match s with
  | [] => true
  | c :: s' =>
      if is_leading_surrogate c then
        match s' with
        | d :: s'' => is_trailing_surrogate d && well_formed s''
        | [] => false
        end
      else negb (is_trailing_surrogate c) && well_formed s'
  end.

(** Text without any surrogate, like all the punctuation of JSON. *)
Definition plain (s : jsstring) : bool := forallb (fun c => c <? 55296) s.

(** The values that JSON carries unchanged: every Number is finite and not
    the negative zero, a Number held in decimal is in the form described
    above (significand not divisible by ten, magnitude within the doubles),
    and no object has two properties of the same name.  The properties of an
    object are listed in the order JavaScript enumerates them. *)
Definition wf_number (x : number) : bool :=
  match x with
  | Zero => true
  | Dec _ s e =>
      let ds := decimal (Npos s) in
      let n := (e + Z.of_nat (List.length ds))%Z in
      match rev ds with c :: _ => negb (c =? 48) | [] => false end
      && negb (overflows ds n) && negb (underflows ds n)
  | NegZero | Infinity _ | NaN => false
  end.

Fixpoint distinct (keys : list jsstring) : bool :=
  match keys with
  | [] => true
  | k :: keys' => negb (existsb (JsString.eqb k) keys') && distinct keys'
  end.

Fixpoint wf_value (v : value) : bool :=
  match v with
  | JNull | JBool _ | JStr _ => true
  | JNum x => wf_number x
  | JArr elems => forallb wf_value elems
  | JObj props =>
      distinct (map fst props) && forallb (fun p => wf_value (snd p)) props
  end.


End Json.

Import Json.

(** ** Blobs: what [new Blob([text], { type })] holds *)

Module Blob.

(** The conversion of a string part to a [USVString]: a surrogate that is
    not half of a pair becomes U+FFFD. *)
Fixpoint to_usv (s : jsstring) : jsstring :=
  match s with
  | [] => []
  | c :: s' =>
      if is_leading_surrogate c then
        match s' with
        | d :: s'' =>
            if is_trailing_surrogate d then c :: d :: to_usv s''
            else 65533 :: to_usv s'
        | [] => [65533]
        end
      else if is_trailing_surrogate c then 65533 :: to_usv s'
      else c :: to_usv s'
  end.

Definition ascii_lowercase (c : N) : N :=
  if (65 <=? c) && (c <=? 90) then c + 32 else c.

(** The [type] of the blob (File API, the [Blob] constructor): empty when
    the given type has a character outside U+0020..U+007E, and in ASCII
    lower case otherwise. *)
Definition type_of (type : jsstring) : jsstring :=
  if forallb (fun c => (32 <=? c) && (c <=? 126)) type
  then map ascii_lowercase type
  else [].

End Blob.

(** ** Handlers as computations: state, exceptions and a trace *)

Module Runtime.

(** What a handler does to the outside world and to its component, in the
    order it does it. *)
Inductive event : Type :=
| PreventDefault
| Alert (message : jsstring)
| ConsoleError (label : jsstring) (err : error)
| AxiosPost (url : jsstring) (body : value)
| AxiosGet (url : jsstring)
| Fetch (url method content_type body : jsstring)
| SetLoading (b : bool)
| SetOutput (data : value)
| CreateObjectURL (content type : jsstring)
| AnchorClick (download : jsstring)
| RevokeObjectURL.

Definition is_request (e : event) : bool :=
  match e with
  | AxiosPost _ _ | AxiosGet _ | Fetch _ _ _ _ => true
  | _ => false
  end.

Definition is_alert (e : event) : bool :=
  match e with Alert _ => true | _ => false end.

(** The [Response] of [fetch]: [response.ok] and what [response.json()]
    settles to. *)
Record response : Type := Response { ok : bool; json : error + value }.

(** The network answers a request knowing everything that happened before:
    [axios] resolves with [response.data] or rejects (no connection, or a
    status outside 2xx); [fetch] rejects only when there is no response. *)
Record network : Type := Network {
  axios_post : list event -> jsstring -> value -> error + value;
  axios_get : list event -> jsstring -> error + value;
  fetch : list event -> jsstring -> jsstring -> error + response
}.

Record world (S : Type) : Type := World { state : S; trace : list event }.
Arguments World {S} _ _.
Arguments state {S} _.
Arguments trace {S} _.

Definition M (S A : Type) : Type := world S -> (error + A) * world S.

Section Operations.
Context {S : Type}.

Definition ret {A} (x : A) : M S A := fun w => (inr x, w).

Definition bind {A B} (m : M S A) (k : A -> M S B) : M S B :=
  fun w =>
    match m w with
    | (inr x, w') => k x w'
    | (inl e, w') => (inl e, w')
    end.

Definition throw {A} (e : error) : M S A := fun w => (inl e, w).

(** Lifting a value that is either an exception or a result. *)
Definition lift {A} (r : error + A) : M S A := fun w => (r, w).

Definition emit (e : event) : M S unit :=
  fun w => (inr tt, World (state w) (trace w ++ [e])).

Definition gets {A} (f : S -> A) : M S A := fun w => (inr (f (state w)), w).

Definition modify (f : S -> S) : M S unit :=
  fun w => (inr tt, World (f (state w)) (trace w)).

Definition history : M S (list event) := fun w => (inr (trace w), w).

(** [try { body } catch (error) { handler }] *)
Definition try_catch {A} (body : M S A) (handler : error -> M S A) : M S A :=
  fun w =>
    match body w with
    | (inr x, w') => (inr x, w')
    | (inl e, w') => handler e w'
    end.

(** [try { body } finally { cleanup }]: the cleanup runs on both exits, and
    the exit of the body stands unless the cleanup throws. *)
Definition try_finally {A} (body : M S A) (cleanup : M S unit) : M S A :=
  fun w =>
    match body w with
    | (r, w') =>
        match cleanup w' with
        | (inr _, w'') => (r, w'')
        | (inl e, w'') => (inl e, w'')
        end
    end.

Definition try_catch_finally {A} (body : M S A) (handler : error -> M S A)
  (cleanup : M S unit) : M S A :=
  try_finally (try_catch body handler) cleanup.

Definition alert (message : jsstring) : M S unit := emit (Alert message).

Definition console_error (label : jsstring) (err : error) : M S unit :=
  emit (ConsoleError label err).

Definition prevent_default : M S unit := emit PreventDefault.

Section Network.
Variable net : network.

(** [await axios.post(url, body)], giving [response.data]. *)
Definition await_axios_post (url : jsstring) (body : value) : M S value :=
  fun w =>
    (axios_post net (trace w) url body,
     World (state w) (trace w ++ [AxiosPost url body])).

(** [await axios.get(url)], giving [response.data]. *)
Definition await_axios_get (url : jsstring) : M S value :=
  fun w =>
    (axios_get net (trace w) url, World (state w) (trace w ++ [AxiosGet url])).

(** [await fetch(url, { method: 'POST', headers: { 'Content-Type':
    'application/json' }, body })] *)
Definition await_fetch_post_json (url body : jsstring) : M S response :=
  fun w =>
    (fetch net (trace w) url body,
     World (state w)
           (trace w ++ [Fetch url (js "POST") (js "application/json") body])).

End Network.
End Operations.

Definition run {S A} (m : M S A) (s : S) : (error + A) * world S :=
  m (World s []).

Definition final_state {S A} (m : M S A) (s : S) : S := state (snd (run m s)).
Definition events {S A} (m : M S A) (s : S) : list event := trace (snd (run m s)).
Definition outcome {S A} (m : M S A) (s : S) : error + A := fst (run m s).

(** A request that did not succeed: [axios] rejected; [fetch] rejected, or
    answered with a status outside 2xx, or with a body that is not JSON. *)
Definition failed {A} (r : error + A) : Prop :=
  match r with inl _ => True | inr _ => False end.

Definition fetch_failed (r : error + response) : Prop :=
  match r with
  | inl _ => True
  | inr resp => ok resp = false \/ failed (json resp)
  end.

Definition is_console_error (e : event) : bool :=
  match e with ConsoleError _ _ => true | _ => false end.

Definition is_set_output (e : event) : bool :=
  match e with SetOutput _ => true | _ => false end.

Definition is_download (e : event) : bool :=
  match e with AnchorClick _ => true | _ => false end.

(** The export rule as the specification words it: an error is raised (the
    handler logs it), nothing is requested and nothing is downloaded. *)
Definition refuses_export (tr : list event) : Prop :=
  existsb is_console_error tr = true
  /\ existsb is_request tr = false
  /\ existsb is_download tr = false.

End Runtime.

Import Runtime.

Notation "x <- m ;; k" := (bind m (fun x => k))
  (at level 61, m at next level, right associativity).
Notation "m ;; k" := (bind m (fun _ => k))
  (at level 61, right associativity).

(** ** Forms: what the browser does before a submit handler runs *)

Module Form.

(** What comes of asking a form to submit, through its submit button or by
    the Enter key in one of its fields (HTML, form submission).  A form whose
    submit button is disabled does nothing.  Otherwise the browser checks the
    constraints of the controls; when one is not satisfied it reports the
    first such control to the user (the control is focused and a message is
    shown at it) and no [submit] event is fired.  Only a valid form reaches
    its [onSubmit] handler. *)
Inductive attempt (S : Type) : Type :=
| Disabled
| Invalid (control : jsstring)
| Submitted (result : (error + unit) * world S).
Arguments Disabled {S}.
Arguments Invalid {S} _.
Arguments Submitted {S} _.

(** The first control, in the order of the document, that is not valid. *)
Definition first_invalid (controls : list (jsstring * bool)) : option jsstring :=
  option_map fst (find (fun c => negb (snd c)) controls).

(** The [required] attribute: the control is valid when its value is not the
    empty string. *)
Definition required (controls : list (jsstring * jsstring))
  : list (jsstring * bool) :=
  map (fun c => (fst c, JsString.truthy (snd c))) controls.

(** The integer a Number is, when it is one. *)
Definition integer_of (x : number) : option Z :=
  match x with
  | Zero | NegZero => Some 0%Z
  | Dec neg s e =>
      option_map (fun z => if neg then (- z)%Z else z)
        (if (0 <=? e)%Z then Some (Zpos s * 10 ^ e)%Z
         else if (Zpos s mod 10 ^ (- e) =? 0)%Z
              then Some (Zpos s / 10 ^ (- e))%Z
              else None)
  | Infinity _ | NaN => None
  end.

(** [<input type="number" value={x} min=.. max=..>], which is not required
    and has the default step of one: a Number whose text is no valid
    floating-point number ([NaN], an infinity) leaves the field empty, which
    is valid; any other has to be an integer from [min] to [max]. *)
Definition number_input_valid (min max : Z) (x : number) : bool :=
  match x with
  | NaN | Infinity _ => true
  | _ =>
      match integer_of x with
      | Some z => ((min <=? z) && (z <=? max))%Z
      | None => false
      end
  end.

Definition submit {S} (disabled : bool) (controls : list (jsstring * bool))
  (handler : M S unit) (s : S) : attempt S :=
  if disabled then Disabled
  else match first_invalid controls with
       | Some control => Invalid control
       | None => Submitted (run handler s)
       end.

End Form.

(** ** Configuration *)

Module Config.

(** [const API = `${BACKEND_URL}/api`], where [BACKEND_URL] is
    [process.env.REACT_APP_BACKEND_URL] as a template literal renders it. *)
Definition API (BACKEND_URL : jsstring) : jsstring := BACKEND_URL ++ js "/api".

End Config.

(** ** StandupModule *)

Module StandupModule.

Record team_member : Type := TeamMember {
  id : jsstring; name : jsstring; role : jsstring; avatar : jsstring
}.

Definition teamMembers : list team_member :=
  [ TeamMember (js "1") (js "Sarah Johnson") (js "Senior Developer") (js "SJ");
    TeamMember (js "2") (js "Alex Rivera") (js "Frontend Developer") (js "AR");
    TeamMember (js "3") (js "Mike Chen") (js "Backend Developer") (js "MC");
    TeamMember (js "4") (js "Emily Davis") (js "QA Engineer") (js "ED") ].

Record form_input : Type := FormInput {
  team_member_id : jsstring;
  yesterday : jsstring;
  today : jsstring;
  blockers : jsstring;
  mood : jsstring;
  confidence_level : number
}.

Record state : Type := State {
  selectedMember : jsstring;
  input : form_input;
  output : option value;
  loading : bool;
  voiceRecording : bool
}.

Definition initial : state :=
  State []
        (FormInput [] [] [] [] (js "neutral") (num_of_N 5))
        None false false.

(** The object [input] as [axios] serialises it. *)
Definition body (i : form_input) : value :=
  JObj [ (js "team_member_id", JStr (team_member_id i));
         (js "yesterday", JStr (yesterday i));
         (js "today", JStr (today i));
         (js "blockers", JStr (blockers i));
         (js "mood", JStr (mood i));
         (js "confidence_level", JNum (confidence_level i)) ].

Definition setSelectedMember (m : jsstring) : M state unit :=
  modify (fun s => State m (input s) (output s) (loading s) (voiceRecording s)).

Definition setInput (i : form_input) : M state unit :=
  modify (fun s => State (selectedMember s) i (output s) (loading s) (voiceRecording s)).

Definition setOutput (v : value) : M state unit :=
  emit (SetOutput v) ;;
  modify (fun s => State (selectedMember s) (input s) (Some v) (loading s) (voiceRecording s)).

Definition setLoading (b : bool) : M state unit :=
  emit (SetLoading b) ;;
  modify (fun s => State (selectedMember s) (input s) (output s) b (voiceRecording s)).

Section Handlers.
Variable BACKEND_URL : jsstring.
Variable net : network.

Definition handleSubmit : M state unit :=
  prevent_default ;;
  input <- gets input ;;
  if negb (JsString.truthy (team_member_id input)) then
    alert (js "Please select a team member")
  else
    setLoading true ;;
    try_catch_finally
      (data <- await_axios_post net (Config.API BACKEND_URL ++ js "/standup") (body input) ;;
       setOutput data)
      (fun error => console_error (js "Error generating standup:") error)
      (setLoading false).

End Handlers.

(** [teamMembers[0]?.id || '1'] *)
Definition first_member_id : jsstring :=
  match option_map id (hd_error teamMembers) with
  | Some i => if JsString.truthy i then i else js "1"
  | None => js "1"
  end.

Definition example : form_input :=
  FormInput first_member_id
    (js "Yesterday I completed the user authentication module implementation and resolved three critical bugs in the payment processing system. I also conducted code reviews for two pull requests and mentored a junior developer on React best practices. Additionally, I updated the API documentation for the authentication endpoints.")
    (js "Today I'm focusing on integrating the payment gateway with Stripe API, implementing the user dashboard with real-time analytics, and attending the architecture review meeting at 2 PM. I'll also start working on the mobile responsiveness improvements for the checkout flow and plan to finish writing unit tests for the auth module.")
    (js "I'm currently blocked waiting for the staging environment credentials from the DevOps team, which is preventing me from testing the payment integration. Also need design approval for the new dashboard layout from the UX team before I can proceed with the frontend implementation.")
    (js "positive")
    (num_of_N 7).

Definition loadExample : M state unit :=
  setInput example ;;
  setSelectedMember first_member_id.

(** The value of the member select, which shows [selectedMember]: React
    selects the option of that value, or the first option when there is
    none, and the first option is the placeholder, whose value is empty. *)
Definition select_value (s : state) : jsstring :=
  if existsb (fun m => JsString.eqb (id m) (selectedMember s)) teamMembers
  then selectedMember s
  else [].

(** The controls of the form carrying the [required] attribute, in the
    order of the document, with the value each one shows. *)
Definition required_controls (s : state) : list (jsstring * jsstring) :=
  [ (js "Team Member", select_value s);
    (js "yesterday", yesterday (input s));
    (js "today", today (input s)) ].

End StandupModule.

(** ** RetroModule *)

Module RetroModule.

Record form_input : Type := FormInput {
  sprint_id : jsstring;
  went_well : jsstring;
  went_poorly : jsstring;
  improvements : jsstring;
  team_mood : jsstring;
  velocity_achieved : number;
  goals_met : number
}.

Record state : Type := State {
  input : form_input;
  output : option value;
  loading : bool;
  retroFormat : jsstring
}.

Definition initial : state :=
  State (FormInput (js "SPRINT-24") [] [] [] (js "neutral") Zero Zero)
        None false (js "traditional").

Definition body (i : form_input) : value :=
  JObj [ (js "sprint_id", JStr (sprint_id i));
         (js "went_well", JStr (went_well i));
         (js "went_poorly", JStr (went_poorly i));
         (js "improvements", JStr (improvements i));
         (js "team_mood", JStr (team_mood i));
         (js "velocity_achieved", JNum (velocity_achieved i));
         (js "goals_met", JNum (goals_met i)) ].

Definition setInput (i : form_input) : M state unit :=
  modify (fun s => State i (output s) (loading s) (retroFormat s)).

Definition setOutput (v : value) : M state unit :=
  emit (SetOutput v) ;;
  modify (fun s => State (input s) (Some v) (loading s) (retroFormat s)).

Definition setLoading (b : bool) : M state unit :=
  emit (SetLoading b) ;;
  modify (fun s => State (input s) (output s) b (retroFormat s)).

Section Handlers.
Variable BACKEND_URL : jsstring.
Variable net : network.

Definition handleSubmit : M state unit :=
  prevent_default ;;
  input <- gets input ;;
  setLoading true ;;
  try_catch_finally
    (data <- await_axios_post net (Config.API BACKEND_URL ++ js "/retrospective") (body input) ;;
     setOutput data)
    (fun error => console_error (js "Error generating retrospective:") error)
    (setLoading false).

End Handlers.

Definition example : form_input :=
  FormInput (js "SPRINT-24")
    (js "Excellent team collaboration on the payment integration feature, with all developers contributing to code reviews and knowledge sharing. The new automated testing pipeline caught 12 bugs before production, significantly improving our code quality. Daily standups were efficient and informative, keeping everyone aligned on progress and blockers. The product owner provided clear and timely feedback on user stories, reducing back-and-forth and rework.")
    (js "Testing environment was unstable for 3 days due to infrastructure issues, causing delays in QA validation and blocking several user stories. Requirements for the admin dashboard were unclear initially, leading to rework and scope creep. Too many ad-hoc meetings interrupted focused development time, reducing individual productivity. The code review process became a bottleneck with only senior developers able to approve critical changes.")
    (js "Establish dedicated focus time blocks (9-11 AM) with no meetings to improve deep work productivity. Implement a more robust testing environment with better monitoring and automatic failover. Create a more structured requirements gathering process with stakeholder sign-off before development begins. Distribute code review responsibilities among more team members to reduce bottlenecks and improve knowledge sharing.")
    (js "positive")
    (num_of_N 28)
    (num_of_N 85).

Definition loadExample : M state unit := setInput example.

Definition required_controls (s : state) : list (jsstring * jsstring) :=
  [ (js "sprint_id", sprint_id (input s));
    (js "went_well", went_well (input s));
    (js "went_poorly", went_poorly (input s));
    (js "improvements", improvements (input s)) ].

End RetroModule.

(** ** BlockersModule *)

Module BlockersModule.

Record form_input : Type := FormInput {
  days_threshold : number;
  include_external_dependencies : bool;
  analyze_code_reviews : bool
}.

Record state : Type := State {
  input : form_input;
  output : option value;
  loading : bool;
  autoScan : bool
}.

Definition initial : state :=
  State (FormInput (num_of_N 3) true true) None false true.

Definition body (i : form_input) : value :=
  JObj [ (js "days_threshold", JNum (days_threshold i));
         (js "include_external_dependencies", JBool (include_external_dependencies i));
         (js "analyze_code_reviews", JBool (analyze_code_reviews i)) ].

Definition setInput (i : form_input) : M state unit :=
  modify (fun s => State i (output s) (loading s) (autoScan s)).

Definition setOutput (v : value) : M state unit :=
  emit (SetOutput v) ;;
  modify (fun s => State (input s) (Some v) (loading s) (autoScan s)).

Definition setLoading (b : bool) : M state unit :=
  emit (SetLoading b) ;;
  modify (fun s => State (input s) (output s) b (autoScan s)).

Section Handlers.
Variable BACKEND_URL : jsstring.
Variable net : network.

Definition handleSubmit : M state unit :=
  prevent_default ;;
  input <- gets input ;;
  setLoading true ;;
  try_catch_finally
    (data <- await_axios_post net (Config.API BACKEND_URL ++ js "/blockers") (body input) ;;
     setOutput data)
    (fun error => console_error (js "Error generating blocker analysis:") error)
    (setLoading false).

End Handlers.

End BlockersModule.

(** ** SmartTicketGenerator *)

Module SmartTicketGenerator.

Record form_data : Type := FormData {
  title : jsstring;
  description : jsstring;
  project_context : jsstring;
  assignee_id : jsstring;
  priority : jsstring;
  labels : list jsstring
}.

Record state : Type := State {
  formData : form_data;
  output : option value;
  loading : bool;
  activeTab : jsstring
}.

Definition initial : state :=
  State (FormData [] [] [] [] (js "Medium") []) None false (js "preview").

Definition body (d : form_data) : value :=
  JObj [ (js "title", JStr (title d));
         (js "description", JStr (description d));
         (js "project_context", JStr (project_context d));
         (js "assignee_id", JStr (assignee_id d));
         (js "priority", JStr (priority d));
         (js "labels", JArr (map JStr (labels d))) ].

Definition setFormData (f : form_data -> form_data) : M state unit :=
  modify (fun s => State (f (formData s)) (output s) (loading s) (activeTab s)).

Definition setOutput (v : value) : M state unit :=
  emit (SetOutput v) ;;
  modify (fun s => State (formData s) (Some v) (loading s) (activeTab s)).

Definition setLoading (b : bool) : M state unit :=
  emit (SetLoading b) ;;
  modify (fun s => State (formData s) (output s) b (activeTab s)).

(** [value.split(',').map(label => label.trim()).filter(label => label)] *)
Definition parse_labels (text : jsstring) : list jsstring :=
  filter JsString.truthy (map trim (split 44 text)).

(** A label with something in it and no white space at either end. *)
Definition clean_label (l : jsstring) : Prop :=
  l <> []
  /\ (forall c, first l = Some c -> is_white_space c = false)
  /\ (forall c, final l = Some c -> is_white_space c = false).

(** [handleLabelsChange(e)], [text] being [e.target.value]. *)
Definition handleLabelsChange (text : jsstring) : M state unit :=
  let labels := parse_labels text in
  setFormData (fun prev =>
    FormData (title prev) (description prev) (project_context prev)
             (assignee_id prev) (priority prev) labels).

Section Handlers.
Variable BACKEND_URL : jsstring.
Variable net : network.

Definition handleSubmit : M state unit :=
  prevent_default ;;
  formData <- gets formData ;;
  if negb (JsString.truthy (description formData)) then
    alert (js "Please provide a ticket description")
  else
    setLoading true ;;
    try_catch_finally
      (response <- await_fetch_post_json net (BACKEND_URL ++ js "/ticket")
                     (stringify (body formData)) ;;
       if ok response then
         result <- lift (json response) ;;
         setOutput result
       else
         error <- lift (json response) ;;
         detail <- lift (get error (js "detail")) ;;
         text <- lift (if truthy detail then to_string_opt detail
                       else inr (js "Failed to generate ticket")) ;;
         alert (js "Error: " ++ text))
      (fun error =>
         console_error (js "Ticket generation error:") error ;;
         alert (js "Failed to generate ticket"))
      (setLoading false).

End Handlers.

Definition example : form_data :=
  FormData
    (js "Implement User Dashboard Analytics")
    (js "Create a comprehensive analytics dashboard for users to track their productivity metrics, view historical data, and generate custom reports. The dashboard should include charts, graphs, and exportable reports.")
    (js "Part of the Q2 user engagement initiative to increase platform adoption and user retention through better insights.")
    []
    (js "High")
    [js "frontend"; js "analytics"; js "user-experience"].

Definition loadExample : M state unit := setFormData (fun _ => example).

Definition required_controls (s : state) : list (jsstring * jsstring) :=
  [ (js "description", description (formData s)) ].

End SmartTicketGenerator.

(** ** ExportButton *)

Module ExportButton.

Section Handlers.
Variable BACKEND_URL : jsstring.
Variable net : network.

(** The download of a blob through a temporary anchor: [new Blob([content],
    { type })], [URL.createObjectURL], the anchor with its [download] name
    appended and clicked, then [URL.revokeObjectURL] and the anchor
    removed.  [CreateObjectURL] records what the blob holds: the text and
    the type as the constructor stores them. *)
Definition download (content type name : jsstring) : M unit unit :=
  emit (CreateObjectURL (Blob.to_usv content) (Blob.type_of type)) ;;
  emit (AnchorClick name) ;;
  emit RevokeObjectURL.

(** [filename.split('-')[0]] inside a template literal *)
Definition module_of (filename : jsstring) : jsstring :=
  match split 45 filename with
  | m :: _ => m
  | [] => js "undefined"
  end.

Definition handleExport (data : value) (filename format : jsstring) : M unit unit :=
  try_catch
    (id <- lift (get data (js "id")) ;;
     if truthy id && negb (JsString.eqb format (js "json")) then
       let module := module_of filename in
       id_text <- lift (to_string_opt id) ;;
       response_data <- await_axios_get net
           (Config.API BACKEND_URL ++ js "/export/" ++ module ++ js "/"
            ++ id_text ++ js "?format=" ++ format) ;;
       content <- lift (get response_data (js "content")) ;;
       content_type <- lift (get response_data (js "content_type")) ;;
       text <- lift (to_string_opt content) ;;
       type <- lift (if truthy content_type then to_string_opt content_type
                     else inr (js "text/plain")) ;;
       download text type
                (filename ++ js "."
                 ++ (if JsString.eqb format (js "markdown") then js "md" else format))
     else
       let content := stringify_indented data 2 in
       download content (js "application/json") (filename ++ js ".json"))
    (fun error => console_error (js "Export failed:") error).

End Handlers.

End ExportButton.

(** ** The four forms, submitted *)

Module Forms.

Definition blockers_controls (s : BlockersModule.state)
  : list (jsstring * bool) :=
  [ (js "days_threshold",
     Form.number_input_valid 1 30
       (BlockersModule.days_threshold (BlockersModule.input s))) ].

Section Submit.
Variable BACKEND_URL : jsstring.
Variable net : network.



Definition blockers (s : BlockersModule.state)
  : Form.attempt BlockersModule.state :=
  Form.submit (BlockersModule.loading s) (blockers_controls s)
    (BlockersModule.handleSubmit BACKEND_URL net) s.

Definition ticket (s : SmartTicketGenerator.state)
  : Form.attempt SmartTicketGenerator.state :=
  Form.submit (SmartTicketGenerator.loading s)
    (Form.required (SmartTicketGenerator.required_controls s))
    (SmartTicketGenerator.handleSubmit BACKEND_URL net) s.

End Submit.




End Forms.

(** ** Sidebar and App: the tabs and the view they select *)

Module App.

Record menu_item : Type := MenuItem {
  id : jsstring; name : jsstring; icon : jsstring; desc : jsstring
}.

(** [Sidebar]'s [menuItems] *)
Definition menuItems : list menu_item :=
  [ MenuItem (js "dashboard") (js "Dashboard")
      ([55357; 56522]) (js "Overview & Analytics");
    MenuItem (js "standup") (js "Daily Standup")
      ([55357; 56421]) (js "AI Update Composer");
    MenuItem (js "sprint") (js "Sprint Planning")
      ([9889]) (js "AI Story Splitter");
    MenuItem (js "ticket") (js "Task Generator")
      ([55357; 56523]) (js "Smart Ticket Builder");
    MenuItem (js "retro") (js "Retrospective")
      ([55357; 56580]) (js "Sprint Reflection Tool");
    MenuItem (js "blockers") (js "Blocker Detection")
      ([55357; 57000]) (js "Impediment Monitor");
    MenuItem (js "insights") (js "AI Insights")
      ([55358; 56800]) (js "Predictive Analytics");
    MenuItem (js "integrations") (js "Integrations")
      ([55357; 56599]) (js "JIRA " ++ [8226] ++ js " Slack " ++ [8226] ++ js " GitHub") ].

(** What [renderActiveModule] returns: one of the five components, or the
    [construction-notice] element with its text. *)
Inductive element : Type :=
| StandupElement
| TicketElement
| BlockersElement
| RetroElement
| DashboardElement
| ConstructionNotice (text : jsstring).

Definition renderActiveModule (activeTab : jsstring) : element :=
  if JsString.eqb activeTab (js "standup") then StandupElement
  else if JsString.eqb activeTab (js "ticket") then TicketElement
  else if JsString.eqb activeTab (js "sprint") then
    ConstructionNotice ([9889] ++ js " Advanced Sprint Planner - Implementation in Progress")
  else if JsString.eqb activeTab (js "blockers") then BlockersElement
  else if JsString.eqb activeTab (js "retro") then RetroElement
  else if JsString.eqb activeTab (js "insights") then
    ConstructionNotice ([55358; 56800] ++ js " AI Insights Dashboard - Implementation in Progress")
  else if JsString.eqb activeTab (js "integrations") then
    ConstructionNotice ([55357; 56599] ++ js " Enterprise Integrations - Implementation in Progress")
  else if JsString.eqb activeTab (js "dashboard") then DashboardElement
  else DashboardElement.

(** [useState('dashboard')] *)
Definition initial_tab : jsstring := js "dashboard".

Definition is_module (e : element) : bool :=
  match e with ConstructionNotice _ => false | _ => true end.

End App.

(** ** Dashboard: the polling effect as a transition system *)

Module Dashboard.

Record state : Type := State {
  metrics : option value;
  insights : value;
  loading : bool
}.

(** [useState(null)], [useState([])], [useState(true)] *)
Definition initial : state := State None (JArr []) true.

(** A repeating timer of the browser: its handle, the time from which it may
    run next, and its interval.  The only callback ever registered here is
    [fetchDashboardData]. *)
Record timer : Type := Timer { handle : N; due : N; period : N }.

(** Where the component is in its life; once mounted, the cleanup function
    returned by the effect holds the handle [interval]. *)
Inductive phase : Type :=
| NotMounted
| Mounted (interval : N)
| TornDown.

(** The browser as far as the dashboard sees it: the clock in milliseconds,
    the timer table, the calls of [fetchDashboardData] suspended at their
    [await], and the log of what was done and when. *)
Record browser : Type := Browser {
  now : N;
  next_handle : N;
  timers : list timer;
  awaiting : nat;
  log : list (N * event);
  life : phase;
  view : state
}.

Definition boot (t0 h0 : N) : browser :=
  Browser t0 h0 [] 0 [] NotMounted initial.

Definition record (e : event) (b : browser) : browser :=
  Browser (now b) (next_handle b) (timers b) (awaiting b)
          (log b ++ [(now b, e)]) (life b) (view b).

(** A state setter: React drops updates of a component that is not mounted. *)
Definition update (f : state -> state) (b : browser) : browser :=
  Browser (now b) (next_handle b) (timers b) (awaiting b) (log b) (life b)
          (match life b with Mounted _ => f (view b) | _ => view b end).

Definition set_life (p : phase) (b : browser) : browser :=
  Browser (now b) (next_handle b) (timers b) (awaiting b) (log b) p (view b).

Definition setMetrics (m : value) : browser -> browser :=
  update (fun s => State (Some m) (insights s) (loading s)).
Definition setInsights (i : value) : browser -> browser :=
  update (fun s => State (metrics s) i (loading s)).
Definition setLoading (l : bool) : browser -> browser :=
  update (fun s => State (metrics s) (insights s) l).

(** [setInterval(fetchDashboardData, ms)]: a fresh handle, first run no
    earlier than [ms] from now. *)
Definition setInterval (ms : N) (b : browser) : N * browser :=
  (next_handle b,
   Browser (now b) (N.succ (next_handle b))
           (timers b ++ [Timer (next_handle b) (now b + ms) ms])
           (awaiting b) (log b) (life b) (view b)).

Definition clearInterval (h : N) (b : browser) : browser :=
  Browser (now b) (next_handle b)
          (filter (fun t => negb (handle t =? h)) (timers b))
          (awaiting b) (log b) (life b) (view b).

Section Component.
Variable BACKEND_URL : jsstring.

Definition metrics_url : jsstring := Config.API BACKEND_URL ++ js "/metrics".
Definition insights_url : jsstring := Config.API BACKEND_URL ++ js "/insights?limit=5".

(** [fetchDashboardData] up to its [await]: both requests go out, in
    this order, and the call is suspended on [Promise.all]. *)
Definition fetchDashboardData (b : browser) : browser :=
  let b := record (AxiosGet metrics_url) b in
  let b := record (AxiosGet insights_url) b in
  Browser (now b) (next_handle b) (timers b) (S (awaiting b)) (log b)
          (life b) (view b).

(** [fetchDashboardData] from its [await] on, given what [Promise.all]
    settled to: the two [response.data], or the rejection. *)
Definition fetchDashboardData_resume (r : error + value * value)
  (b : browser) : browser :=
  let b :=
    match r with
    | inr (metrics_data, insights_data) =>
        setInsights insights_data (setMetrics metrics_data b)
    | inl error =>
        record (ConsoleError (js "Error fetching dashboard data:") error) b
    end in
  setLoading false b.

(** The body of [useEffect(..., [])] and the cleanup it returns. *)
Definition effect (b : browser) : browser :=
  let b := fetchDashboardData b in
  let (interval, b) := setInterval 30000 b in
  set_life (Mounted interval) b.

Definition cleanup (interval : N) (b : browser) : browser :=
  set_life TornDown (clearInterval interval b).

(** What can happen to a mounted dashboard.  A timer runs its callback at
    some moment not before it is due and is then armed again one full
    interval later (the timer steps of the HTML standard). *)
Inductive input : Type :=
| Mount
| Unmount
| Elapse (dt : N)
| Fire (h : N)
| Settle (r : error + value * value).

Definition find_timer (h : N) (b : browser) : option timer :=
  find (fun t => handle t =? h) (timers b).

Definition rearm (h : N) (b : browser) : browser :=
  Browser (now b) (next_handle b)
          (map (fun t => if handle t =? h
                         then Timer (handle t) (now b + period t) (period t)
                         else t) (timers b))
          (awaiting b) (log b) (life b) (view b).

Definition step (i : input) (b : browser) : browser :=
  match i with
  | Mount =>
      match life b with
      | NotMounted => effect b
      | _ => b
      end
  | Unmount =>
      match life b with
      | Mounted interval => cleanup interval b
      | _ => b
      end
  | Elapse dt =>
      Browser (now b + dt) (next_handle b) (timers b) (awaiting b) (log b)
              (life b) (view b)
  | Fire h =>
      match find_timer h b with
      | Some t => if due t <=? now b then rearm h (fetchDashboardData b) else b
      | None => b
      end
  | Settle r =>
      match awaiting b with
      | S n =>
          fetchDashboardData_resume r
            (Browser (now b) (next_handle b) (timers b) n (log b) (life b) (view b))
      | O => b
      end
  end.

Definition run (inputs : list input) (b : browser) : browser :=
  fold_left (fun b i => step i b) inputs b.

(** The moments at which a request for the metrics went out, and those of
    the insights. *)
Definition times_of (url : jsstring) (l : list (N * event)) : list N :=
  map fst
      (filter (fun te => match snd te with
                         | AxiosGet u => JsString.eqb u url
                         | _ => false
                         end) l).

Definition requests (l : list (N * event)) : list (N * event) :=
  filter (fun te => is_request (snd te)) l.

End Component.

(** Successive moments at least [gap] apart. *)
Fixpoint spaced (gap : N) (l : list N) : Prop :=
  match l with
  | a :: (b :: _) as l' => a + gap <= b /\ spaced gap l'
  | _ => True
  end.

(** The invariant of a run: the requests sent so far are spaced, and while
    the component is mounted its one timer is due no sooner than a full
    interval after each of them; there is no timer otherwise. *)
Definition polling_invariant (u : jsstring) (b : browser) : Prop :=
  spaced 30000 (times_of u (log b))
  /\ match life b with
     | Mounted h =>
         exists d, timers b = [Timer h d 30000]
                   /\ Forall (fun t => t + 30000 <= d) (times_of u (log b))
     | TornDown => timers b = []
     | NotMounted => timers b = [] /\ log b = [] /\ awaiting b = 0%nat
     end.

End Dashboard.

(** ** Sample environments and states *)

Module Scenarios.

(** A network without connection: every request is rejected. *)
Definition offline : network :=
  Network (fun _ _ _ => inl NetworkError)
          (fun _ _ => inl NetworkError)
          (fun _ _ _ => inl NetworkError).

(** A network that answers every request with the same JSON body. *)
Definition answering (v : value) : network :=
  Network (fun _ _ _ => inr v)
          (fun _ _ => inr v)
          (fun _ _ _ => inr (Response true (inr v))).

Definition standup_filled : StandupModule.state :=
  StandupModule.State (js "1")
    (StandupModule.FormInput (js "1") (js "did X") (js "will do Y") []
       (js "neutral") (num_of_N 5))
    (Some (JStr (js "earlier"))) false false.

Definition retro_filled : RetroModule.state :=
  RetroModule.State
    (RetroModule.FormInput (js "SPRINT-24") (js "a") (js "b") (js "c")
       (js "neutral") Zero Zero)
    (Some (JStr (js "earlier"))) false (js "traditional").

Definition blockers_filled : BlockersModule.state :=
  BlockersModule.State (BlockersModule.FormInput (num_of_N 3) true true)
    (Some (JStr (js "earlier"))) false true.

Definition ticket_filled : SmartTicketGenerator.state :=
  SmartTicketGenerator.State
    (SmartTicketGenerator.FormData [] (js "build it") [] [] (js "Medium") [])
    (Some (JStr (js "earlier"))) false (js "preview").

(** A result as a backend may send it: an identifier, a score of 0.9, a
    list, a nested object, text with a quote and a line break in it. *)
Definition sample_result : value :=
  JObj [ (js "id", JStr (js "a1b2"));
         (js "sentiment_analysis",
          JObj [ (js "overall_sentiment", JStr (js "positive"));
                 (js "confidence_score", JNum (Dec false 9 (-1))) ]);
         (js "recommendations", JArr [JStr (js "R1"); JNull; JBool true]);
         (js "story_points", JNum (num_of_N 13));
         (js "formatted_output", JStr (js "a " ++ [34; 10] ++ js "b"));
         (js "alerts", JArr []) ].

End Scenarios.

(** ** SmartTicketGenerator: the Labels field, the export and the copy *)

Module SmartTicketActions.

(** What the Labels field shows: [value={formData.labels.join(', ')}]. *)
Definition labels_value (d : SmartTicketGenerator.form_data) : jsstring :=
  join (js ", ") (SmartTicketGenerator.labels d).

(** [pieces] with [c] added at the end of its last piece. *)
Fixpoint snoc_last (pieces : list jsstring) (c : N) : list jsstring :=
  match pieces with
  | [] => [[c]]
  | [p] => [p ++ [c]]
  | p :: ps => p :: snoc_last ps c
  end.

(** The component together with the system clipboard it writes to. *)
Record desk : Type := Desk {
  ticket : SmartTicketGenerator.state;
  clipboard : option jsstring
}.

Definition output_of (d : desk) : option value :=
  SmartTicketGenerator.output (ticket d).

Section Handlers.
Variable BACKEND_URL : jsstring.
Variable net : network.

(** [navigator.clipboard]: [undefined] outside a secure context; where it
    is there, [writeText] takes the text, or rejects with a reason (no
    permission, document not focused). *)
Variable navigator_clipboard : option (jsstring -> option error).

(** [navigator.clipboard.writeText], the function looked up: a [TypeError]
    when [navigator.clipboard] is [undefined]. *)
Definition clipboard_writeText : M desk (jsstring -> option error) :=
  match navigator_clipboard with
  | Some rejects => ret rejects
  | None => throw TypeError
  end.

(** The call itself, which does not throw: it gives a promise, and the
    answer here is how that promise settles.  An argument that cannot be
    converted to a string rejects it; otherwise the clipboard takes the text
    unless the browser refuses. *)
Definition writeText (rejects : jsstring -> option error)
  (text : error + jsstring) : M desk (option error) :=
  fun w =>
    match text with
    | inl e => (inr (Some e), w)
    | inr t =>
        match rejects t with
        | None => (inr None, World (Desk (ticket (state w)) (Some t)) (trace w))
        | Some e => (inr (Some e), w)
        end
    end.

(** [await navigator.clipboard.writeText(text)] *)
Definition await_writeText (text : jsstring) : M desk unit :=
  rejects <- clipboard_writeText ;;
  r <- writeText rejects (inr text) ;;
  match r with None => ret tt | Some e => throw e end.

(** [await fetch(url, { method: 'GET' })] *)
Definition await_fetch_get (url : jsstring) : M desk response :=
  fun w =>
    (fetch net (trace w) url [],
     World (state w) (trace w ++ [Fetch url (js "GET") [] []])).

Definition exportToJira : M desk unit :=
  output <- gets output_of ;;
  match output with
  | Some result =>
      if negb (truthy output) then ret tt
      else
        try_catch
          (id <- lift (get result (js "id")) ;;
           id_text <- lift (to_string_opt id) ;;
           response <- await_fetch_get
                         (BACKEND_URL ++ js "/export/ticket/" ++ id_text
                          ++ js "?format=jira") ;;
           if ok response then
             exportData <- lift (json response) ;;
             rejects <- clipboard_writeText ;;
             content <- lift (get exportData (js "content")) ;;
             writeText rejects (to_string_opt content) ;;
             alert (js "JIRA format copied to clipboard!")
           else ret tt)
          (fun error =>
             console_error (js "Export failed:") error ;;
             alert (js "Export failed"))
  | None => ret tt
  end.

Definition copyToClipboard (content : jsstring) : M desk unit :=
  try_catch
    (await_writeText content ;;
     alert (js "Content copied to clipboard!"))
    (fun error =>
       console_error (js "Failed to copy to clipboard:") error ;;
       alert (js "Failed to copy to clipboard")).

(** The Copy JSON button, which is there only when there is a result:
    [copyToClipboard(JSON.stringify(output, null, 2))]. *)
Definition copy_json : M desk unit :=
  output <- gets output_of ;;
  match output with
  | Some result =>
      if truthy output then copyToClipboard (stringify_indented result 2)
      else ret tt
  | None => ret tt
  end.

End Handlers.

End SmartTicketActions.

(** ** StandupModule: editing the form while the voice input is recording *)

Module StandupSession.

(** The text the mock recording produces. *)
Definition transcript : jsstring :=
  js "Transcribed from voice: Yesterday I worked on the payment integration and fixed several bugs in the checkout process.".

(** The object spreads of the form: [{...input, field: v}]. *)
Definition with_team_member_id (v : jsstring) (i : StandupModule.form_input) :=
  StandupModule.FormInput v (StandupModule.yesterday i) (StandupModule.today i)
    (StandupModule.blockers i) (StandupModule.mood i)
    (StandupModule.confidence_level i).
Definition with_yesterday (v : jsstring) (i : StandupModule.form_input) :=
  StandupModule.FormInput (StandupModule.team_member_id i) v (StandupModule.today i)
    (StandupModule.blockers i) (StandupModule.mood i)
    (StandupModule.confidence_level i).
Definition with_today (v : jsstring) (i : StandupModule.form_input) :=
  StandupModule.FormInput (StandupModule.team_member_id i)
    (StandupModule.yesterday i) v (StandupModule.blockers i)
    (StandupModule.mood i) (StandupModule.confidence_level i).
Definition with_blockers (v : jsstring) (i : StandupModule.form_input) :=
  StandupModule.FormInput (StandupModule.team_member_id i)
    (StandupModule.yesterday i) (StandupModule.today i) v
    (StandupModule.mood i) (StandupModule.confidence_level i).
Definition with_mood (v : jsstring) (i : StandupModule.form_input) :=
  StandupModule.FormInput (StandupModule.team_member_id i)
    (StandupModule.yesterday i) (StandupModule.today i)
    (StandupModule.blockers i) v (StandupModule.confidence_level i).
Definition with_confidence_level (n : number) (i : StandupModule.form_input) :=
  StandupModule.FormInput (StandupModule.team_member_id i)
    (StandupModule.yesterday i) (StandupModule.today i)
    (StandupModule.blockers i) (StandupModule.mood i) n.

Definition setVoiceRecording (b : bool) : M StandupModule.state unit :=
  modify (fun s =>
    StandupModule.State (StandupModule.selectedMember s) (StandupModule.input s)
      (StandupModule.output s) (StandupModule.loading s) b).

(** The component between two renders, with the timer of
    [startVoiceRecording] when it is pending: the callback given to
    [setTimeout] holds the [input] of the render in which the button was
    clicked. *)
Record session : Type := Session {
  view : StandupModule.state;
  timer : option StandupModule.form_input
}.

(** What the user and the browser do: the [onChange] handlers of the six
    controls (the confidence slider gives [parseInt(e.target.value)]), the
    two buttons, and the timer running out. *)
Inductive action : Type :=
| SelectMember (v : jsstring)
| EditYesterday (v : jsstring)
| EditToday (v : jsstring)
| EditBlockers (v : jsstring)
| EditMood (v : jsstring)
| EditConfidence (n : number)
| ClickLoadExample
| ClickVoiceInput
| VoiceTimeout.

(** An [onChange] handler: [setInput({...input, field: v})] with the [input]
    of the current render. *)
Definition edit (f : StandupModule.form_input -> StandupModule.form_input)
  (s : session) : session :=
  Session (final_state (StandupModule.setInput (f (StandupModule.input (view s))))
             (view s))
          (timer s).

Definition step (a : action) (s : session) : session :=
  match a with
  | SelectMember v =>
      Session
        (final_state
           (StandupModule.setSelectedMember v ;;
            StandupModule.setInput
              (with_team_member_id v (StandupModule.input (view s))))
           (view s))
        (timer s)
  | EditYesterday v => edit (with_yesterday v) s
  | EditToday v => edit (with_today v) s
  | EditBlockers v => edit (with_blockers v) s
  | EditMood v => edit (with_mood v) s
  | EditConfidence n => edit (with_confidence_level n) s
  | ClickLoadExample =>
      Session (final_state StandupModule.loadExample (view s)) (timer s)
  | ClickVoiceInput =>
      (* the button is [disabled={voiceRecording}] *)
      if StandupModule.voiceRecording (view s) then s
      else
        Session (final_state (setVoiceRecording true) (view s))
                (Some (StandupModule.input (view s)))
  | VoiceTimeout =>
      match timer s with
      | Some input =>
          Session
            (final_state
               (setVoiceRecording false ;;
                StandupModule.setInput (with_yesterday transcript input))
               (view s))
            None
      | None => s
      end
  end.

Definition run (actions : list action) (s : session) : session :=
  fold_left (fun s a => step a s) actions s.

Definition is_timeout (a : action) : bool :=
  match a with VoiceTimeout => true | _ => false end.

End StandupSession.

(** ** BlockersModule: the Run Analysis button and the counters *)

Module BlockersScan.

Section Handlers.
Variable BACKEND_URL : jsstring.
Variable net : network.

(** [handleSubmit] after its [e.preventDefault()], for the [input] the
    function closes over. *)
Definition submit_with (input : BlockersModule.form_input)
  : M BlockersModule.state unit :=
  BlockersModule.setLoading true ;;
  try_catch_finally
    (data <- await_axios_post net (Config.API BACKEND_URL ++ js "/blockers")
               (BlockersModule.body input) ;;
     BlockersModule.setOutput data)
    (fun error => console_error (js "Error generating blocker analysis:") error)
    (BlockersModule.setLoading false).

(** [runMockAnalysis]: [setInput({...})] then [handleSubmit({ preventDefault:
    () => {} })].  The [handleSubmit] called is the one of the current
    render, so the [input] it posts is the one of that render. *)
Definition runMockAnalysis : M BlockersModule.state unit :=
  input <- gets BlockersModule.input ;;
  BlockersModule.setInput (BlockersModule.FormInput (num_of_N 3) true true) ;;
  submit_with input.

End Handlers.

(** [x === 'literal'] *)
Definition is_string (s : jsstring) (v : option value) : bool :=
  match v with
  | Some (JStr t) => JsString.eqb t s
  | _ => false
  end.

(** [alerts.filter(a => a.severity === severity)]: reading [severity] of a
    [null] alert throws. *)
Fixpoint filter_severity (severity : jsstring) (alerts : list value)
  : error + list value :=
  match alerts with
  | [] => inr []
  | a :: rest =>
      match get a (js "severity") with
      | inl e => inl e
      | inr s =>
          match filter_severity severity rest with
          | inl e => inl e
          | inr kept => inr (if is_string severity s then a :: kept else kept)
          end
      end
  end.

(** The Number of a [length]. *)
Definition count_of (n : nat) : value := JNum (num_of_N (N.of_nat n)).

(** [v || 0] *)
Definition or_zero (v : option value) : value :=
  match v with
  | Some x => if truthy v then x else JNum Zero
  | None => JNum Zero
  end.

(** [output.alerts?.filter(a => a.severity === severity).length || 0]: the
    chain stops at a missing or [null] [alerts]; anything else that is not
    an array has no [filter] to call. *)
Definition severity_count (severity : jsstring) (output : value) : error + value :=
  match get output (js "alerts") with
  | inl e => inl e
  | inr None | inr (Some JNull) => inr (JNum Zero)
  | inr (Some (JArr alerts)) =>
      match filter_severity severity alerts with
      | inl e => inl e
      | inr kept => inr (or_zero (Some (count_of (List.length kept))))
      end
  | inr (Some _) => inl TypeError
  end.

(** [output.alerts?.length || 0] *)
Definition total_count (output : value) : error + value :=
  match get output (js "alerts") with
  | inl e => inl e
  | inr None | inr (Some JNull) => inr (JNum Zero)
  | inr (Some (JArr alerts)) => inr (or_zero (Some (count_of (List.length alerts))))
  | inr (Some (JStr s)) => inr (or_zero (Some (count_of (List.length s))))
  | inr (Some (JObj props)) => inr (or_zero (lookup (js "length") props))
  | inr (Some _) => inr (JNum Zero)
  end.

(** An alert of the given severity. *)
Definition has_severity (severity : jsstring) (a : value) : bool :=
  match get a (js "severity") with
  | inr s => is_string severity s
  | inl _ => false
  end.

(** An alert that one of the three counters counts. *)
Definition counted (a : value) : bool :=
  match get a (js "severity") with
  | inr s => is_string (js "Critical") s || is_string (js "High") s
             || is_string (js "Medium") s
  | inl _ => false
  end.

End BlockersScan.

(** ** BlockersModule: calls of [handleSubmit] that overlap *)

Module BlockersSession.

(** The component between two renders, the requests of the calls of
    [handleSubmit] that wait at their [await], oldest first, and what was
    done so far. *)
Record page : Type := Page {
  view : BlockersModule.state;
  pending : list value;
  log : list event
}.

Section Handlers.
Variable BACKEND_URL : jsstring.

(** [handleSubmit] after [e.preventDefault()] and up to its [await]: the
    loading flag is raised and the request goes out, made from the [input]
    the function closes over. *)
Definition submit_begin (input : BlockersModule.form_input)
  : M BlockersModule.state unit :=
  BlockersModule.setLoading true ;;
  emit (AxiosPost (Config.API BACKEND_URL ++ js "/blockers")
          (BlockersModule.body input)).

(** [handleSubmit] from its [await] on, given what the request settled to. *)
Definition submit_resume (reply : error + value) : M BlockersModule.state unit :=
  try_catch_finally
    (data <- lift reply ;;
     BlockersModule.setOutput data)
    (fun error => console_error (js "Error generating blocker analysis:") error)
    (BlockersModule.setLoading false).

(** What the user and the network do: the submit button of the form, which
    is [disabled={loading}]; the Run Analysis button, which is never
    disabled; the answer to the [k]-th of the requests that wait. *)
Inductive action : Type :=
| ClickSubmit
| ClickRunAnalysis
| Settle (k : nat) (reply : error + value).

Definition advance (m : M BlockersModule.state unit) (p : page) : page :=
  let w := snd (m (World (view p) (log p))) in
  Page (state w) (pending p) (trace w).

(** A call of [handleSubmit] as far as its [await]. *)
Definition call (before : M BlockersModule.state unit)
  (input : BlockersModule.form_input) (p : page) : page :=
  let p' := advance (before ;; submit_begin input) p in
  Page (view p') (pending p ++ [BlockersModule.body input]) (log p').

Definition step (a : action) (p : page) : page :=
  match a with
  | ClickSubmit =>
      if BlockersModule.loading (view p) then p
      else
        match Form.first_invalid (Forms.blockers_controls (view p)) with
        | Some _ => p
        | None => call prevent_default (BlockersModule.input (view p)) p
        end
  | ClickRunAnalysis =>
      call (BlockersModule.setInput
              (BlockersModule.FormInput (num_of_N 3) true true))
           (BlockersModule.input (view p)) p
  | Settle k reply =>
      match nth_error (pending p) k with
      | Some _ =>
          let p' := advance (submit_resume reply) p in
          Page (view p') (firstn k (pending p) ++ skipn (S k) (pending p))
               (log p')
      | None => p
      end
  end.

Definition run (actions : list action) (p : page) : page :=
  fold_left (fun p a => step a p) actions p.

End Handlers.

(** The component as it is mounted, nothing waiting. *)
Definition fresh (s : BlockersModule.state) : page := Page s [] [].

End BlockersSession.

(** ** Sidebar: the navigation buttons *)

Module Sidebar.

(** [activeTab === item.id], which makes the button [active]. *)
Definition is_active (activeTab : jsstring) (item : App.menu_item) : bool :=
  JsString.eqb activeTab (App.id item).

(** [className={`nav-item ${activeTab === item.id ? 'active' : ''}`}] *)
Definition nav_class (activeTab : jsstring) (item : App.menu_item) : jsstring :=
  js "nav-item " ++ (if is_active activeTab item then js "active" else []).

(** [onClick={() => setActiveTab(item.id)}] *)
Definition click (item : App.menu_item) (activeTab : jsstring) : jsstring :=
  App.id item.

Definition after_clicks (clicks : list App.menu_item) : jsstring :=
  fold_left (fun tab item => click item tab) clicks App.initial_tab.

End Sidebar.

(** ** Dashboard: inputs of a run *)

Module DashboardRun.

Definition is_unmount (i : Dashboard.input) : bool :=
  match i with Dashboard.Unmount => true | _ => false end.

End DashboardRun.

(** ** More sample values *)

Module Samples.

(** A blocker report with one alert of each of three severities, one of
    them outside the three the summary counts. *)
Definition sample_alerts : list value :=
  [ JObj [(js "title", JStr (js "Staging is down")); (js "severity", JStr (js "Critical"))];
    JObj [(js "title", JStr (js "Review queue")); (js "severity", JStr (js "High"))];
    JObj [(js "title", JStr (js "Flaky test")); (js "severity", JStr (js "Low"))] ].

Definition sample_report : value :=
  JObj [(js "summary", JStr (js "3 blockers")); (js "alerts", JArr sample_alerts)].

(** A clipboard that takes everything, one that refuses everything, and a
    page that has none. *)
Definition clipboard_open : option (jsstring -> option error) :=
  Some (fun _ => None).
Definition clipboard_denied : option (jsstring -> option error) :=
  Some (fun _ => Some NotAllowedError).
Definition clipboard_absent : option (jsstring -> option error) := None.

(** A backend that answers every request with status 500 and a JSON body. *)
Definition failing_with (body : value) : network :=
  Network (fun _ _ _ => inl (HttpStatusError 500))
          (fun _ _ => inl (HttpStatusError 500))
          (fun _ _ _ => inr (Response false (inr body))).

(** A backend on which one endpoint answers and every other request is
    rejected, and one on which that endpoint alone is down. *)
Definition answering_only (path : jsstring) (body : value) : network :=
  Network (fun _ url _ => if JsString.eqb url path then inr body
                          else inl NetworkError)
          (fun _ _ => inl NetworkError)
          (fun _ url _ => if JsString.eqb url path
                          then inr (Response true (inr body))
                          else inl NetworkError).

Definition failing_only (path : jsstring) (body : value) : network :=
  Network (fun _ url _ => if JsString.eqb url path then inl NetworkError
                          else inr body)
          (fun _ _ => inr body)
          (fun _ url _ => if JsString.eqb url path then inl NetworkError
                          else inr (Response true (inr body))).



(** The body [{"velocity":1e999}] and the result it is read as. *)
Definition overflowing_body : jsstring :=
  [123; 34] ++ js "velocity" ++ [34; 58] ++ js "1e999}".

Definition overflowing_result : value :=
  JObj [(js "velocity", JNum (Infinity false))].

Definition ticket_desk : SmartTicketActions.desk :=
  SmartTicketActions.Desk
    (SmartTicketGenerator.State
       (SmartTicketGenerator.FormData [] (js "build it") [] [] (js "Medium") [])
       (Some Scenarios.sample_result) false (js "preview"))
    None.

End Samples.

(** * Properties *)

(** ** Strings *)

Module JsStringFacts.

Lemma eqb_eq a b : JsString.eqb a b = true <-> a = b.
Proof.
  unfold JsString.eqb. destruct (list_eq_dec N.eq_dec a b); split; congruence.
Qed.

Lemma eqb_refl a : JsString.eqb a a = true.
Proof. now apply eqb_eq. Qed.

Lemma eqb_neq a b : JsString.eqb a b = false <-> a <> b.
Proof.
  unfold JsString.eqb. destruct (list_eq_dec N.eq_dec a b); split; congruence.
Qed.

Lemma truthy_nonempty s : JsString.truthy s = true <-> s <> [].
Proof. destruct s; simpl; split; congruence. Qed.

(** [trimStart] removes a prefix and leaves no white space in front. *)
Lemma trimStart_suffix s : exists p, s = p ++ trimStart s.
Proof.
  induction s as [|c s IH]; simpl.
  - now exists [].
  - destruct (is_white_space c).
    + destruct IH as [p Hp]. exists (c :: p). simpl. now f_equal.
    + now exists [].
Qed.

Lemma trimStart_first s c :
  first (trimStart s) = Some c -> is_white_space c = false.
Proof.
  induction s as [|d s IH]; simpl; [discriminate|].
  destruct (is_white_space d) eqn:E; [exact IH|].
  simpl. now intros [= <-].
Qed.

Lemma trimEnd_prefix s : exists q, s = trimEnd s ++ q.
Proof.
  unfold trimEnd. destruct (trimStart_suffix (rev s)) as [p Hp].
  exists (rev p).
  rewrite <- rev_app_distr, <- Hp. now rewrite rev_involutive.
Qed.

Lemma trimEnd_final s c :
  final (trimEnd s) = Some c -> is_white_space c = false.
Proof.
  unfold final, trimEnd. rewrite rev_involutive. apply trimStart_first.
Qed.

Lemma trimEnd_first s c :
  first (trimEnd s) = Some c -> first s = Some c.
Proof.
  destruct (trimEnd_prefix s) as [q Hq].
  destruct (trimEnd s) as [|d t] eqn:E; [discriminate|].
  rewrite Hq. simpl. auto.
Qed.

Lemma trim_first s c : first (trim s) = Some c -> is_white_space c = false.
Proof.
  unfold trim. intros H. apply trimEnd_first in H.
  now apply trimStart_first in H.
Qed.

Lemma trim_final s c : final (trim s) = Some c -> is_white_space c = false.
Proof. unfold trim. apply trimEnd_final. Qed.

Lemma split_nonempty sep s : split sep s <> [].
Proof.
  destruct s as [|c s]; simpl; [discriminate|].
  destruct (c =? sep); [discriminate|].
  destruct (split sep s); discriminate.
Qed.

(** The pieces of [split] do not contain the separator, and joining them
    with it gives the string back. *)
Lemma split_no_separator sep s :
  Forall (fun piece => ~ In sep piece) (split sep s).
Proof.
  induction s as [|c s IH]; simpl.
  - repeat constructor. intros [].
  - destruct (N.eqb_spec c sep) as [->|Hne].
    + constructor; [intros []|exact IH].
    + destruct (split sep s) as [|p ps].
      * repeat constructor. simpl. intros [H|[]]. congruence.
      * inversion IH; subst. constructor; [|assumption].
        simpl. intros [H|H]; [congruence|contradiction].
Qed.

Lemma join_split sep s : join [sep] (split sep s) = s.
Proof.
  induction s as [|c s IH]; simpl; [reflexivity|].
  destruct (N.eqb_spec c sep) as [->|Hne].
  - pose proof (split_nonempty sep s) as Hn.
    destruct (split sep s) as [|p ps]; [congruence|].
    simpl. now rewrite <- IH.
  - pose proof (split_nonempty sep s) as Hn.
    destruct (split sep s) as [|p ps]; [congruence|].
    rewrite <- IH. destruct ps; reflexivity.
Qed.

End JsStringFacts.

(** ** JSON: parsing what was serialized *)

Module JsonFacts.

(** *** White space and digits *)

Lemma skip_ws_blank w s : blank w = true -> skip_ws (w ++ s) = skip_ws s.
Proof.
  unfold blank. induction w as [|c w IH]; simpl; [reflexivity|].
  intros H. apply andb_true_iff in H. destruct H as [Hc Hw].
  rewrite Hc. auto.
Qed.

Lemma skip_ws_stop c s : is_json_ws c = false -> skip_ws (c :: s) = c :: s.
Proof. simpl. now intros ->. Qed.

Lemma span_digits_app ds rest :
  forallb is_digit ds = true ->
  match rest with [] => True | c :: _ => is_digit c = false end ->
  span_digits (ds ++ rest) = (ds, rest).
Proof.
  induction ds as [|c ds IH]; simpl; intros Hd Hr.
  - destruct rest as [|c r]; [reflexivity|]. simpl. now rewrite Hr.
  - apply andb_true_iff in Hd. destruct Hd as [Hc Hd].
    rewrite Hc, IH; auto.
Qed.

Lemma ends_token_not_digit rest :
  ends_token rest = true ->
  match rest with [] => True | c :: _ => is_digit c = false end.
Proof.
  destruct rest as [|c r]; simpl; [auto|].
  unfold is_json_ws, is_digit. intros H.
  repeat (apply orb_true_iff in H; destruct H as [H|H]);
    apply N.eqb_eq in H; subst c; reflexivity.
Qed.

Lemma ends_token_cases rest :
  ends_token rest = true ->
  rest = [] \/ exists c r, rest = c :: r /\ is_digit c = false
                           /\ c <> 46 /\ c <> 101 /\ c <> 69.
Proof.
  destruct rest as [|c r]; simpl; [auto|]. intros H. right.
  exists c, r. split; [reflexivity|].
  unfold is_json_ws, is_digit in *.
  repeat (apply orb_true_iff in H; destruct H as [H|H]);
    apply N.eqb_eq in H; subst c; repeat split; try reflexivity; discriminate.
Qed.

(** *** Decimal numerals *)

Lemma uint_of_units_of_uint d : uint_of_units (units_of_uint d) = d.
Proof. induction d; simpl; now f_equal. Qed.

Lemma digits_value_decimal m : digits_value (decimal m) = m.
Proof.
  unfold digits_value, decimal. rewrite uint_of_units_of_uint.
  apply DecimalN.Unsigned.of_to.
Qed.

Lemma units_of_uint_digits d : forallb is_digit (units_of_uint d) = true.
Proof. induction d; simpl; auto. Qed.

Lemma decimal_digits m : forallb is_digit (decimal m) = true.
Proof. apply units_of_uint_digits. Qed.

Lemma decimal_nonempty m : decimal m <> [].
Proof.
  unfold decimal. destruct m as [|p]; simpl; [discriminate|].
  pose proof (DecimalPos.Unsigned.to_uint_nonnil p) as H.
  destruct (Pos.to_uint p); simpl; congruence.
Qed.

(** *** Zeros *)

Lemma strip_zeros_repeat n l : strip_zeros (repeat 48 n ++ l) = strip_zeros l.
Proof. induction n; simpl; auto. Qed.

Lemma strip_zeros_head c l : (c =? 48) = false -> strip_zeros (c :: l) = c :: l.
Proof. simpl. now intros ->. Qed.

Lemma rev_repeat {A} (x : A) n : rev (repeat x n) = repeat x n.
Proof.
  induction n; simpl; [reflexivity|].
  rewrite IHn. clear. induction n; simpl; [reflexivity|]. now rewrite IHn.
Qed.


Lemma starts_same k r : starts k (k :: r) = Some r.
Proof. simpl. now rewrite N.eqb_refl. Qed.

Lemma starts_other k c r : c <> k -> starts k (c :: r) = None.
Proof. simpl. intros H. apply N.eqb_neq in H. now rewrite H. Qed.

(** *** Numbers *)

(** The decimal numeral of a positive number does not start with a zero. *)
Lemma decimal_head s : exists c t, decimal (Npos s) = c :: t /\ c <> 48.
Proof.
  unfold decimal. change (N.to_uint (Npos s)) with (Pos.to_uint s).
  assert (Hnorm : Decimal.unorm (Pos.to_uint s) = Pos.to_uint s).
  { rewrite <- DecimalPos.Unsigned.to_of, DecimalPos.Unsigned.of_to.
    reflexivity. }
  pose proof (DecimalPos.Unsigned.to_uint_nonzero s) as Hnz.
  pose proof (DecimalFacts.nzhead_nonzero (Pos.to_uint s)) as Hhead.
  unfold Decimal.unorm in Hnorm.
  destruct (Decimal.nzhead (Pos.to_uint s)) eqn:E;
    try (rewrite <- Hnorm; simpl; eexists _, _; split; [reflexivity|discriminate]).
  - now rewrite <- Hnorm in Hnz.
  - now destruct (Hhead u).
Qed.

Lemma wf_number_parts neg s e :
  wf_number (Dec neg s e) = true ->
  significant (decimal (Npos s))
  /\ overflows (decimal (Npos s))
       (e + Z.of_nat (List.length (decimal (Npos s)))) = false
  /\ underflows (decimal (Npos s))
       (e + Z.of_nat (List.length (decimal (Npos s)))) = false.
Proof.
  simpl. intros H.
  apply andb_true_iff in H. destruct H as [H Hu].
  apply andb_true_iff in H. destruct H as [Hl Ho].
  apply negb_true_iff in Ho, Hu.
  split; [|split; assumption].
  split; [apply decimal_digits|apply decimal_head|].
  destruct (rev (decimal (Npos s))) as [|c t]; [discriminate|].
  exists c, t. split; [reflexivity|].
  apply negb_true_iff, N.eqb_neq in Hl. exact Hl.
Qed.

Lemma wf_number_significant neg s e :
  wf_number (Dec neg s e) = true -> significant (decimal (Npos s)).
Proof. intros H. now apply wf_number_parts in H. Qed.

Lemma strip_zeros_significant ds l :
  significant ds -> strip_zeros (ds ++ l) = ds ++ l.
Proof.
  intros [_ (c & t & -> & Hc) _]. simpl.
  apply N.eqb_neq in Hc. now rewrite Hc.
Qed.

Lemma strip_trailing_zeros ds z :
  significant ds -> rev (strip_zeros (rev (ds ++ repeat 48 z))) = ds.
Proof.
  intros [_ _ (c & t & Hr & Hc)].
  rewrite rev_app_distr, rev_repeat, strip_zeros_repeat, Hr.
  rewrite strip_zeros_head by now apply N.eqb_neq.
  rewrite <- Hr. apply rev_involutive.
Qed.

Lemma make_number_spec neg int frac e a z ds :
  int ++ frac = repeat 48 a ++ ds ++ repeat 48 z ->
  significant ds ->
  make_number neg int frac e
  = of_decimal neg ds (Z.of_nat (List.length int) - Z.of_nat a + e).
Proof.
  intros Hall Hs. unfold make_number, decimal_form. rewrite Hall.
  rewrite strip_zeros_repeat, strip_zeros_significant by assumption.
  rewrite strip_trailing_zeros by assumption.
  rewrite (length_app (repeat 48 a)), repeat_length.
  rewrite Nat.add_sub.
  destruct Hs as [_ (c & t & -> & _) _]. reflexivity.
Qed.

Lemma parse_frac_absent rest :
  ends_token rest = true -> parse_frac rest = Some ([], rest).
Proof.
  intros H. destruct (ends_token_cases rest H) as [->|(c & r & -> & _ & Hc & _)];
    [reflexivity|].
  unfold parse_frac. now rewrite starts_other.
Qed.

Lemma parse_exp_absent rest :
  ends_token rest = true -> parse_exp rest = Some (0%Z, rest).
Proof.
  intros H. destruct (ends_token_cases rest H) as [->|(c & r & -> & _ & _ & H1 & H2)];
    [reflexivity|].
  unfold parse_exp. now rewrite !starts_other.
Qed.

Lemma parse_exp_printed e rest :
  ends_token rest = true ->
  parse_exp (exponent_part e ++ rest) = Some (e, rest).
Proof.
  intros H. apply ends_token_not_digit in H.
  unfold exponent_part, parse_exp. rewrite <- !app_assoc.
  change (js "e" ++ ?x) with (101 :: x). rewrite starts_same.
  pose proof (span_digits_app (decimal (Z.abs_N e)) rest (decimal_digits _) H) as Hspan.
  pose proof (decimal_nonempty (Z.abs_N e)) as Hne.
  pose proof (digits_value_decimal (Z.abs_N e)) as Hval.
  destruct (Z.ltb_spec e 0) as [Hneg|Hpos].
  - change (js "-" ++ ?x) with (45 :: x).
    unfold parse_sign. rewrite starts_other, starts_same by discriminate.
    rewrite Hspan. destruct (decimal (Z.abs_N e)); [congruence|].
    rewrite Hval. f_equal. f_equal. lia.
  - change (js "+" ++ ?x) with (43 :: x).
    unfold parse_sign. rewrite starts_same.
    rewrite Hspan. destruct (decimal (Z.abs_N e)); [congruence|].
    rewrite Hval. f_equal. f_equal. lia.
Qed.

Lemma significant_head ds :
  significant ds ->
  exists c t, ds = c :: t /\ (c =? 48) = false /\ is_digit c = true
              /\ forallb is_digit t = true.
Proof.
  intros [Hd (c & t & -> & Hc) _]. exists c, t.
  simpl in Hd. apply andb_true_iff in Hd. destruct Hd.
  repeat split; auto. now apply N.eqb_neq.
Qed.

Lemma forallb_zeros z : forallb is_digit (repeat 48 z) = true.
Proof. induction z; simpl; auto. Qed.

Lemma forallb_firstn n ds :
  forallb is_digit ds = true -> forallb is_digit (firstn n ds) = true.
Proof.
  revert n. induction ds as [|c ds IH]; intros [|n]; simpl; auto.
  intros H. apply andb_true_iff in H. destruct H as [-> H]. simpl. auto.
Qed.

Lemma forallb_skipn n ds :
  forallb is_digit ds = true -> forallb is_digit (skipn n ds) = true.
Proof.
  revert n. induction ds as [|c ds IH]; intros [|n]; simpl; auto.
  intros H. apply andb_true_iff in H. destruct H as [_ H]. auto.
Qed.

Lemma parse_int_digits c t x :
  (c =? 48) = false -> forallb is_digit (c :: t) = true -> stops x ->
  parse_int ((c :: t) ++ x) = Some (c :: t, x).
Proof.
  intros Hc Hd Hx. pose proof (span_digits_app (c :: t) x Hd Hx) as E.
  simpl in Hd. apply andb_true_iff in Hd. destruct Hd as [Hcd _].
  unfold parse_int. change ((c :: t) ++ x) with (c :: (t ++ x)) in *.
  cbv beta iota. rewrite Hc, Hcd. now rewrite E.
Qed.

Lemma parse_frac_digits f x :
  f <> [] -> forallb is_digit f = true -> stops x ->
  parse_frac (46 :: f ++ x) = Some (f, x).
Proof.
  intros Hf Hd Hx. unfold parse_frac. rewrite starts_same.
  rewrite (span_digits_app f x Hd Hx). destruct f; congruence.
Qed.

Lemma parse_frac_exponent e x :
  parse_frac (exponent_part e ++ x) = Some ([], exponent_part e ++ x).
Proof. reflexivity. Qed.

Ltac same_point :=
  match goal with
  | |- Some (of_decimal _ _ ?x, _) = Some (of_decimal _ _ ?y, _) =>
      replace x with y; [reflexivity|]
  end.

Lemma parse_unsigned_printed neg ds n rest :
  significant ds -> ends_token rest = true ->
  parse_unsigned neg (digits_to_string ds n ++ rest)
  = Some (of_decimal neg ds n, rest).
Proof.
  intros Hs Hrest.
  assert (Hstop : stops rest) by now apply ends_token_not_digit.
  destruct (significant_head ds Hs) as (c & t & Hds & Hc & Hcd & Htd).
  pose proof (sig_digits ds Hs) as Hd.
  unfold digits_to_string, parse_unsigned.
  destruct ((Z.of_nat (List.length ds) <=? n) && (n <=? 21))%Z eqn:C1.
  { (* digits, then zeros *)
    apply andb_true_iff in C1. destruct C1 as [Hk _]. apply Z.leb_le in Hk.
    set (z := Z.to_nat (n - Z.of_nat (List.length ds))).
    assert (Hint : parse_int ((ds ++ repeat 48 z) ++ rest)
                   = Some (ds ++ repeat 48 z, rest)).
    { rewrite Hds. apply (parse_int_digits c (t ++ repeat 48 z)); auto.
      change (forallb is_digit ((c :: t) ++ repeat 48 z) = true).
      rewrite <- Hds, forallb_app, Hd. apply forallb_zeros. }
    rewrite Hint, parse_frac_absent, parse_exp_absent by assumption.
    rewrite (make_number_spec neg _ [] 0%Z 0 z ds); auto.
    - same_point. rewrite length_app, repeat_length. unfold z. lia.
    - now rewrite List.app_nil_r. }
  destruct ((0 <? n) && (n <=? 21))%Z eqn:C2.
  { (* digits around the point *)
    apply andb_true_iff in C2. destruct C2 as [Hpos Hle]. apply Z.ltb_lt in Hpos.
    apply andb_false_iff in C1. destruct C1 as [C1|C1];
      [apply Z.leb_gt in C1|rewrite Hle in C1; discriminate].
    set (m := Z.to_nat n).
    assert (Hm : (0 < m < List.length ds)%nat) by (unfold m; lia).
    assert (Hsk : skipn m ds <> []).
    { intros E. apply (f_equal (@List.length N)) in E.
      rewrite length_skipn in E. simpl in E. lia. }
    assert (Hint : parse_int (firstn m ds ++ 46 :: skipn m ds ++ rest)
                   = Some (firstn m ds, 46 :: skipn m ds ++ rest)).
    { assert (Hf : forallb is_digit (firstn m ds) = true) by now apply forallb_firstn.
      revert Hf. rewrite Hds. destruct m as [|m']; [lia|]. simpl firstn.
      intros Hf. apply parse_int_digits; auto. reflexivity. }
    rewrite <- !app_assoc. change (js "." ++ ?x) with (46 :: x).
    rewrite Hint, parse_frac_digits; auto using forallb_skipn.
    rewrite parse_exp_absent by assumption.
    rewrite (make_number_spec neg _ _ 0%Z 0 0 ds); auto.
    - same_point. rewrite length_firstn. unfold m. lia.
    - rewrite firstn_skipn. simpl. now rewrite List.app_nil_r. }
  destruct ((-6 <? n) && (n <=? 0))%Z eqn:C3.
  { (* zero, point, zeros, digits *)
    apply andb_true_iff in C3. destruct C3 as [_ Hle]. apply Z.leb_le in Hle.
    set (z := Z.to_nat (- n)).
    rewrite <- !app_assoc.
    change (js "0." ++ ?x) with (48 :: 46 :: x).
    unfold parse_int. rewrite N.eqb_refl.
    rewrite app_assoc, parse_frac_digits; auto.
    + rewrite parse_exp_absent by assumption.
      rewrite (make_number_spec neg _ _ 0%Z (S z) 0 ds); auto.
      * same_point. simpl List.length. unfold z. lia.
      * simpl. now rewrite List.app_nil_r.
    + rewrite Hds. destruct (repeat 48 z); discriminate.
    + rewrite forallb_app, forallb_zeros. exact Hd. }
  (* exponent notation *)
  rewrite Hds in *.
  destruct t as [|d r].
  - rewrite <- !app_assoc.
    rewrite parse_int_digits; auto; [|reflexivity].
    rewrite parse_frac_exponent, parse_exp_printed by assumption.
    rewrite (make_number_spec neg _ _ _ 0 0 [c]); auto.
    same_point. simpl List.length. lia.
  - rewrite <- !app_assoc. change (js "." ++ ?x) with (46 :: x).
    rewrite (parse_int_digits c []); auto; [|simpl; now rewrite Hcd|reflexivity].
    rewrite parse_frac_digits; auto; [|discriminate|reflexivity].
    rewrite parse_exp_printed by assumption.
    rewrite (make_number_spec neg _ _ _ 0 0 (c :: d :: r)); auto.
    + same_point. simpl List.length. lia.
    + simpl. now rewrite List.app_nil_r.
Qed.

Lemma digits_to_string_head ds n :
  significant ds ->
  exists c t, digits_to_string ds n = c :: t /\ is_digit c = true.
Proof.
  intros Hs. destruct (significant_head ds Hs) as (c & t & Hds & Hc & Hcd & Htd).
  unfold digits_to_string.
  destruct ((Z.of_nat (List.length ds) <=? n) && (n <=? 21))%Z eqn:C1.
  { rewrite Hds. simpl. eauto. }
  destruct ((0 <? n) && (n <=? 21))%Z eqn:C2.
  { apply andb_true_iff in C2. destruct C2 as [Hpos _]. apply Z.ltb_lt in Hpos.
    rewrite Hds. destruct (Z.to_nat n) eqn:E; [lia|]. simpl. eauto. }
  destruct ((-6 <? n) && (n <=? 0))%Z eqn:C3.
  { simpl. eexists _, _. split; reflexivity. }
  rewrite Hds. destruct t; simpl; eauto.
Qed.

Lemma digit_codes c :
  is_digit c = true -> 48 <= c <= 57.
Proof.
  unfold is_digit. intros H. apply andb_true_iff in H.
  destruct H as [H1 H2]. apply N.leb_le in H1, H2. lia.
Qed.

(** A Number in the form described is printed from its own digits, and
    these give it back. *)
Lemma number_to_string_wf neg s e :
  wf_number (Dec neg s e) = true ->
  number_to_string (Dec neg s e)
  = (if neg then js "-" else [])
    ++ digits_to_string (decimal (Npos s))
                        (e + Z.of_nat (List.length (decimal (Npos s)))).
Proof.
  intros Hwf. apply wf_number_significant in Hwf.
  unfold number_to_string.
  pose proof (strip_trailing_zeros (decimal (Npos s)) 0 Hwf) as E.
  simpl repeat in E. rewrite List.app_nil_r in E. now rewrite E.
Qed.

Lemma of_decimal_wf neg s e :
  wf_number (Dec neg s e) = true ->
  of_decimal neg (decimal (Npos s))
             (e + Z.of_nat (List.length (decimal (Npos s))))
  = Dec neg s e.
Proof.
  intros Hwf. apply wf_number_parts in Hwf. destruct Hwf as (_ & Ho & Hu).
  unfold of_decimal. rewrite Ho, Hu, digits_value_decimal.
  f_equal. lia.
Qed.

Lemma number_to_string_head x :
  wf_number x = true ->
  exists c t, number_to_string x = c :: t /\ (is_digit c = true \/ c = 45).
Proof.
  intros Hwf. destruct x as [| |neg s e|neg|]; try discriminate.
  - exists 48, []. split; [reflexivity|now left].
  - rewrite number_to_string_wf by assumption.
    apply wf_number_significant in Hwf.
    destruct (digits_to_string_head _ (e + Z.of_nat (List.length (decimal (Npos s))))
                Hwf) as (c & t & E & Hc).
    rewrite E. destruct neg; simpl; eauto.
Qed.

Lemma parse_number_printed x rest :
  wf_number x = true -> ends_token rest = true ->
  parse_number (number_to_string x ++ rest) = Some (x, rest).
Proof.
  intros Hwf Hrest. destruct x as [| |neg s e|neg|]; try discriminate.
  - simpl. unfold parse_number. rewrite starts_other by discriminate.
    unfold parse_unsigned. simpl parse_int. cbv beta iota.
    now rewrite parse_frac_absent, parse_exp_absent.
  - rewrite number_to_string_wf by assumption.
    pose proof (of_decimal_wf neg s e Hwf) as Hback.
    apply wf_number_significant in Hwf.
    set (ds := decimal (Npos s)) in *.
    set (n := (e + Z.of_nat (List.length ds))%Z) in *.
    unfold parse_number. destruct neg.
    + rewrite <- app_assoc. change (js "-" ++ ?x) with (45 :: x).
      rewrite starts_same. rewrite <- Hback. now apply parse_unsigned_printed.
    + simpl app.
      destruct (digits_to_string_head ds n Hwf) as (c & t & E & Hc).
      apply digit_codes in Hc.
      assert (H : starts 45 (digits_to_string ds n ++ rest) = None).
      { rewrite E. apply starts_other. lia. }
      rewrite H, <- Hback. now apply parse_unsigned_printed.
Qed.


(** *** Strings *)

Lemma hex_value_digit x : x < 16 -> hex_value (hex_digit x) = Some x.
Proof.
  intros Hx. unfold hex_digit, hex_value.
  destruct (N.ltb_spec x 10).
  - replace ((48 <=? 48 + x) && (48 + x <=? 57)) with true.
    + f_equal. lia.
    + symmetry. apply andb_true_iff. split; apply N.leb_le; lia.
  - replace ((48 <=? 87 + x) && (87 + x <=? 57)) with false.
    + replace ((97 <=? 87 + x) && (87 + x <=? 102)) with true.
      * f_equal. lia.
      * symmetry. apply andb_true_iff. split; apply N.leb_le; lia.
    + symmetry. apply andb_false_iff. right. apply N.leb_gt. lia.
Qed.

Lemma hex_recombine c :
  c < 65536 ->
  (c / 4096) mod 16 * 4096 + (c / 256) mod 16 * 256 + (c / 16) mod 16 * 16
  + c mod 16 = c.
Proof.
  intros Hc.
  pose proof (N.div_mod c 16 ltac:(discriminate)) as E1.
  pose proof (N.div_mod (c / 16) 16 ltac:(discriminate)) as E2.
  pose proof (N.div_mod (c / 256) 16 ltac:(discriminate)) as E3.
  rewrite N.Div0.div_div in E2. change (16 * 16) with 256 in E2.
  replace (c / 256 / 16) with (c / 4096) in E3
    by (rewrite N.Div0.div_div; reflexivity).
  assert (E4 : (c / 4096) mod 16 = c / 4096).
  { apply N.mod_small. apply N.Div0.div_lt_upper_bound. exact Hc. }
  rewrite E4. 
  set (a := c / 4096) in *. set (b := (c / 256) mod 16) in *.
  set (d := (c / 16) mod 16) in *. set (e := c mod 16) in *.
  set (q1 := c / 16) in *. set (q2 := c / 256) in *.
  lia.
Qed.

Lemma hex4_escape c :
  c < 65536 ->
  hex4 (hex_digit (c / 4096 mod 16)) (hex_digit (c / 256 mod 16))
       (hex_digit (c / 16 mod 16)) (hex_digit (c mod 16)) = Some c.
Proof.
  intros Hc. unfold hex4.
  rewrite !hex_value_digit by (apply N.mod_lt; discriminate).
  f_equal. now apply hex_recombine.
Qed.

Lemma parse_unicode_escape c s body r :
  c < 65536 ->
  parse_string_body s = Some (body, r) ->
  parse_string_body (unicode_escape c ++ s) = Some (c :: body, r).
Proof.
  intros Hc Hs. unfold unicode_escape. simpl.
  rewrite hex4_escape by assumption. now rewrite Hs.
Qed.

Lemma parse_raw_unit c s body r :
  c <> 34 -> c <> 92 -> 32 <= c ->
  parse_string_body s = Some (body, r) ->
  parse_string_body (c :: s) = Some (c :: body, r).
Proof.
  intros H1 H2 H3 Hs. simpl.
  apply N.eqb_neq in H1, H2. rewrite H1, H2.
  replace (c <? 32) with false by (symmetry; apply N.ltb_ge; lia).
  now rewrite Hs.
Qed.

Lemma surrogate_range c :
  is_leading_surrogate c || is_trailing_surrogate c = true ->
  55296 <= c <= 57343.
Proof.
  unfold is_leading_surrogate, is_trailing_surrogate. intros H.
  apply orb_true_iff in H. destruct H as [H|H];
    apply andb_true_iff in H; destruct H as [H1 H2];
    apply N.leb_le in H1, H2; lia.
Qed.

Lemma parse_quote_unit c s body r :
  parse_string_body s = Some (body, r) ->
  parse_string_body (quote_unit c ++ s) = Some (c :: body, r).
Proof.
  intros Hs. unfold quote_unit.
  repeat match goal with
         | |- context [if ?k =? ?n then _ else _] =>
             destruct (N.eqb_spec k n) as [->|?];
             [simpl; now rewrite Hs|]
         end.
  destruct ((c <? 32) || is_leading_surrogate c || is_trailing_surrogate c) eqn:E.
  - apply parse_unicode_escape; [|assumption].
    rewrite <- orb_assoc in E. apply orb_true_iff in E. destruct E as [E|E].
    + apply N.ltb_lt in E. lia.
    + apply surrogate_range in E. lia.
  - apply orb_false_iff in E. destruct E as [E _].
    apply orb_false_iff in E. destruct E as [E _]. apply N.ltb_ge in E.
    now apply parse_raw_unit.
Qed.

Lemma parse_quote_units s rest :
  parse_string_body (quote_units s ++ 34 :: rest) = Some (s, rest).
Proof.
  remember (List.length s) as n eqn:Hn.
  revert s Hn. induction n as [n IH] using lt_wf_ind. intros s Hn.
  destruct s as [|c s]; [reflexivity|].
  simpl quote_units.
  destruct (is_leading_surrogate c) eqn:Hlead.
  - assert (Hc : 55296 <= c <= 56319).
    { unfold is_leading_surrogate in Hlead. apply andb_true_iff in Hlead.
      destruct Hlead as [H1 H2]. apply N.leb_le in H1, H2. lia. }
    destruct s as [|d s].
    + apply parse_unicode_escape; [lia|reflexivity].
    + destruct (is_trailing_surrogate d) eqn:Htrail.
      * assert (Hd : 56320 <= d <= 57343).
        { unfold is_trailing_surrogate in Htrail. apply andb_true_iff in Htrail.
          destruct Htrail as [H1 H2]. apply N.leb_le in H1, H2. lia. }
        simpl app.
        apply parse_raw_unit; try lia. apply parse_raw_unit; try lia.
        apply (IH (List.length s)); [simpl in Hn; lia|reflexivity].
      * apply (parse_unicode_escape c (quote_units (d :: s) ++ 34 :: rest));
          [lia|].
        apply (IH (List.length (d :: s))); [simpl in *; lia|reflexivity].
  - rewrite <- app_assoc. apply parse_quote_unit.
    apply (IH (List.length s)); [simpl in Hn; lia|reflexivity].
Qed.

Lemma parse_quote s rest :
  starts 34 (quote s ++ rest) = Some (quote_units s ++ 34 :: rest).
Proof.
  unfold quote. rewrite <- !app_assoc. simpl. reflexivity.
Qed.

(** *** Values *)

(** Induction over values, with the hypothesis for every element of an
    array and every property of an object. *)
Lemma value_induction (P : value -> Prop) :
  P JNull ->
  (forall b, P (JBool b)) ->
  (forall x, P (JNum x)) ->
  (forall s, P (JStr s)) ->
  (forall elems, Forall P elems -> P (JArr elems)) ->
  (forall props, Forall (fun p => P (snd p)) props -> P (JObj props)) ->
  forall v, P v.
Proof.
  intros Hnull Hbool Hnum Hstr Harr Hobj.
  fix IH 1. intros [ |b|x|s|elems|props].
  - exact Hnull.
  - apply Hbool.
  - apply Hnum.
  - apply Hstr.
  - apply Harr. induction elems as [|e elems IHl]; constructor; [apply IH|exact IHl].
  - apply Hobj. induction props as [|[k e] props IHl]; constructor;
      [apply IH|exact IHl].
Qed.

Lemma wrap_head c o closing gap stepback indent partial :
  exists t, wrap (c :: o) closing gap stepback indent partial = c :: t.
Proof.
  unfold wrap. destruct partial; [|destruct (JsString.truthy gap)];
    simpl; eauto.
Qed.

Lemma serialize_number gap indent x :
  wf_number x = true -> serialize gap indent (JNum x) = number_to_string x.
Proof. destruct x; try discriminate; reflexivity. Qed.

Lemma serialize_head gap indent v :
  wf_value v = true ->
  exists c t, serialize gap indent v = c :: t /\ opens_value c.
Proof.
  unfold opens_value. intros Hwf.
  destruct v as [ |[|]|x|s|elems|props];
    [simpl|simpl|simpl|rewrite (serialize_number gap indent x Hwf)
    |simpl|simpl|simpl].
  1-3: eexists _, _; split; [reflexivity|repeat split; discriminate].
  - destruct (number_to_string_head x Hwf) as (c & t & -> & Hc).
    exists c, t. split; [reflexivity|].
    destruct Hc as [Hc| ->]; [|repeat split; discriminate].
    apply digit_codes in Hc. unfold is_json_ws.
    repeat split; try lia.
    repeat (apply orb_false_iff; split); apply N.eqb_neq; lia.
  - eexists _, _; split; [reflexivity|repeat split; discriminate].
  - destruct (wrap_head 91 [] (js "]") gap indent (indent ++ gap)
                (map (serialize gap (indent ++ gap)) elems)) as [t Ht].
    change (js "[") with [91]. rewrite Ht.
    eexists _, _; split; [reflexivity|repeat split; discriminate].
  - match goal with
    | |- context [wrap _ _ _ _ _ ?p] =>
        destruct (wrap_head 123 [] (js "}") gap indent (indent ++ gap) p) as [t Ht]
    end.
    change (js "{") with [123]. rewrite Ht.
    eexists _, _; split; [reflexivity|repeat split; discriminate].
Qed.

Lemma skip_ws_value gap indent v w rest :
  wf_value v = true -> blank w = true ->
  skip_ws (w ++ serialize gap indent v ++ rest) = serialize gap indent v ++ rest.
Proof.
  intros Hwf Hw. rewrite skip_ws_blank by assumption.
  destruct (serialize_head gap indent v Hwf) as (c & t & -> & Hc & _).
  simpl. now rewrite Hc.
Qed.

Lemma skip_ws_closing w c rest :
  blank w = true -> is_json_ws c = false ->
  skip_ws (w ++ c :: rest) = c :: rest.
Proof.
  intros Hw Hc. rewrite skip_ws_blank by assumption. now apply skip_ws_stop.
Qed.

Lemma ends_token_blank w c rest :
  blank w = true -> ends_token (c :: rest) = true ->
  ends_token (w ++ c :: rest) = true.
Proof.
  destruct w as [|d w]; [auto|]. simpl. intros Hw _.
  apply andb_true_iff in Hw. destruct Hw as [-> _].
  now rewrite !orb_true_r.
Qed.

(** The layout of [wrap]: what [SerializeJSONArray] and
    [SerializeJSONObject] put around and between the parts is a comma and
    white space. *)
Lemma wrap_layout o c gap stepback indent partial :
  partial <> [] -> blank stepback = true -> blank indent = true ->
  exists pre post,
    blank pre = true /\ blank post = true
    /\ wrap o c gap stepback indent partial
       = o ++ pre ++ join (js "," ++ pre) partial ++ post ++ c.
Proof.
  intros Hp Hs Hi. unfold wrap. destruct partial as [|p partial]; [congruence|].
  destruct (JsString.truthy gap).
  - exists (line_feed ++ indent), (line_feed ++ stepback).
    unfold blank in *. rewrite !forallb_app, Hs, Hi.
    split; [reflexivity|split; [reflexivity|]]. now rewrite <- !app_assoc.
  - exists [], []. split; [reflexivity|split; reflexivity].
Qed.

Lemma join_cons sep x y l :
  join sep (x :: y :: l) = x ++ sep ++ join sep (y :: l).
Proof. reflexivity. Qed.

Lemma parse_elements_printed gap indent pre post elems rest :
  elems <> [] ->
  forallb wf_value elems = true ->
  Forall (reads_back gap indent) elems ->
  blank pre = true -> blank post = true ->
  forall fuel,
    (fold_right (fun e n => S (weight e + n)) O elems <= fuel)%nat ->
    parse_elements fuel
      (join (js "," ++ pre) (map (serialize gap indent) elems)
       ++ post ++ 93 :: rest)
    = Some (elems, rest).
Proof.
  intros Hne Hwf Hall Hpre Hpost.
  induction elems as [|v elems IH]; [congruence|].
  intros fuel Hfuel. simpl in Hfuel. destruct fuel as [|fuel]; [lia|].
  simpl in Hwf. apply andb_true_iff in Hwf. destruct Hwf as [Hv Hwf].
  inversion Hall as [|? ? Hrv Hrest]; subst.
  destruct elems as [|v' elems].
  - simpl map. simpl join. simpl parse_elements.
    rewrite Hrv; [|apply ends_token_blank; auto|lia].
    rewrite skip_ws_closing by auto.
    rewrite starts_other, starts_same by discriminate. reflexivity.
  - simpl map. rewrite join_cons. rewrite <- !app_assoc.
    change (js "," ++ ?x) with (44 :: x).
    simpl parse_elements.
    rewrite Hrv; [|reflexivity|lia].
    rewrite skip_ws_stop, starts_same by reflexivity.
    assert (Hskip : forall x,
               skip_ws (pre ++ join (44 :: pre) (serialize gap indent v' :: map (serialize gap indent) elems) ++ x)
               = join (44 :: pre) (serialize gap indent v' :: map (serialize gap indent) elems) ++ x).
    { intros x. simpl in Hwf. apply andb_true_iff in Hwf. destruct Hwf as [Hv' _].
      destruct (map (serialize gap indent) elems) as [|y l].
      - simpl join. now apply skip_ws_value.
      - rewrite join_cons, <- !app_assoc. now apply skip_ws_value. }
    rewrite Hskip.
    change (44 :: pre) with (js "," ++ pre).
    change (serialize gap indent v' :: map (serialize gap indent) elems)
      with (map (serialize gap indent) (v' :: elems)).
    rewrite IH; [reflexivity|discriminate|assumption|assumption|].
    simpl. simpl in Hfuel. lia.
Qed.

Lemma member_text_unfold gap indent k v x :
  member_text gap indent (k, v) ++ x
  = 34 :: quote_units k
    ++ 34 :: 58 :: (if JsString.truthy gap then js " " else [])
    ++ serialize gap indent v ++ x.
Proof.
  unfold member_text, quote. simpl fst. simpl snd.
  rewrite <- !app_assoc. reflexivity.
Qed.

Lemma parse_member_printed gap indent k v x fuel :
  wf_value v = true -> reads_back gap indent v ->
  ends_token x = true -> (weight v <= fuel)%nat ->
  exists r2,
    starts 34 (member_text gap indent (k, v) ++ x) = Some r2
    /\ parse_string_body r2
       = Some (k, 58 :: (if JsString.truthy gap then js " " else [])
                  ++ serialize gap indent v ++ x)
    /\ parse_value fuel
         (skip_ws ((if JsString.truthy gap then js " " else [])
                   ++ serialize gap indent v ++ x))
       = Some (v, x).
Proof.
  intros Hwf Hrv Hx Hfuel. rewrite member_text_unfold.
  eexists. split; [apply starts_same|]. split.
  - apply parse_quote_units.
  - rewrite skip_ws_value; [now apply Hrv|assumption|].
    destruct (JsString.truthy gap); reflexivity.
Qed.

Lemma parse_members_step fuel s :
  parse_members (S fuel) s
  = match starts 34 s with
    | None => None
    | Some r =>
        match parse_string_body r with
        | None => None
        | Some (k, r0) =>
            match starts 58 (skip_ws r0) with
            | None => None
            | Some r1 =>
                match parse_value fuel (skip_ws r1) with
                | None => None
                | Some (v, r2) =>
                    match starts 44 (skip_ws r2), starts 125 (skip_ws r2) with
                    | Some r3, _ =>
                        match parse_members fuel (skip_ws r3) with
                        | Some (ms, r4) => Some ((k, v) :: ms, r4)
                        | None => None
                        end
                    | None, Some r3 => Some ([(k, v)], r3)
                    | None, None => None
                    end
                end
            end
        end
    end.
Proof. reflexivity. Qed.

Lemma parse_members_printed gap indent pre post props rest :
  props <> [] ->
  forallb (fun p => wf_value (snd p)) props = true ->
  Forall (fun p => reads_back gap indent (snd p)) props ->
  blank pre = true -> blank post = true ->
  forall fuel,
    (fold_right (fun p n => S (weight (snd p) + n)) O props <= fuel)%nat ->
    parse_members fuel
      (join (js "," ++ pre) (map (member_text gap indent) props)
       ++ post ++ 125 :: rest)
    = Some (props, rest).
Proof.
  intros Hne Hwf Hall Hpre Hpost.
  induction props as [|[k v] props IH]; [congruence|].
  intros fuel Hfuel. simpl in Hfuel. destruct fuel as [|fuel]; [lia|].
  simpl in Hwf. apply andb_true_iff in Hwf. destruct Hwf as [Hv Hwf].
  inversion Hall as [|? ? Hrv Hrest]; subst. simpl in Hrv.
  destruct props as [|[k' v'] props].
  - simpl map. simpl join.
    destruct (parse_member_printed gap indent k v (post ++ 125 :: rest) fuel)
      as (r2 & E1 & E2 & E3); auto; [now apply ends_token_blank|lia|].
    rewrite parse_members_step, E1, E2.
    rewrite skip_ws_stop, starts_same by reflexivity. rewrite E3.
    rewrite skip_ws_closing by auto.
    rewrite starts_other, starts_same by discriminate. reflexivity.
  - simpl map. rewrite join_cons. rewrite <- !app_assoc.
    change (js "," ++ ?x) with (44 :: x).
    match goal with
    | |- parse_members _ (_ ++ ?x) = _ =>
        destruct (parse_member_printed gap indent k v x fuel)
          as (r2 & E1 & E2 & E3); auto; [lia|]
    end.
    rewrite parse_members_step, E1, E2.
    rewrite skip_ws_stop, starts_same by reflexivity. rewrite E3.
    rewrite skip_ws_stop, starts_same by reflexivity.
    assert (Hskip : forall x,
               skip_ws (pre ++ join (44 :: pre)
                                 (member_text gap indent (k', v')
                                  :: map (member_text gap indent) props) ++ x)
               = join (44 :: pre)
                   (member_text gap indent (k', v')
                    :: map (member_text gap indent) props) ++ x).
    { intros x.
      destruct (map (member_text gap indent) props) as [|y l].
      - simpl join. rewrite member_text_unfold. now apply skip_ws_closing.
      - rewrite join_cons, <- !app_assoc, member_text_unfold.
        now apply skip_ws_closing. }
    rewrite Hskip.
    change (44 :: pre) with (js "," ++ pre).
    change (member_text gap indent (k', v') :: map (member_text gap indent) props)
      with (map (member_text gap indent) ((k', v') :: props)).
    rewrite IH; [reflexivity|discriminate|assumption|assumption|].
    simpl. simpl in Hfuel. lia.
Qed.

(** Building an object from members with distinct keys keeps them as they
    come. *)
Lemma set_property_fresh k v props :
  existsb (JsString.eqb k) (map fst props) = false ->
  set_property k v props = props ++ [(k, v)].
Proof.
  induction props as [|[k' v'] props IH]; simpl; [reflexivity|].
  intros H. apply orb_false_iff in H. destruct H as [-> H].
  now rewrite IH.
Qed.

Lemma existsb_snoc k keys k' :
  existsb (JsString.eqb k) (keys ++ [k'])
  = existsb (JsString.eqb k) keys || JsString.eqb k k'.
Proof. rewrite existsb_app. simpl. now rewrite orb_false_r. Qed.

Lemma eqb_sym a b : JsString.eqb a b = JsString.eqb b a.
Proof.
  unfold JsString.eqb.
  destruct (list_eq_dec N.eq_dec a b), (list_eq_dec N.eq_dec b a); congruence.
Qed.

Lemma fold_set_property acc props :
  distinct (map fst (acc ++ props)) = true ->
  fold_left (fun ps kv => set_property (fst kv) (snd kv) ps) props acc
  = acc ++ props.
Proof.
  revert acc. induction props as [|[k v] props IH]; intros acc Hd; simpl.
  - now rewrite List.app_nil_r.
  - rewrite set_property_fresh.
    + rewrite IH; rewrite <- app_assoc; [reflexivity|exact Hd].
    + clear IH. induction acc as [|[k' v'] acc IHa]; simpl in *; [reflexivity|].
      apply andb_true_iff in Hd. destruct Hd as [Hk Hd].
      rewrite IHa by assumption. rewrite orb_false_r.
      apply negb_true_iff in Hk. rewrite map_app, existsb_app in Hk.
      apply orb_false_iff in Hk. destruct Hk as [_ Hk]. simpl in Hk.
      apply orb_false_iff in Hk. destruct Hk as [Hk _].
      now rewrite eqb_sym.
Qed.

Lemma object_of_distinct props :
  distinct (map fst props) = true -> object_of props = JObj props.
Proof.
  intros Hd. unfold object_of. now rewrite (fold_set_property [] props).
Qed.

Lemma parse_value_step fuel c r :
  parse_value (S fuel) (c :: r)
  = if c =? 110 then option_map (pair JNull) (expect (js "ull") r)
    else if c =? 116 then option_map (pair (JBool true)) (expect (js "rue") r)
    else if c =? 102 then option_map (pair (JBool false)) (expect (js "alse") r)
    else if c =? 34 then
      match parse_string_body r with
      | Some (str, r') => Some (JStr str, r')
      | None => None
      end
    else if c =? 91 then
      match starts 93 (skip_ws r) with
      | Some r' => Some (JArr [], r')
      | None =>
          match parse_elements fuel (skip_ws r) with
          | Some (elems, r') => Some (JArr elems, r')
          | None => None
          end
      end
    else if c =? 123 then
      match starts 125 (skip_ws r) with
      | Some r' => Some (JObj [], r')
      | None =>
          match parse_members fuel (skip_ws r) with
          | Some (members, r') => Some (object_of members, r')
          | None => None
          end
      end
    else
      match parse_number (c :: r) with
      | Some (x, r) => Some (JNum x, r)
      | None => None
      end.
Proof. reflexivity. Qed.

Lemma parse_value_number fuel x rest :
  wf_number x = true -> ends_token rest = true ->
  parse_value (S fuel) (number_to_string x ++ rest) = Some (JNum x, rest).
Proof.
  intros Hwf Hrest.
  pose proof (parse_number_printed x rest Hwf Hrest) as Hp.
  destruct (number_to_string_head x Hwf) as (c & t & E & Hc).
  rewrite E in *. simpl app in *. rewrite parse_value_step, Hp.
  assert (Hcodes : c <> 110 /\ c <> 116 /\ c <> 102 /\ c <> 34 /\ c <> 91 /\ c <> 123).
  { destruct Hc as [Hc| ->]; [apply digit_codes in Hc; lia|].
    repeat split; discriminate. }
  destruct Hcodes as (H1 & H2 & H3 & H4 & H5 & H6).
  apply N.eqb_neq in H1, H2, H3, H4, H5, H6.
  now rewrite H1, H2, H3, H4, H5, H6.
Qed.

Lemma joined_head (f : value -> jsstring) sep elems x :
  elems <> [] ->
  (forall v, In v elems -> exists c t, f v = c :: t /\ opens_value c) ->
  exists c t, join sep (map f elems) ++ x = c :: t /\ opens_value c.
Proof.
  intros Hne Hf. destruct elems as [|v elems]; [congruence|].
  destruct (Hf v (or_introl eq_refl)) as (c & t & E & Hc).
  simpl map. destruct (map f elems) as [|y l].
  - simpl. rewrite E. simpl. eauto.
  - rewrite join_cons, E. simpl. eauto.
Qed.

Lemma joined_members_head gap indent sep props x :
  props <> [] ->
  exists t, join sep (map (member_text gap indent) props) ++ x = 34 :: t.
Proof.
  intros Hne. destruct props as [|[k v] props]; [congruence|].
  simpl map. destruct (map (member_text gap indent) props) as [|y l].
  - simpl join. rewrite member_text_unfold. eauto.
  - rewrite join_cons, <- !app_assoc, member_text_unfold. eauto.
Qed.

Lemma blank_app a b : blank a = true -> blank b = true -> blank (a ++ b) = true.
Proof. unfold blank. intros Ha Hb. now rewrite forallb_app, Ha, Hb. Qed.

Lemma serialize_object gap indent props :
  serialize gap indent (JObj props)
  = wrap (js "{") (js "}") gap indent (indent ++ gap)
      (map (member_text gap (indent ++ gap)) props).
Proof. reflexivity. Qed.

(** Parsing the text of a well-formed value gives the value back. *)
Lemma parse_value_printed gap v :
  blank gap = true ->
  wf_value v = true ->
  forall indent, blank indent = true -> reads_back gap indent v.
Proof.
  intros Hgap. induction v as [ |b|x|s|elems IH|props IH] using value_induction;
    intros Hwf indent Hind fuel rest Hrest Hfuel;
    (destruct fuel as [|fuel]; [simpl in Hfuel; lia|]).
  - reflexivity.
  - destruct b; reflexivity.
  - rewrite serialize_number by exact Hwf. now apply parse_value_number.
  - simpl serialize. unfold quote. rewrite <- !app_assoc. simpl app.
    rewrite parse_value_step. simpl N.eqb. cbv iota.
    now rewrite parse_quote_units.
  - simpl serialize. simpl in Hwf.
    destruct elems as [|e elems].
    + reflexivity.
    + destruct (wrap_layout (js "[") (js "]") gap indent (indent ++ gap)
                  (map (serialize gap (indent ++ gap)) (e :: elems)))
        as (pre & post & Hpre & Hpost & ->);
        [discriminate|assumption|now apply blank_app|].
      rewrite <- !app_assoc. change (js "[" ++ ?x) with (91 :: x).
      change (js "]" ++ ?x) with (93 :: x).
      rewrite parse_value_step. simpl N.eqb. cbv iota.
      destruct (joined_head (serialize gap (indent ++ gap)) (js "," ++ pre)
                  (e :: elems) (post ++ 93 :: rest))
        as (c & t & E & Hc & Hc93 & _); [discriminate| |].
      { intros v Hv. apply serialize_head.
        rewrite forallb_forall in Hwf. now apply Hwf. }
      rewrite skip_ws_blank by assumption.
      rewrite E, skip_ws_stop, starts_other, <- E by assumption.
      rewrite parse_elements_printed; auto; [discriminate| |simpl in *; lia].
      rewrite Forall_forall in *. intros v Hv. apply IH; auto.
      rewrite forallb_forall in Hwf. now apply Hwf.
      now apply blank_app.
  - rewrite serialize_object. simpl in Hwf.
    apply andb_true_iff in Hwf. destruct Hwf as [Hkeys Hwf].
    destruct props as [|p props].
    + reflexivity.
    + destruct (wrap_layout (js "{") (js "}") gap indent (indent ++ gap)
                  (map (member_text gap (indent ++ gap)) (p :: props)))
        as (pre & post & Hpre & Hpost & ->);
        [discriminate|assumption|now apply blank_app|].
      rewrite <- !app_assoc. change (js "{" ++ ?x) with (123 :: x).
      change (js "}" ++ ?x) with (125 :: x).
      rewrite parse_value_step. simpl N.eqb. cbv iota.
      destruct (joined_members_head gap (indent ++ gap) (js "," ++ pre)
                  (p :: props) (post ++ 125 :: rest))
        as (t & E); [discriminate|].
      rewrite skip_ws_blank by assumption.
      rewrite E, skip_ws_stop, starts_other, <- E by (reflexivity || discriminate).
      rewrite parse_members_printed; auto; [|discriminate| |simpl in *; lia].
      * now rewrite object_of_distinct.
      * rewrite Forall_forall in *. intros q Hq. apply IH; auto.
        rewrite forallb_forall in Hwf. now apply Hwf.
        now apply blank_app.
Qed.

(** *** The fuel: the length of the text covers the weight of the value *)

Lemma join_weight {A} (f : A -> jsstring) (w : A -> nat) sep l :
  sep <> [] ->
  (forall a, In a l -> (w a <= List.length (f a))%nat) ->
  (fold_right (fun a n => S (w a + n)) O l
   <= S (List.length (join sep (map f l))))%nat.
Proof.
  intros Hsep Hw. induction l as [|a l IH]; [simpl; lia|].
  assert (Ha : (w a <= List.length (f a))%nat) by (apply Hw; now left).
  assert (IH' : (fold_right (fun a n => S (w a + n)) O l
                 <= S (List.length (join sep (map f l))))%nat)
    by (apply IH; intros; apply Hw; now right).
  destruct l as [|b l].
  - simpl. lia.
  - simpl map in *. rewrite join_cons, !length_app.
    destruct sep; [congruence|]. simpl in *. lia.
Qed.

Lemma wrap_weight {A} (f : A -> jsstring) (w : A -> nat)
  o c gap stepback indent l :
  (forall a, In a l -> (w a <= List.length (f a))%nat) ->
  (S (fold_right (fun a n => S (w a + n)) O l)
   <= List.length (wrap [o] [c] gap stepback indent (map f l)))%nat.
Proof.
  intros Hw. unfold wrap.
  destruct (map f l) as [|p ps] eqn:E.
  - destruct l; [simpl; lia|discriminate].
  - rewrite <- E. destruct (JsString.truthy gap).
    + pose proof (join_weight f w (js "," ++ line_feed ++ indent) l
                    ltac:(discriminate) Hw).
      simpl in *. repeat (rewrite length_app; simpl List.length). lia.
    + pose proof (join_weight f w (js ",") l ltac:(discriminate) Hw).
      simpl in *. repeat (rewrite length_app; simpl List.length). lia.
Qed.

Lemma weight_le_length gap v :
  wf_value v = true ->
  forall indent, (weight v <= List.length (serialize gap indent v))%nat.
Proof.
  induction v as [ |b|x|s|elems IH|props IH] using value_induction;
    intros Hwf indent.
  - simpl. lia.
  - destruct b; simpl; lia.
  - destruct (number_to_string_head x Hwf) as (c & t & E & _).
    rewrite serialize_number by exact Hwf. rewrite E. simpl. lia.
  - simpl. lia.
  - simpl in Hwf. rewrite forallb_forall in Hwf. rewrite Forall_forall in IH.
    apply (wrap_weight (serialize gap (indent ++ gap)) weight).
    intros e He. apply IH; auto.
  - simpl in Hwf. apply andb_true_iff in Hwf. destruct Hwf as [_ Hwf].
    rewrite forallb_forall in Hwf. rewrite Forall_forall in IH.
    rewrite serialize_object.
    apply (wrap_weight (member_text gap (indent ++ gap))
             (fun p => weight (snd p))).
    intros p Hp. unfold member_text. rewrite !length_app.
    specialize (IH p Hp (Hwf p Hp) (indent ++ gap)). lia.
Qed.

(** [JSON.parse] undoes [JSON.stringify], whatever white space the latter
    was told to indent with. *)
Lemma parse_serialize gap v :
  blank gap = true -> wf_value v = true ->
  parse (serialize gap [] v) = Some v.
Proof.
  intros Hgap Hwf. unfold parse.
  pose proof (skip_ws_value gap [] v [] [] Hwf eq_refl) as Hskip.
  simpl app in Hskip at 1. rewrite List.app_nil_r in Hskip. rewrite Hskip.
  pose proof (parse_value_printed gap v Hgap Hwf [] eq_refl
                (List.length (serialize gap [] v)) [] eq_refl
                (weight_le_length gap v Hwf [])) as Hp.
  rewrite List.app_nil_r in Hp. rewrite Hp. reflexivity.
Qed.

Lemma blank_spaces n : blank (repeat 32 n) = true.
Proof. induction n; simpl; auto. Qed.

Lemma parse_stringify_indented v n :
  wf_value v = true -> parse (stringify_indented v n) = Some v.
Proof. intros Hwf. apply parse_serialize; [apply blank_spaces|assumption]. Qed.

Lemma parse_stringify v : wf_value v = true -> parse (stringify v) = Some v.
Proof. intros Hwf. now apply parse_serialize. Qed.

(** *** The text is well-formed UTF-16 *)

Lemma plain_unit c : (c <? 55296) = true ->
  is_leading_surrogate c = false /\ is_trailing_surrogate c = false.
Proof.
  intros H. apply N.ltb_lt in H.
  unfold is_leading_surrogate, is_trailing_surrogate.
  split; apply andb_false_iff; left; apply N.leb_gt; lia.
Qed.

Lemma well_formed_plain_app p s :
  plain p = true -> well_formed (p ++ s) = well_formed s.
Proof.
  unfold plain. induction p as [|c p IH]; simpl; [reflexivity|].
  intros H. apply andb_true_iff in H. destruct H as [Hc Hp].
  destruct (plain_unit c Hc) as [-> ->]. simpl. auto.
Qed.

Lemma well_formed_plain p : plain p = true -> well_formed p = true.
Proof.
  intros H. rewrite <- (List.app_nil_r p). now rewrite well_formed_plain_app.
Qed.

Lemma well_formed_app a b :
  well_formed a = true -> well_formed b = true -> well_formed (a ++ b) = true.
Proof.
  remember (List.length a) as n eqn:Hn. revert a Hn.
  induction n as [n IH] using lt_wf_ind. intros a Hn Ha Hb.
  destruct a as [|c a]; [exact Hb|]. simpl in *.
  destruct (is_leading_surrogate c).
  - destruct a as [|d a]; [discriminate|]. simpl.
    apply andb_true_iff in Ha. destruct Ha as [-> Ha]. simpl.
    apply (IH (List.length a)); auto. simpl in Hn. lia.
  - apply andb_true_iff in Ha. destruct Ha as [-> Ha]. simpl.
    apply (IH (List.length a)); auto. simpl in Hn. lia.
Qed.

Lemma plain_app a b : plain (a ++ b) = plain a && plain b.
Proof. apply forallb_app. Qed.

Lemma plain_digits ds : forallb is_digit ds = true -> plain ds = true.
Proof.
  unfold plain. rewrite !forallb_forall. intros H c Hc.
  apply H, digit_codes in Hc. apply N.ltb_lt. lia.
Qed.

Lemma plain_blank w : blank w = true -> plain w = true.
Proof.
  unfold plain, blank. rewrite !forallb_forall. intros H c Hc.
  apply H in Hc. unfold is_json_ws in Hc. apply N.ltb_lt.
  repeat (apply orb_true_iff in Hc; destruct Hc as [Hc|Hc]);
    apply N.eqb_eq in Hc; lia.
Qed.

Lemma plain_hex_digit x : x < 16 -> (hex_digit x <? 55296) = true.
Proof.
  intros H. unfold hex_digit. apply N.ltb_lt. destruct (x <? 10); lia.
Qed.

Lemma plain_unicode_escape c : plain (unicode_escape c) = true.
Proof.
  unfold unicode_escape, plain. simpl.
  rewrite !plain_hex_digit by (apply N.mod_lt; discriminate). reflexivity.
Qed.

Lemma plain_digits_to_string ds n :
  forallb is_digit ds = true -> plain (digits_to_string ds n) = true.
Proof.
  intros Hd.
  assert (Hp : plain ds = true) by now apply plain_digits.
  assert (He : forall e, plain (exponent_part e) = true).
  { intros e. unfold exponent_part. rewrite !plain_app.
    rewrite (plain_digits (decimal _)) by apply decimal_digits.
    destruct (e <? 0)%Z; reflexivity. }
  assert (Hz : forall z, plain (repeat 48 z) = true).
  { intros z. apply plain_digits, forallb_zeros. }
  unfold digits_to_string.
  destruct ((Z.of_nat (List.length ds) <=? n) && (n <=? 21))%Z.
  { now rewrite plain_app, Hp, Hz. }
  destruct ((0 <? n) && (n <=? 21))%Z.
  { rewrite !plain_app.
    rewrite (plain_digits (firstn _ ds)) by now apply forallb_firstn.
    rewrite (plain_digits (skipn _ ds)) by now apply forallb_skipn.
    reflexivity. }
  destruct ((-6 <? n) && (n <=? 0))%Z.
  { now rewrite !plain_app, Hp, Hz. }
  destruct ds as [|c [|d r]]; [reflexivity| |].
  - now rewrite plain_app, Hp, He.
  - change (c :: d :: r) with ([c] ++ d :: r) in Hp.
    rewrite plain_app in Hp. apply andb_true_iff in Hp. destruct Hp as [Hc Hr].
    now rewrite !plain_app, Hc, Hr, He.
Qed.

Lemma forallb_strip_zeros ds :
  forallb is_digit ds = true -> forallb is_digit (strip_zeros ds) = true.
Proof.
  induction ds as [|c ds IH]; simpl; [reflexivity|].
  intros H. destruct (c =? 48); [|exact H].
  apply andb_true_iff in H. now apply IH.
Qed.

Lemma forallb_rev_digits ds :
  forallb is_digit ds = true -> forallb is_digit (rev ds) = true.
Proof.
  rewrite !forallb_forall. intros H c Hc. apply H. now apply in_rev.
Qed.

(** Every Number is written in ASCII. *)
Lemma plain_number x : plain (number_to_string x) = true.
Proof.
  destruct x as [| |neg s e|neg|]; try reflexivity; [|now destruct neg].
  unfold number_to_string. rewrite plain_app, plain_digits_to_string.
  - now destruct neg.
  - apply forallb_rev_digits, forallb_strip_zeros, forallb_rev_digits,
      decimal_digits.
Qed.

Lemma well_formed_quote_unit c s :
  is_leading_surrogate c = false ->
  well_formed s = true -> well_formed (quote_unit c ++ s) = true.
Proof.
  intros Hlead Hs. unfold quote_unit.
  repeat match goal with
         | |- context [if ?k =? ?n then _ else _] =>
             destruct (N.eqb_spec k n) as [->|?]; [exact Hs|]
         end.
  rewrite Hlead, orb_false_r.
  destruct (is_trailing_surrogate c) eqn:Htrail.
  - rewrite orb_true_r. now rewrite well_formed_plain_app by apply plain_unicode_escape.
  - rewrite orb_false_r. destruct (c <? 32).
    + now rewrite well_formed_plain_app by apply plain_unicode_escape.
    + simpl. now rewrite Hlead, Htrail.
Qed.

Lemma well_formed_quote_units s rest :
  well_formed rest = true -> well_formed (quote_units s ++ rest) = true.
Proof.
  intros Hrest.
  remember (List.length s) as n eqn:Hn. revert s Hn.
  induction n as [n IH] using lt_wf_ind. intros s Hn.
  destruct s as [|c s]; [exact Hrest|].
  simpl quote_units. destruct (is_leading_surrogate c) eqn:Hlead.
  - destruct s as [|d s].
    + now rewrite well_formed_plain_app by apply plain_unicode_escape.
    + destruct (is_trailing_surrogate d) eqn:Htrail.
      * simpl. rewrite Hlead, Htrail. simpl.
        apply (IH (List.length s)); [simpl in Hn; lia|reflexivity].
      * change (well_formed (unicode_escape c ++ quote_units (d :: s) ++ rest)
                = true).
        rewrite well_formed_plain_app by apply plain_unicode_escape.
        apply (IH (List.length (d :: s))); [simpl in *; lia|reflexivity].
  - rewrite <- app_assoc. apply well_formed_quote_unit; [assumption|].
    apply (IH (List.length s)); [simpl in Hn; lia|reflexivity].
Qed.

Lemma well_formed_quote s : well_formed (quote s) = true.
Proof.
  unfold quote. simpl. now apply well_formed_quote_units.
Qed.

Lemma well_formed_join sep l :
  well_formed sep = true ->
  Forall (fun p => well_formed p = true) l ->
  well_formed (join sep l) = true.
Proof.
  intros Hsep Hl. induction l as [|x l IH]; [reflexivity|].
  inversion Hl; subst. destruct l as [|y l]; [assumption|].
  rewrite join_cons. repeat apply well_formed_app; auto.
Qed.

Lemma well_formed_wrap o c gap stepback indent partial :
  plain o = true -> plain c = true ->
  blank gap = true -> blank stepback = true -> blank indent = true ->
  Forall (fun p => well_formed p = true) partial ->
  well_formed (wrap o c gap stepback indent partial) = true.
Proof.
  intros Ho Hc Hgap Hstep Hind Hp. unfold wrap.
  assert (Hlf : plain line_feed = true) by reflexivity.
  destruct partial as [|p partial].
  - apply well_formed_plain. now rewrite plain_app, Ho, Hc.
  - destruct (JsString.truthy gap);
      repeat (apply well_formed_app);
      auto using well_formed_plain, plain_blank.
    + apply well_formed_join; [|assumption].
      apply well_formed_plain. rewrite !plain_app.
      now rewrite (plain_blank indent).
    + apply well_formed_join; [reflexivity|assumption].
Qed.

(** The text of every value is well-formed UTF-16, whatever its strings
    hold: [JSON.stringify] escapes the surrogates that stand alone. *)
Lemma well_formed_serialize gap v :
  blank gap = true ->
  forall indent, blank indent = true ->
  well_formed (serialize gap indent v) = true.
Proof.
  intros Hgap. induction v as [ |b|x|s|elems IH|props IH] using value_induction;
    intros indent Hind.
  - reflexivity.
  - destruct b; reflexivity.
  - apply well_formed_plain.
    destruct x; try reflexivity; apply plain_number.
  - apply well_formed_quote.
  - rewrite Forall_forall in IH.
    simpl serialize. apply well_formed_wrap; auto using blank_app.
    apply Forall_forall. intros p Hp. apply in_map_iff in Hp.
    destruct Hp as (e & <- & He). apply IH; auto using blank_app.
  - rewrite Forall_forall in IH.
    rewrite serialize_object. apply well_formed_wrap; auto using blank_app.
    apply Forall_forall. intros p Hp. apply in_map_iff in Hp.
    destruct Hp as (q & <- & Hq). unfold member_text.
    apply well_formed_app; [apply well_formed_quote|].
    rewrite well_formed_plain_app by reflexivity.
    rewrite well_formed_plain_app by (destruct (JsString.truthy gap); reflexivity).
    apply IH; auto using blank_app.
Qed.

Lemma well_formed_stringify_indented v n :
  well_formed (stringify_indented v n) = true.
Proof. apply well_formed_serialize; auto using blank_spaces. Qed.

(** A blob stores well-formed text as it is. *)
Lemma to_usv_well_formed s : well_formed s = true -> Blob.to_usv s = s.
Proof.
  assert (H : forall n s, (List.length s <= n)%nat ->
                well_formed s = true -> Blob.to_usv s = s).
  { clear s. induction n as [|n IH]; intros [|c s] Hn Hw; try reflexivity.
    - simpl in Hn. lia.
    - simpl in *. destruct (is_leading_surrogate c).
      + destruct s as [|d s]; [discriminate|].
        apply andb_true_iff in Hw. destruct Hw as [Hd Hw]. rewrite Hd.
        f_equal. f_equal. apply IH; [simpl in Hn; lia|exact Hw].
      + apply andb_true_iff in Hw. destruct Hw as [Hc Hw].
        apply negb_true_iff in Hc. rewrite Hc. f_equal.
        apply IH; [lia|exact Hw]. }
  apply (H (List.length s)). constructor.
Qed.

End JsonFacts.

(** ** The submit handlers and the form operations *)

Module HandlerFacts.

Ltac run_handler :=
  unfold final_state, events, outcome, run,
    try_catch_finally, try_finally, try_catch, bind, ret, throw, lift,
    prevent_default, alert, console_error, emit, gets, modify, history,
    await_axios_post, await_axios_get, await_fetch_post_json;
  simpl.

Import Scenarios Samples.

(** *** Labels *)

Lemma parse_labels_clean text :
  Forall SmartTicketGenerator.clean_label (SmartTicketGenerator.parse_labels text).
Proof.
  unfold SmartTicketGenerator.parse_labels.
  apply Forall_forall. intros l Hl.
  apply filter_In in Hl. destruct Hl as [Hin Hne].
  apply in_map_iff in Hin. destruct Hin as [piece [<- _]].
  repeat split.
  - now apply JsStringFacts.truthy_nonempty.
  - apply JsStringFacts.trim_first.
  - apply JsStringFacts.trim_final.
Qed.

(** C10.  Whatever is typed into the Labels field and whatever the form held
    before, after [handleLabelsChange] the labels of the form are the
    comma-separated pieces of the text, each trimmed, the empty ones dropped;
    so no label is empty and none starts or ends with white space.  Nothing
    else of the state changes and nothing is sent. *)
Theorem handleLabelsChange_clean_labels (text : jsstring)
  (s : SmartTicketGenerator.state) :
  let s' := final_state (SmartTicketGenerator.handleLabelsChange text) s in
  let d := SmartTicketGenerator.formData s in
  let d' := SmartTicketGenerator.formData s' in
  SmartTicketGenerator.labels d'
    = filter JsString.truthy (map trim (split 44 text))
  /\ Forall SmartTicketGenerator.clean_label (SmartTicketGenerator.labels d')
  /\ ~ In [] (SmartTicketGenerator.labels d')
  /\ SmartTicketGenerator.title d' = SmartTicketGenerator.title d
  /\ SmartTicketGenerator.description d' = SmartTicketGenerator.description d
  /\ SmartTicketGenerator.project_context d' = SmartTicketGenerator.project_context d
  /\ SmartTicketGenerator.assignee_id d' = SmartTicketGenerator.assignee_id d
  /\ SmartTicketGenerator.priority d' = SmartTicketGenerator.priority d
  /\ SmartTicketGenerator.output s' = SmartTicketGenerator.output s
  /\ events (SmartTicketGenerator.handleLabelsChange text) s = [].
Proof.
  unfold SmartTicketGenerator.handleLabelsChange, SmartTicketGenerator.setFormData.
  run_handler.
  pose proof (parse_labels_clean text) as Hclean.
  repeat split; try reflexivity; try assumption.
  intros Hin. rewrite Forall_forall in Hclean.
  destruct (Hclean [] Hin) as [Hne _]. now apply Hne.
Qed.

(** *** Load example *)

(** C7.  In the three modules that have it, [loadExample] sends nothing and
    does not fail, leaves the form holding the fixed example whatever it
    held before, and run a second time changes nothing. *)
Theorem loadExample_deterministic_pure
  (s1 : StandupModule.state) (s2 : RetroModule.state)
  (s3 : SmartTicketGenerator.state) :
  (run StandupModule.loadExample s1
     = (inr tt,
        World (StandupModule.State (js "1") StandupModule.example
                 (StandupModule.output s1) (StandupModule.loading s1)
                 (StandupModule.voiceRecording s1)) [])
   /\ final_state StandupModule.loadExample
        (final_state StandupModule.loadExample s1)
      = final_state StandupModule.loadExample s1)
  /\ (run RetroModule.loadExample s2
        = (inr tt,
           World (RetroModule.State RetroModule.example
                    (RetroModule.output s2) (RetroModule.loading s2)
                    (RetroModule.retroFormat s2)) [])
      /\ final_state RetroModule.loadExample
           (final_state RetroModule.loadExample s2)
         = final_state RetroModule.loadExample s2)
  /\ (run SmartTicketGenerator.loadExample s3
        = (inr tt,
           World (SmartTicketGenerator.State SmartTicketGenerator.example
                    (SmartTicketGenerator.output s3)
                    (SmartTicketGenerator.loading s3)
                    (SmartTicketGenerator.activeTab s3)) [])
      /\ final_state SmartTicketGenerator.loadExample
           (final_state SmartTicketGenerator.loadExample s3)
         = final_state SmartTicketGenerator.loadExample s3).
Proof.
  repeat split; reflexivity.
Qed.

(** *** Submission *)

Ltac split_cases :=
  repeat match goal with
         | |- context [match ?x with _ => _ end] => destruct x eqn:?; simpl
         end.

Ltac case_reply :=
  match goal with
  | |- context [match axios_post ?n ?t ?u ?b with _ => _ end] =>
      destruct (axios_post n t u b) eqn:?
  | |- context [match fetch ?n ?t ?u ?b with _ => _ end] =>
      destruct (fetch n t u b) eqn:?
  end.

Ltac case_guard :=
  match goal with
  | |- context [JsString.truthy ?x] => destruct (JsString.truthy x) eqn:?
  end.

Ltac unfold_submit :=
  unfold StandupModule.handleSubmit, StandupModule.setLoading, StandupModule.setOutput,
    RetroModule.handleSubmit, RetroModule.setLoading, RetroModule.setOutput,
    BlockersModule.handleSubmit, BlockersModule.setLoading, BlockersModule.setOutput,
    SmartTicketGenerator.handleSubmit, SmartTicketGenerator.setLoading,
    SmartTicketGenerator.setOutput;
  run_handler.

(** C4.  When the request of a submission succeeds, the module's result
    becomes exactly the body received ([response.data], or what
    [response.json()] gave), whatever result was stored before; the form is
    untouched and the loading flag is down.  This holds for each module by
    itself, whatever the network does with the requests of the others. *)
Theorem successful_submit_stores_body (BACKEND_URL : jsstring) :
  (forall (net : network) (s : StandupModule.state) (d : value),
     StandupModule.team_member_id (StandupModule.input s) <> [] ->
     axios_post net [PreventDefault; SetLoading true]
       (Config.API BACKEND_URL ++ js "/standup")
       (StandupModule.body (StandupModule.input s)) = inr d ->
     final_state (StandupModule.handleSubmit BACKEND_URL net) s
     = StandupModule.State (StandupModule.selectedMember s)
         (StandupModule.input s) (Some d) false
         (StandupModule.voiceRecording s))
  /\ (forall (net : network) (s : RetroModule.state) (d : value),
        axios_post net [PreventDefault; SetLoading true]
          (Config.API BACKEND_URL ++ js "/retrospective")
          (RetroModule.body (RetroModule.input s)) = inr d ->
        final_state (RetroModule.handleSubmit BACKEND_URL net) s
        = RetroModule.State (RetroModule.input s) (Some d) false
            (RetroModule.retroFormat s))
  /\ (forall (net : network) (s : BlockersModule.state) (d : value),
        axios_post net [PreventDefault; SetLoading true]
          (Config.API BACKEND_URL ++ js "/blockers")
          (BlockersModule.body (BlockersModule.input s)) = inr d ->
        final_state (BlockersModule.handleSubmit BACKEND_URL net) s
        = BlockersModule.State (BlockersModule.input s) (Some d) false
            (BlockersModule.autoScan s))
  /\ (forall (net : network) (s : SmartTicketGenerator.state)
        (resp : response) (d : value),
        SmartTicketGenerator.description (SmartTicketGenerator.formData s) <> [] ->
        fetch net [PreventDefault; SetLoading true]
          (BACKEND_URL ++ js "/ticket")
          (stringify (SmartTicketGenerator.body (SmartTicketGenerator.formData s)))
        = inr resp ->
        ok resp = true ->
        json resp = inr d ->
        final_state (SmartTicketGenerator.handleSubmit BACKEND_URL net) s
        = SmartTicketGenerator.State (SmartTicketGenerator.formData s) (Some d)
            false (SmartTicketGenerator.activeTab s)).
Proof.
  repeat split.
  - intros net s d G H. apply JsStringFacts.truthy_nonempty in G.
    unfold_submit. rewrite G. simpl. now rewrite H.
  - intros net s d H. unfold_submit. now rewrite H.
  - intros net s d H. unfold_submit. now rewrite H.
  - intros net s resp d G H K J. apply JsStringFacts.truthy_nonempty in G.
    unfold_submit. rewrite G. simpl. rewrite H. simpl. rewrite K, J. reflexivity.
Qed.

Lemma successful_submit_stores_body_witness :
  StandupModule.output
    (final_state
       (StandupModule.handleSubmit [] (answering_only (js "/api/standup") JNull))
       standup_filled)
  = Some JNull
  /\ RetroModule.output
       (final_state
          (RetroModule.handleSubmit []
             (answering_only (js "/api/retrospective") (JBool true)))
          retro_filled)
     = Some (JBool true)
  /\ BlockersModule.output
       (final_state
          (BlockersModule.handleSubmit []
             (answering_only (js "/api/blockers") sample_report))
          blockers_filled)
     = Some sample_report
  /\ SmartTicketGenerator.output
       (final_state
          (SmartTicketGenerator.handleSubmit []
             (answering_only (js "/ticket") sample_result))
          ticket_filled)
     = Some sample_result.
Proof.
  destruct (successful_submit_stores_body []) as (T1 & T2 & T3 & T4).
  rewrite (T1 (answering_only (js "/api/standup") JNull) standup_filled JNull
             ltac:(discriminate) eq_refl).
  rewrite (T2 (answering_only (js "/api/retrospective") (JBool true))
             retro_filled (JBool true) eq_refl).
  rewrite (T3 (answering_only (js "/api/blockers") sample_report)
             blockers_filled sample_report eq_refl).
  rewrite (T4 (answering_only (js "/ticket") sample_result) ticket_filled
             (Response true (inr sample_result)) sample_result
             ltac:(discriminate) eq_refl eq_refl eq_refl).
  repeat split.
Defined.

(** C3.  When the request of a submission fails (for [axios], a rejection,
    which covers both no connection and a status outside 2xx; for [fetch], a
    rejection, a response that is not [ok], or a body that does not parse),
    the module's result is what it was before the call and [setOutput] is
    never called.  This holds for each module by itself, whatever the
    network does with the requests of the others. *)
Theorem failed_submit_keeps_output (BACKEND_URL : jsstring) :
  (forall (net : network) (s : StandupModule.state),
     failed (axios_post net [PreventDefault; SetLoading true]
               (Config.API BACKEND_URL ++ js "/standup")
               (StandupModule.body (StandupModule.input s))) ->
     StandupModule.output (final_state (StandupModule.handleSubmit BACKEND_URL net) s)
     = StandupModule.output s
     /\ existsb is_set_output
          (events (StandupModule.handleSubmit BACKEND_URL net) s) = false)
  /\ (forall (net : network) (s : RetroModule.state),
        failed (axios_post net [PreventDefault; SetLoading true]
                  (Config.API BACKEND_URL ++ js "/retrospective")
                  (RetroModule.body (RetroModule.input s))) ->
        RetroModule.output (final_state (RetroModule.handleSubmit BACKEND_URL net) s)
        = RetroModule.output s
        /\ existsb is_set_output
             (events (RetroModule.handleSubmit BACKEND_URL net) s) = false)
  /\ (forall (net : network) (s : BlockersModule.state),
        failed (axios_post net [PreventDefault; SetLoading true]
                  (Config.API BACKEND_URL ++ js "/blockers")
                  (BlockersModule.body (BlockersModule.input s))) ->
        BlockersModule.output
          (final_state (BlockersModule.handleSubmit BACKEND_URL net) s)
        = BlockersModule.output s
        /\ existsb is_set_output
             (events (BlockersModule.handleSubmit BACKEND_URL net) s) = false)
  /\ (forall (net : network) (s : SmartTicketGenerator.state),
        fetch_failed
          (fetch net [PreventDefault; SetLoading true]
             (BACKEND_URL ++ js "/ticket")
             (stringify (SmartTicketGenerator.body
                           (SmartTicketGenerator.formData s)))) ->
        SmartTicketGenerator.output
          (final_state (SmartTicketGenerator.handleSubmit BACKEND_URL net) s)
        = SmartTicketGenerator.output s
        /\ existsb is_set_output
             (events (SmartTicketGenerator.handleSubmit BACKEND_URL net) s) = false).
Proof.
  unfold failed, fetch_failed.
  split; [|split; [|split]]; intros net s H; revert H; unfold_submit; intros H.
  - case_guard; simpl; [|split; reflexivity].
    case_reply; simpl; [split; reflexivity|contradiction].
  - case_reply; simpl; [split; reflexivity|contradiction].
  - case_reply; simpl; [split; reflexivity|contradiction].
  - case_guard; simpl; [|split; reflexivity].
    case_reply; simpl; [split; reflexivity|].
    destruct H as [H|H].
    + rewrite H. simpl. destruct (json _) as [e|v]; simpl; [split; reflexivity|].
      destruct (get v _) as [e|detail]; simpl; [split; reflexivity|].
      destruct (truthy detail); simpl; [|split; reflexivity].
      destruct (to_string_opt detail); split; reflexivity.
    + destruct (json _) as [e|v]; [|contradiction].
      destruct (ok _); split; reflexivity.
Qed.

Lemma failed_submit_keeps_output_witness :
  StandupModule.output
    (final_state
       (StandupModule.handleSubmit [] (failing_only (js "/api/standup") JNull))
       standup_filled)
  = Some (JStr (js "earlier"))
  /\ BlockersModule.output
       (final_state
          (BlockersModule.handleSubmit []
             (failing_only (js "/api/blockers") JNull))
          blockers_filled)
     = BlockersModule.output blockers_filled
  /\ SmartTicketGenerator.output
       (final_state
          (SmartTicketGenerator.handleSubmit []
             (failing_with (JObj [(js "detail", JStr (js "quota exceeded"))])))
          ticket_filled)
     = Some (JStr (js "earlier")).
Proof.
  destruct (failed_submit_keeps_output []) as (T1 & _ & T3 & T4).
  destruct (T1 (failing_only (js "/api/standup") JNull) standup_filled I)
    as [E1 _].
  destruct (T3 (failing_only (js "/api/blockers") JNull) blockers_filled I)
    as [E3 _].
  destruct (T4 (failing_with (JObj [(js "detail", JStr (js "quota exceeded"))]))
              ticket_filled (or_introl eq_refl))
    as [E4 _].
  rewrite E1, E3, E4. repeat split.
Defined.

(** *** Validation *)







End HandlerFacts.

(** ** Export *)

Module ExportFacts.

Import HandlerFacts Scenarios Samples.

Ltac unfold_export :=
  unfold ExportButton.handleExport, ExportButton.download;
  with_strategy opaque [Blob.to_usv Blob.type_of stringify_indented
                        Json.to_string_opt Json.get Json.truthy]
    run_handler.

Ltac tidy_export :=
  with_strategy opaque [Blob.to_usv Blob.type_of stringify_indented
                        Json.to_string_opt Json.get Json.truthy]
    (simpl in *).

(** The blob of the JSON export holds the text and the type it was made
    from. *)
Lemma json_blob data :
  CreateObjectURL (Blob.to_usv (stringify_indented data 2))
                  (Blob.type_of (js "application/json"))
  = CreateObjectURL (stringify_indented data 2) (js "application/json").
Proof.
  rewrite JsonFacts.to_usv_well_formed
    by apply JsonFacts.well_formed_stringify_indented.
  reflexivity.
Qed.

(** C2, as amended.  When the result carries no identifier ([data.id] is
    absent, or falsy), the export does not fail whatever the format asked
    for: nothing is requested, nothing is logged, and the handler falls back
    to the JSON export, downloading [<filename>.json] with the result
    pretty-printed by [JSON.stringify(data, null, 2)] and the type
    [application/json]. *)
Theorem export_without_id_downloads_json (BACKEND_URL : jsstring)
  (net : network) (data : value) (filename format : jsstring)
  (id : option value)
  (Hid : get data (js "id") = inr id)
  (Hfalsy : truthy id = false) :
  run (ExportButton.handleExport BACKEND_URL net data filename format) tt
  = (inr tt,
     World tt [CreateObjectURL (stringify_indented data 2) (js "application/json");
               AnchorClick (filename ++ js ".json");
               RevokeObjectURL]).
Proof.
  unfold_export. rewrite Hid. tidy_export. rewrite Hfalsy. tidy_export.
  now rewrite json_blob.
Qed.

Lemma export_without_id_downloads_json_witness :
  events (ExportButton.handleExport [] offline
            (JObj [(js "summary", JStr (js "ok"))])
            (js "standup-summary") (js "jira")) tt
  = [CreateObjectURL
       (stringify_indented (JObj [(js "summary", JStr (js "ok"))]) 2)
       (js "application/json");
     AnchorClick (js "standup-summary.json");
     RevokeObjectURL].
Proof.
  unfold events.
  rewrite (export_without_id_downloads_json [] offline
             (JObj [(js "summary", JStr (js "ok"))])
             (js "standup-summary") (js "jira") None);
    reflexivity.
Defined.

(** C2, as the specification states it, fails: exporting a result without
    identifier as "jira" raises no error and does produce a file. *)
Lemma export_jira_without_id_produces_file :
  ~ refuses_export
      (events (ExportButton.handleExport [] offline
                 (JObj [(js "summary", JStr (js "ok"))])
                 (js "standup-summary") (js "jira")) tt).
Proof.
  intros (Herr & _ & Hfile). discriminate Hfile.
Qed.

(** C6, as amended.  Exporting a result as "json" downloads, as
    [<filename>.json] and with type [application/json], the text
    [JSON.stringify(data, null, 2)], without asking the network; the blob
    holds that text unchanged; and when every Number in the result is finite
    and none is the negative zero, [JSON.parse] of that text is the result
    itself.  The result is any value other than [null] (the button is only
    shown for a result that is there). *)
Theorem export_json_round_trip (BACKEND_URL : jsstring) (net : network)
  (data : value) (filename : jsstring)
  (Hdata : data <> JNull)
  (Hwf : wf_value data = true) :
  exists content,
    events (ExportButton.handleExport BACKEND_URL net data filename (js "json")) tt
    = [CreateObjectURL content (js "application/json");
       AnchorClick (filename ++ js ".json");
       RevokeObjectURL]
    /\ content = stringify_indented data 2
    /\ well_formed content = true
    /\ parse content = Some data.
Proof.
  exists (stringify_indented data 2).
  split; [|split; [reflexivity|split]];
    [|now apply JsonFacts.well_formed_stringify_indented
     |now apply JsonFacts.parse_stringify_indented].
  unfold_export.
  destruct (get data (js "id")) as [e|id] eqn:Hid;
    [destruct data; try discriminate Hid; congruence|].
  tidy_export. rewrite andb_false_r. tidy_export. now rewrite json_blob.
Qed.

Lemma export_json_round_trip_witness :
  parse (stringify_indented sample_result 2) = Some sample_result
  /\ hd_error
       (events (ExportButton.handleExport [] offline sample_result
                  (js "standup-summary") (js "json")) tt)
     = Some (CreateObjectURL (stringify_indented sample_result 2)
               (js "application/json")).
Proof.
  destruct (export_json_round_trip [] offline sample_result (js "standup-summary"))
    as (content & Hev & -> & _ & Hparse).
  - discriminate.
  - reflexivity.
  - split; [exact Hparse|]. rewrite Hev. reflexivity.
Defined.

(** C6, as the specification states it, fails.  A body in which a number is
    too large for a double, such as [{"velocity":1e999}], is read as a
    result holding [Infinity]; [JSON.stringify] writes [null] in its place,
    so the exported file reads back as another value. *)
Lemma export_json_loses_infinity :
  parse overflowing_body = Some overflowing_result
  /\ exists content,
       events (ExportButton.handleExport [] offline overflowing_result
                 (js "retrospective") (js "json")) tt
       = [CreateObjectURL content (js "application/json");
          AnchorClick (js "retrospective.json");
          RevokeObjectURL]
       /\ parse content = Some (JObj [(js "velocity", JNull)])
       /\ parse content <> Some overflowing_result.
Proof.
  split; [reflexivity|].
  eexists. split; [reflexivity|].
  split; [reflexivity|discriminate].
Qed.

(** With an identifier that has a text and a format other than "json" the
    handler does request the export from the backend. *)
Lemma export_with_id_requests (BACKEND_URL : jsstring) (net : network)
  (data : value) (filename format : jsstring) (id : value) (id_text : jsstring) :
  get data (js "id") = inr (Some id) ->
  truthy (Some id) = true ->
  to_string id = inr id_text ->
  format <> js "json" ->
  hd_error (events (ExportButton.handleExport BACKEND_URL net data filename format) tt)
  = Some (AxiosGet (Config.API BACKEND_URL ++ js "/export/"
                    ++ ExportButton.module_of filename ++ js "/"
                    ++ id_text ++ js "?format=" ++ format)).
Proof.
  intros Hid Ht Hs Hf. apply JsStringFacts.eqb_neq in Hf.
  change (to_string_opt (Some id) = inr id_text) in Hs.
  unfold_export. rewrite Hid. tidy_export. rewrite Ht, Hf. tidy_export.
  rewrite Hs. tidy_export.
  destruct (axios_get _ _ _) as [e|d]; tidy_export; [reflexivity|].
  destruct (get d (js "content")) as [e|c]; tidy_export; [reflexivity|].
  destruct (get d (js "content_type")) as [e|t]; tidy_export; [reflexivity|].
  destruct (to_string_opt c); tidy_export; [reflexivity|].
  destruct (truthy t); tidy_export; [|reflexivity].
  destruct (to_string_opt t); reflexivity.
Qed.

End ExportFacts.

(** ** The view router *)

Module AppFacts.

Lemma notice_tabs tab :
  App.is_module (App.renderActiveModule tab) = false
  <-> In tab [js "sprint"; js "insights"; js "integrations"].
Proof.
  unfold App.renderActiveModule.
  repeat match goal with
         | |- context [JsString.eqb tab ?k] =>
             let E := fresh "E" in
             destruct (JsString.eqb tab k) eqn:E;
             [apply JsStringFacts.eqb_eq in E; subst tab
             |apply JsStringFacts.eqb_neq in E]
         end;
    simpl; split; intros H; try discriminate; auto;
    repeat (destruct H as [H|H]; try discriminate H; try congruence);
    try contradiction.
Qed.

Lemma unknown_tab_is_dashboard tab :
  ~ In tab (map App.id App.menuItems) ->
  App.renderActiveModule tab = App.DashboardElement.
Proof.
  intros Hn. unfold App.renderActiveModule.
  repeat match goal with
         | |- context [JsString.eqb tab ?k] =>
             let E := fresh "E" in
             destruct (JsString.eqb tab k) eqn:E;
             [apply JsStringFacts.eqb_eq in E; subst tab;
              exfalso; apply Hn; simpl; tauto
             |]
         end.
  reflexivity.
Qed.

(** C9.  The tabs are the eight identifiers of the sidebar, and
    [renderActiveModule] sends each of them to exactly one element: the
    Dashboard, Standup, Ticket, Retrospective and Blockers components for
    their tabs, a fixed notice for "sprint", "insights" and "integrations",
    and for those three only.  It is total: any other string, like the
    initial tab, shows the Dashboard. *)
Theorem renderActiveModule_total_mapping :
  map App.id App.menuItems
  = [js "dashboard"; js "standup"; js "sprint"; js "ticket"; js "retro";
     js "blockers"; js "insights"; js "integrations"]
  /\ map (fun m => App.renderActiveModule (App.id m)) App.menuItems
     = [App.DashboardElement;
        App.StandupElement;
        App.ConstructionNotice
          ([9889] ++ js " Advanced Sprint Planner - Implementation in Progress");
        App.TicketElement;
        App.RetroElement;
        App.BlockersElement;
        App.ConstructionNotice
          ([55358; 56800] ++ js " AI Insights Dashboard - Implementation in Progress");
        App.ConstructionNotice
          ([55357; 56599] ++ js " Enterprise Integrations - Implementation in Progress")]
  /\ (forall tab,
        App.is_module (App.renderActiveModule tab) = false
        <-> In tab [js "sprint"; js "insights"; js "integrations"])
  /\ (forall tab,
        ~ In tab (map App.id App.menuItems) ->
        App.renderActiveModule tab = App.DashboardElement)
  /\ App.renderActiveModule App.initial_tab = App.DashboardElement.
Proof.
  split; [reflexivity|].
  split; [reflexivity|].
  split; [exact notice_tabs|].
  split; [exact unknown_tab_is_dashboard|reflexivity].
Qed.

Lemma renderActiveModule_total_mapping_witness :
  App.renderActiveModule (js "settings") = App.DashboardElement
  /\ App.is_module (App.renderActiveModule (js "sprint")) = false.
Proof.
  destruct renderActiveModule_total_mapping as (_ & _ & Hn & Hu & _).
  split.
  - apply Hu. simpl. intros H.
    repeat (destruct H as [H|H]; [discriminate H|]). exact H.
  - apply Hn. simpl. auto.
Defined.

End AppFacts.

(** ** The dashboard's polling *)

Module DashboardFacts.

Import Dashboard.

Section Polling.
Variable BACKEND_URL : jsstring.

Abbreviation metrics_url := (Dashboard.metrics_url BACKEND_URL).
Abbreviation insights_url := (Dashboard.insights_url BACKEND_URL).
Abbreviation step := (Dashboard.step BACKEND_URL).
Abbreviation run := (Dashboard.run BACKEND_URL).
Abbreviation fetchDashboardData := (Dashboard.fetchDashboardData BACKEND_URL).

Lemma urls_differ : JsString.eqb insights_url metrics_url = false.
Proof.
  apply JsStringFacts.eqb_neq. unfold Dashboard.insights_url, Dashboard.metrics_url.
  intros H. apply app_inv_head in H. discriminate H.
Qed.

Lemma urls_differ' : JsString.eqb metrics_url insights_url = false.
Proof.
  apply JsStringFacts.eqb_neq. unfold Dashboard.insights_url, Dashboard.metrics_url.
  intros H. apply app_inv_head in H. discriminate H.
Qed.

Lemma times_of_app u l l' :
  times_of u (l ++ l') = times_of u l ++ times_of u l'.
Proof. unfold times_of. now rewrite filter_app, map_app. Qed.

Lemma times_of_console u l t label e :
  times_of u (l ++ [(t, ConsoleError label e)]) = times_of u l.
Proof. rewrite times_of_app. unfold times_of at 2. simpl. apply List.app_nil_r. Qed.

Lemma requests_app l l' : requests (l ++ l') = requests l ++ requests l'.
Proof. unfold requests. now rewrite filter_app. Qed.

(** One call of [fetchDashboardData] sends each of the two requests once,
    now, and touches neither the timers nor the component's life. *)
Lemma fetch_log b :
  log (fetchDashboardData b)
  = log b ++ [(now b, AxiosGet metrics_url); (now b, AxiosGet insights_url)].
Proof.
  unfold Dashboard.fetchDashboardData, record. simpl.
  now rewrite <- app_assoc.
Qed.

Lemma fetch_times u b :
  u = metrics_url \/ u = insights_url ->
  times_of u (log (fetchDashboardData b)) = times_of u (log b) ++ [now b].
Proof.
  intros Hu. rewrite fetch_log, times_of_app. f_equal.
  destruct Hu as [-> | ->]; unfold times_of; simpl.
  - now rewrite JsStringFacts.eqb_refl, urls_differ.
  - now rewrite JsStringFacts.eqb_refl, urls_differ'.
Qed.

Lemma spaced_snoc gap l x :
  spaced gap l -> Forall (fun t => t + gap <= x) l -> spaced gap (l ++ [x]).
Proof.
  induction l as [|a l IH]; simpl; [auto|].
  intros Hs Hf. inversion Hf as [|? ? Ha Hl]; subst.
  destruct l as [|b l]; simpl in *.
  - auto.
  - destruct Hs as [Hab Hs]. split; [exact Hab|]. apply IH; assumption.
Qed.

Lemma invariant_mount u b :
  u = metrics_url \/ u = insights_url ->
  life b = NotMounted -> timers b = [] -> log b = [] ->
  polling_invariant u (effect BACKEND_URL b).
Proof.
  intros Hu L Ht Hlog.
  pose proof (fetch_times u b Hu) as F. rewrite Hlog in F.
  change (times_of u [] ++ [now b]) with [now b] in F.
  unfold polling_invariant, effect, setInterval, set_life.
  cbn [log life timers now next_handle].
  rewrite F.
  replace (timers (fetchDashboardData b)) with (timers b) by reflexivity.
  replace (now (fetchDashboardData b)) with (now b) by reflexivity.
  replace (next_handle (fetchDashboardData b)) with (next_handle b) by reflexivity.
  rewrite Ht. simpl. split; [exact I|].
  eexists. split; [reflexivity|]. constructor; [lia|constructor].
Qed.

Lemma invariant_fire u h b :
  u = metrics_url \/ u = insights_url ->
  polling_invariant u b -> polling_invariant u (step (Fire h) b).
Proof.
  intros Hu [Hs Hl]. simpl. unfold find_timer.
  destruct (find _ (timers b)) as [t|] eqn:Ef; [|split; assumption].
  destruct (due t <=? now b) eqn:Ed; [|split; assumption].
  apply N.leb_le in Ed.
  destruct (life b) eqn:L.
  - destruct Hl as [Ht _]. rewrite Ht in Ef. discriminate.
  - destruct Hl as (d & Ht & Hf). rewrite Ht in Ef. simpl in Ef.
    destruct (interval =? h) eqn:Eh; [|discriminate].
    injection Ef as <-. simpl in Ed.
    unfold polling_invariant, rearm.
    cbn [log life timers now next_handle].
    rewrite (fetch_times u b Hu).
    replace (timers (fetchDashboardData b)) with (timers b) by reflexivity.
    replace (now (fetchDashboardData b)) with (now b) by reflexivity.
    replace (life (fetchDashboardData b)) with (life b) by reflexivity.
    rewrite L, Ht. simpl. rewrite Eh. simpl.
    split.
    + apply spaced_snoc; [assumption|].
      eapply Forall_impl; [|exact Hf]. simpl. intros; lia.
    + eexists. split; [reflexivity|].
      apply Forall_app. split.
      * eapply Forall_impl; [|exact Hf]. simpl. intros; lia.
      * constructor; [lia|constructor].
  - rewrite Hl in Ef. discriminate.
Qed.

Lemma invariant_step u i b :
  u = metrics_url \/ u = insights_url ->
  polling_invariant u b -> polling_invariant u (step i b).
Proof.
  intros Hu Hinv. destruct i as [| |dt|h|r].
  - (* Mount *)
    destruct Hinv as [Hs Hl]. simpl.
    destruct (life b) eqn:L; try (split; [assumption|now rewrite L]).
    destruct Hl as (Ht & Hlog & _). now apply invariant_mount.
  - (* Unmount *)
    destruct Hinv as [Hs Hl]. simpl.
    destruct (life b) eqn:L; try (split; [assumption|now rewrite L]).
    destruct Hl as (d & Ht & Hf).
    unfold cleanup, clearInterval, polling_invariant. simpl.
    split; [assumption|]. rewrite Ht. simpl. now rewrite N.eqb_refl.
  - (* Elapse *)
    exact Hinv.
  - now apply invariant_fire.
  - (* Settle *)
    simpl. destruct (awaiting b) as [|n] eqn:A; [exact Hinv|].
    destruct Hinv as [Hs Hl].
    unfold fetchDashboardData_resume, setLoading, setInsights, setMetrics,
      update, record, polling_invariant.
    destruct r as [e|[m ins]]; simpl.
    + rewrite !times_of_console.
      split; [assumption|].
      destruct (life b); try assumption.
      destruct Hl as (_ & _ & Hz). congruence.
    + split; [assumption|].
      destruct (life b); try assumption.
      destruct Hl as (_ & _ & Hz). congruence.
Qed.

Lemma invariant_run u inputs b :
  u = metrics_url \/ u = insights_url ->
  polling_invariant u b -> polling_invariant u (run inputs b).
Proof.
  intros Hu. revert b. induction inputs as [|i inputs IH]; intros b Hb.
  - exact Hb.
  - simpl. apply IH. now apply invariant_step.
Qed.

(** After the cleanup nothing is ever requested again. *)
Lemma torn_down_step i b :
  life b = TornDown -> timers b = [] ->
  life (step i b) = TornDown /\ timers (step i b) = []
  /\ requests (log (step i b)) = requests (log b).
Proof.
  intros L Ht. destruct i as [| |dt|h|r]; simpl.
  - rewrite L. auto.
  - rewrite L. auto.
  - auto.
  - unfold find_timer. rewrite Ht. simpl. auto.
  - destruct (awaiting b); [auto|].
    unfold fetchDashboardData_resume, setLoading, setInsights, setMetrics,
      update, record.
    destruct r as [e|[m ins]]; simpl; rewrite ?L; simpl; auto.
    rewrite requests_app. simpl. rewrite List.app_nil_r. auto.
Qed.

Lemma torn_down_run inputs b :
  life b = TornDown -> timers b = [] ->
  requests (log (run inputs b)) = requests (log b).
Proof.
  revert b. induction inputs as [|i inputs IH]; intros b L Ht; [reflexivity|].
  simpl. destruct (torn_down_step i b L Ht) as (L' & Ht' & Hr).
  rewrite IH; assumption.
Qed.

Lemma unmount_tears_down u b :
  polling_invariant u b -> life b <> NotMounted ->
  life (step Unmount b) = TornDown /\ timers (step Unmount b) = [].
Proof.
  intros [_ Hl] Hn. simpl. destruct (life b) eqn:L.
  - congruence.
  - destruct Hl as (d & Ht & _). unfold cleanup, clearInterval. simpl.
    rewrite Ht. simpl. now rewrite N.eqb_refl.
  - rewrite L. auto.
Qed.

Lemma mounted_stays i b : life b <> NotMounted -> life (step i b) <> NotMounted.
Proof.
  intros Hn. destruct i as [| |dt|h|r]; simpl.
  - destruct (life b) eqn:L; rewrite ?L; congruence.
  - destruct (life b) eqn:L; simpl; rewrite ?L; congruence.
  - exact Hn.
  - unfold find_timer. destruct (find _ _); [|exact Hn].
    destruct (_ <=? _); exact Hn.
  - destruct (awaiting b); [exact Hn|].
    unfold fetchDashboardData_resume, setLoading, setInsights, setMetrics,
      update, record.
    destruct r as [e|[m ins]]; exact Hn.
Qed.

Lemma mounted_run inputs b : life b <> NotMounted -> life (run inputs b) <> NotMounted.
Proof.
  revert b. induction inputs as [|i inputs IH]; intros b Hn; [exact Hn|].
  simpl. apply IH. now apply mounted_stays.
Qed.

Lemma unmount_log b : log (step Unmount b) = log b.
Proof. simpl. destruct (life b); reflexivity. Qed.

Lemma run_cons i l b : run (i :: l) b = run l (step i b).
Proof. reflexivity. Qed.

Lemma run_app l l' b : run (l ++ l') b = run l' (run l b).
Proof. unfold Dashboard.run. apply fold_left_app. Qed.

End Polling.

(** A run of the dashboard: mounted at 1000 ms, its timer runs on time, is
    asked to run again too early (nothing happens), runs 5 s late, and after
    the unmount never again. *)
Example polling_sample_run :
  let b :=
    Dashboard.run [] [Mount; Settle (inr (JNull, JArr [])); Elapse 30000; Fire 7;
                      Elapse 5000; Fire 7; Elapse 30000; Fire 7;
                      Unmount; Elapse 60000; Fire 7; Mount]
      (boot 1000 7) in
  times_of (Dashboard.metrics_url []) (log b) = [1000; 31000; 66000]
  /\ times_of (Dashboard.insights_url []) (log b) = [1000; 31000; 66000]
  /\ timers b = []
  /\ view b = State (Some JNull) (JArr []) false.
Proof. repeat split. Qed.

(** C5.  Mounting the dashboard sends the two requests (metrics, then
    insights) once, at that moment.  Whatever happens afterwards -- time
    passing, the timer running its callback at or after its due time,
    responses arriving, the component being unmounted -- two successive
    requests for the metrics, and two for the insights, are at least 30000 ms
    apart; and once the component is unmounted no request is sent any
    more. *)
Theorem dashboard_polling (BACKEND_URL : jsstring) (t0 h0 : N)
  (inputs later : list input) :
  let b0 := step BACKEND_URL Mount (boot t0 h0) in
  requests (log b0)
  = [(t0, AxiosGet (metrics_url BACKEND_URL));
     (t0, AxiosGet (insights_url BACKEND_URL))]
  /\ timers b0 = [Timer h0 (t0 + 30000) 30000]
  /\ spaced 30000
       (times_of (metrics_url BACKEND_URL)
          (log (run BACKEND_URL inputs b0)))
  /\ spaced 30000
       (times_of (insights_url BACKEND_URL)
          (log (run BACKEND_URL inputs b0)))
  /\ timers (run BACKEND_URL (inputs ++ [Unmount]) b0) = []
  /\ requests (log (run BACKEND_URL (inputs ++ Unmount :: later) b0))
     = requests (log (run BACKEND_URL inputs b0)).
Proof.
  intros b0.
  assert (Hinv : forall u,
             u = metrics_url BACKEND_URL \/ u = insights_url BACKEND_URL ->
             polling_invariant u b0).
  { intros u Hu. apply (invariant_mount BACKEND_URL u (boot t0 h0) Hu);
      reflexivity. }
  assert (Hlife : life b0 <> NotMounted) by discriminate.
  split; [reflexivity|].
  split; [reflexivity|].
  split; [apply invariant_run; auto|].
  split; [apply invariant_run; auto|].
  pose proof (invariant_run BACKEND_URL _ inputs b0 (or_introl eq_refl)
                (Hinv _ (or_introl eq_refl))) as Hrun.
  pose proof (mounted_run BACKEND_URL inputs b0 Hlife) as Hm.
  destruct (unmount_tears_down BACKEND_URL _ _ Hrun Hm) as [L Ht].
  split.
  - rewrite run_app. exact Ht.
  - rewrite run_app, run_cons.
    rewrite (torn_down_run BACKEND_URL later _ L Ht).
    now rewrite unmount_log.
Qed.

End DashboardFacts.

(** ** The Labels field *)

Module LabelsFacts.

Import SmartTicketGenerator SmartTicketActions HandlerFacts Scenarios.

Lemma split_plain sep a : ~ In sep a -> split sep a = [a].
Proof.
  induction a as [|c a IH]; simpl; [reflexivity|].
  intros H. destruct (N.eqb_spec c sep) as [->|Hne]; [tauto|].
  rewrite IH by tauto. reflexivity.
Qed.

Lemma split_app_sep sep a b :
  ~ In sep a -> split sep (a ++ sep :: b) = a :: split sep b.
Proof.
  induction a as [|c a IH]; simpl.
  - now rewrite N.eqb_refl.
  - intros H. destruct (N.eqb_spec c sep) as [->|Hne]; [tauto|].
    rewrite IH by tauto. reflexivity.
Qed.

Lemma split_cons_other sep c s :
  c <> sep ->
  exists p ps, split sep s = p :: ps /\ split sep (c :: s) = (c :: p) :: ps.
Proof.
  intros Hne. simpl. apply N.eqb_neq in Hne. rewrite Hne.
  pose proof (JsStringFacts.split_nonempty sep s) as Hs.
  destruct (split sep s) as [|p ps]; [congruence|]. eauto.
Qed.

Lemma snoc_last_cons p q ps c :
  snoc_last (p :: q :: ps) c = p :: snoc_last (q :: ps) c.
Proof. reflexivity. Qed.

Lemma split_snoc_sep sep s : split sep (s ++ [sep]) = split sep s ++ [[]].
Proof.
  induction s as [|c s IH]; simpl.
  - now rewrite N.eqb_refl.
  - destruct (c =? sep); rewrite IH; [reflexivity|].
    pose proof (JsStringFacts.split_nonempty sep s) as Hs.
    destruct (split sep s); [congruence|reflexivity].
Qed.

Lemma split_snoc_other sep c s :
  c <> sep -> split sep (s ++ [c]) = snoc_last (split sep s) c.
Proof.
  intros Hne. pose proof Hne as Hb. apply N.eqb_neq in Hb.
  induction s as [|d s IH]; simpl.
  - now rewrite Hb.
  - rewrite IH.
    pose proof (JsStringFacts.split_nonempty sep s) as Hs.
    destruct (d =? sep).
    + destruct (split sep s) as [|p ps]; [congruence|reflexivity].
    + destruct (split sep s) as [|p [|q ps]]; [congruence| |]; reflexivity.
Qed.

(** White space at the end of a piece is trimmed away. *)
Lemma trimEnd_snoc q c : is_white_space c = true -> trimEnd (q ++ [c]) = trimEnd q.
Proof.
  intros Hc. unfold trimEnd. rewrite rev_app_distr. simpl. now rewrite Hc.
Qed.

Lemma trimStart_snoc p c :
  is_white_space c = true ->
  (trimStart (p ++ [c]) = [] /\ trimStart p = [])
  \/ trimStart (p ++ [c]) = trimStart p ++ [c].
Proof.
  intros Hc. induction p as [|d p IH]; simpl.
  - rewrite Hc. now left.
  - destruct (is_white_space d); [exact IH|now right].
Qed.

Lemma trim_snoc p c : is_white_space c = true -> trim (p ++ [c]) = trim p.
Proof.
  intros Hc. unfold trim.
  destruct (trimStart_snoc p c Hc) as [[-> ->]| ->]; [reflexivity|].
  now apply trimEnd_snoc.
Qed.

Lemma trim_cons c p : is_white_space c = true -> trim (c :: p) = trim p.
Proof. intros Hc. unfold trim. simpl. now rewrite Hc. Qed.

Lemma map_trim_snoc_last pieces c :
  pieces <> [] -> is_white_space c = true ->
  map trim (snoc_last pieces c) = map trim pieces.
Proof.
  intros Hne Hc. induction pieces as [|p ps IH]; [congruence|].
  destruct ps as [|q ps].
  - simpl. now rewrite trim_snoc.
  - rewrite snoc_last_cons.
    change (trim p :: map trim (snoc_last (q :: ps) c) = trim p :: map trim (q :: ps)).
    now rewrite IH by discriminate.
Qed.

(** A label that is clean is left alone by [trim]. *)
Lemma trim_clean l : clean_label l -> trim l = l.
Proof.
  intros (Hne & Hfirst & Hlast). unfold trim.
  assert (Hs : trimStart l = l).
  { destruct l as [|c t]; [congruence|]. simpl.
    now rewrite (Hfirst c eq_refl). }
  rewrite Hs. unfold trimEnd.
  assert (He : trimStart (rev l) = rev l).
  { unfold final in Hlast. destruct (rev l) as [|c t]; [reflexivity|].
    simpl. now rewrite (Hlast c eq_refl). }
  rewrite He. apply rev_involutive.
Qed.

Lemma pieces_of_joined l labels :
  Forall clean_label (l :: labels) ->
  Forall (fun l => ~ In 44 l) (l :: labels) ->
  map trim (split 44 (join (js ", ") (l :: labels))) = l :: labels.
Proof.
  revert l. induction labels as [|l' labels IH]; intros l Hc Hn;
    inversion Hc as [|? ? Hcl Hc']; inversion Hn as [|? ? Hnl Hn']; subst.
  - simpl join. rewrite split_plain by assumption. simpl.
    now rewrite trim_clean.
  - change (join (js ", ") (l :: l' :: labels))
      with (l ++ 44 :: 32 :: join (js ", ") (l' :: labels)).
    rewrite split_app_sep by assumption.
    destruct (split_cons_other 44 32 (join (js ", ") (l' :: labels)))
      as (p & ps & E1 & E2); [discriminate|].
    rewrite E2. specialize (IH l' Hc' Hn'). rewrite E1 in IH.
    simpl in IH. simpl map. rewrite trim_clean by assumption.
    rewrite trim_cons by reflexivity. now rewrite IH.
Qed.

(** X1.  What the Labels field shows is read back as the labels it was made
    from: for labels that are clean and hold no comma, splitting
    [labels.join(', ')] again gives the same list, so an edit event that
    changes nothing leaves the form as it is. *)
Theorem labels_value_parses_back (d : form_data)
  (Hclean : Forall clean_label (labels d))
  (Hcomma : Forall (fun l => ~ In 44 l) (labels d)) :
  parse_labels (labels_value d) = labels d.
Proof.
  unfold parse_labels, labels_value.
  destruct (labels d) as [|l ls] eqn:E; [reflexivity|].
  rewrite pieces_of_joined by assumption.
  apply forallb_filter_id. apply forallb_forall. intros x Hx.
  rewrite Forall_forall in Hclean. destruct (Hclean x Hx) as [Hne _].
  now apply JsStringFacts.truthy_nonempty.
Qed.

Lemma labels_value_parses_back_witness :
  parse_labels (labels_value example) = labels example.
Proof.
  apply labels_value_parses_back.
  - repeat constructor; try discriminate;
      unfold first, final; simpl; intros c [= <-]; reflexivity.
  - repeat constructor; simpl; intros H;
      repeat (destruct H as [H|H]; [discriminate H|]); exact H.
Defined.

(** X2.  A comma or a space typed at the end of the Labels field is lost:
    the labels computed from the longer text are those of the text without
    it, so the form, and with it what the field shows, is as it would be
    without that keystroke. *)
Theorem trailing_separator_is_dropped (text : jsstring) (s : state) :
  final_state (handleLabelsChange (text ++ js ",")) s
  = final_state (handleLabelsChange text) s
  /\ final_state (handleLabelsChange (text ++ js " ")) s
     = final_state (handleLabelsChange text) s.
Proof.
  assert (Hcomma : parse_labels (text ++ js ",") = parse_labels text).
  { unfold parse_labels. change (js ",") with [44].
    rewrite split_snoc_sep, map_app, filter_app. simpl.
    apply List.app_nil_r. }
  assert (Hspace : parse_labels (text ++ js " ") = parse_labels text).
  { unfold parse_labels. change (js " ") with [32].
    rewrite split_snoc_other by discriminate.
    rewrite map_trim_snoc_last;
      [reflexivity|apply JsStringFacts.split_nonempty|reflexivity]. }
  unfold handleLabelsChange. now rewrite Hcomma, Hspace.
Qed.

End LabelsFacts.

(** ** Editing the standup form during a voice recording *)

Module StandupSessionFacts.

Import StandupSession Scenarios.

(** While the timer is pending and the button disabled, nothing but the
    timer touches the snapshot or the recording flag. *)
Lemma recording_step a s snapshot :
  timer s = Some snapshot ->
  StandupModule.voiceRecording (view s) = true ->
  is_timeout a = false ->
  timer (step a s) = Some snapshot
  /\ StandupModule.voiceRecording (view (step a s)) = true
  /\ StandupModule.output (view (step a s)) = StandupModule.output (view s)
  /\ StandupModule.loading (view (step a s)) = StandupModule.loading (view s).
Proof.
  intros Ht Hv Ha. destruct a; try discriminate; simpl; auto.
  rewrite Hv. auto.
Qed.

Lemma recording_run actions s snapshot :
  timer s = Some snapshot ->
  StandupModule.voiceRecording (view s) = true ->
  forallb (fun a => negb (is_timeout a)) actions = true ->
  timer (run actions s) = Some snapshot
  /\ StandupModule.voiceRecording (view (run actions s)) = true
  /\ StandupModule.output (view (run actions s)) = StandupModule.output (view s)
  /\ StandupModule.loading (view (run actions s)) = StandupModule.loading (view s).
Proof.
  revert s. induction actions as [|a actions IH]; intros s Ht Hv Ha; [auto|].
  simpl in Ha. apply andb_true_iff in Ha. destruct Ha as [Ha Has].
  apply negb_true_iff in Ha.
  destruct (recording_step a s snapshot Ht Hv Ha) as (Ht' & Hv' & Ho & Hl).
  destruct (IH (step a s) Ht' Hv' Has) as (Ht2 & Hv2 & Ho2 & Hl2).
  simpl. rewrite <- Ho, <- Hl. auto.
Qed.

Lemma session_run_app l l' s : run (l ++ l') s = run l' (run l s).
Proof. unfold run. apply fold_left_app. Qed.

(** The member select shows the member chosen last, whether or not a
    recording is going on. *)
Lemma selected_member_run l a b :
  StandupModule.selectedMember (view a) = StandupModule.selectedMember (view b) ->
  StandupModule.voiceRecording (view a) = true ->
  forallb (fun x => negb (is_timeout x)) l = true ->
  StandupModule.selectedMember (view (run l a))
  = StandupModule.selectedMember (view (run l b)).
Proof.
  revert a b. induction l as [|x l IH]; intros a b Hab Hrec Hl; [exact Hab|].
  simpl in Hl. apply andb_true_iff in Hl. destruct Hl as [Hx Hl].
  apply negb_true_iff in Hx.
  simpl. apply IH; [| |exact Hl].
  - destruct x; try discriminate; simpl; auto.
    rewrite Hrec. destruct (StandupModule.voiceRecording (view b)); auto.
  - destruct x; try discriminate; simpl; auto. now rewrite Hrec.
Qed.

(** X3.  When the voice recording ends, the form is set to what it held when
    the recording was started, with the transcript as [yesterday]: whatever
    was typed, selected or loaded into the form in between is lost, except
    that the member select keeps showing the member chosen last. *)
Theorem voice_input_restores_snapshot (s : session)
  (edits : list action)
  (Hidle : StandupModule.voiceRecording (view s) = false)
  (Hedits : forallb (fun a => negb (is_timeout a)) edits = true) :
  let s' := run (ClickVoiceInput :: edits ++ [VoiceTimeout]) s in
  StandupModule.input (view s')
  = with_yesterday transcript (StandupModule.input (view s))
  /\ StandupModule.selectedMember (view s')
     = StandupModule.selectedMember (view (run edits s))
  /\ StandupModule.voiceRecording (view s') = false
  /\ timer s' = None.
Proof.
  intros s'. subst s'.
  change (run (ClickVoiceInput :: edits ++ [VoiceTimeout]) s)
    with (run (edits ++ [VoiceTimeout]) (step ClickVoiceInput s)).
  rewrite session_run_app.
  set (s0 := step ClickVoiceInput s).
  assert (Ht0 : timer s0 = Some (StandupModule.input (view s))).
  { unfold s0. simpl. now rewrite Hidle. }
  assert (Hv0 : StandupModule.voiceRecording (view s0) = true).
  { unfold s0. simpl. now rewrite Hidle. }
  assert (Hm0 : StandupModule.selectedMember (view s0)
                = StandupModule.selectedMember (view s)).
  { unfold s0. simpl. now rewrite Hidle. }
  destruct (recording_run edits s0 _ Ht0 Hv0 Hedits) as (Ht & Hv & _ & _).
  simpl. rewrite Ht. simpl. repeat split.
  now apply selected_member_run.
Qed.

(** Recording started before a member is chosen: the member picked and the
    plan typed during the recording are gone from the form when it ends,
    though the select still shows the member, and the submit is refused. *)
Lemma voice_input_restores_snapshot_witness :
  let s' :=
    run [ClickVoiceInput; SelectMember (js "2"); EditToday (js "will do Y");
         VoiceTimeout]
      (Session StandupModule.initial None) in
  StandupModule.selectedMember (view s') = js "2"
  /\ StandupModule.team_member_id (StandupModule.input (view s')) = []
  /\ StandupModule.today (StandupModule.input (view s')) = []
  /\ StandupModule.yesterday (StandupModule.input (view s')) = transcript
  /\ events (StandupModule.handleSubmit [] offline) (view s')
     = [PreventDefault; Alert (js "Please select a team member")].
Proof.
  destruct (voice_input_restores_snapshot (Session StandupModule.initial None)
              [SelectMember (js "2"); EditToday (js "will do Y")]
              eq_refl eq_refl) as (Hin & Hsel & _ & _).
  cbv zeta. change (ClickVoiceInput :: [SelectMember (js "2"); EditToday (js "will do Y")] ++ [VoiceTimeout])
    with [ClickVoiceInput; SelectMember (js "2"); EditToday (js "will do Y"); VoiceTimeout] in *.
  cbv zeta in Hin, Hsel.
  split; [rewrite Hsel; reflexivity|].
  unfold events, Runtime.run. rewrite !Hin.
  repeat split.
Defined.

End StandupSessionFacts.

(** ** Blockers: Run Analysis and the counters *)

Module BlockersScanFacts.

Import BlockersScan HandlerFacts Scenarios.

(** [submit_with] is the body of [handleSubmit]. *)
Lemma handleSubmit_submit_with BACKEND_URL net w :
  BlockersModule.handleSubmit BACKEND_URL net w
  = (prevent_default ;;
     input <- gets BlockersModule.input ;;
     submit_with BACKEND_URL net input) w.
Proof. reflexivity. Qed.

(** X4.  Run Analysis posts the scan parameters as they were on screen when
    the button was clicked, although it resets the form to the defaults (3
    days, both options on) in the same click: the request and the form shown
    afterwards differ whenever the form was changed.  The result, or the
    logged error, is handled as for a submit. *)
Theorem runMockAnalysis_posts_previous_input (BACKEND_URL : jsstring)
  (net : network) (s : BlockersModule.state) :
  let reply :=
    axios_post net [SetLoading true] (Config.API BACKEND_URL ++ js "/blockers")
      (BlockersModule.body (BlockersModule.input s)) in
  run (runMockAnalysis BACKEND_URL net) s
  = (inr tt,
     World
       (BlockersModule.State (BlockersModule.FormInput (num_of_N 3) true true)
          (match reply with
           | inr data => Some data
           | inl _ => BlockersModule.output s
           end)
          false (BlockersModule.autoScan s))
       ([SetLoading true;
         AxiosPost (Config.API BACKEND_URL ++ js "/blockers")
           (BlockersModule.body (BlockersModule.input s))]
        ++ match reply with
           | inr data => [SetOutput data]
           | inl e => [ConsoleError (js "Error generating blocker analysis:") e]
           end
        ++ [SetLoading false])).
Proof.
  unfold runMockAnalysis, submit_with, BlockersModule.setInput,
    BlockersModule.setLoading, BlockersModule.setOutput.
  run_handler.
  destruct (axios_post net _ _ _); reflexivity.
Qed.

(** *** The severity counters *)

(** The Number of a length is zero or truthy, so [|| 0] leaves it. *)
Lemma or_zero_count n : or_zero (Some (count_of n)) = count_of n.
Proof.
  unfold or_zero, count_of, num_of_N, make_number, of_decimal, signed_zero.
  destruct (decimal_form _ _ _) as [[ds m]|]; [|reflexivity].
  destruct (overflows ds m); [reflexivity|].
  destruct (underflows ds m); [reflexivity|].
  destruct (digits_value ds); reflexivity.
Qed.

Lemma filter_severity_filter severity alerts :
  Forall (fun a => a <> JNull) alerts ->
  filter_severity severity alerts = inr (filter (has_severity severity) alerts).
Proof.
  induction 1 as [|a alerts Ha _ IH]; [reflexivity|].
  simpl. unfold has_severity. rewrite IH.
  destruct a; try congruence; reflexivity.
Qed.

Lemma is_string_exclusive s t v :
  s <> t -> is_string s v = true -> is_string t v = false.
Proof.
  intros Hne. destruct v as [[]|]; simpl; try discriminate.
  intros H. apply JsStringFacts.eqb_eq in H. subst.
  now apply JsStringFacts.eqb_neq.
Qed.

Lemma three_way_count alerts :
  (List.length (filter (has_severity (js "Critical")) alerts)
   + List.length (filter (has_severity (js "High")) alerts)
   + List.length (filter (has_severity (js "Medium")) alerts)
   = List.length (filter counted alerts))%nat.
Proof.
  induction alerts as [|a alerts IH]; [reflexivity|].
  simpl. unfold counted, has_severity in *.
  destruct (get a (js "severity")) as [e|s]; [exact IH|].
  destruct (is_string (js "Critical") s) eqn:C.
  - rewrite (is_string_exclusive (js "Critical") (js "High") s) by (discriminate || assumption).
    rewrite (is_string_exclusive (js "Critical") (js "Medium") s) by (discriminate || assumption).
    simpl. lia.
  - destruct (is_string (js "High") s) eqn:H.
    + rewrite (is_string_exclusive (js "High") (js "Medium") s) by (discriminate || assumption).
      simpl. lia.
    + destruct (is_string (js "Medium") s); simpl; lia.
Qed.

Lemma filter_all_length {A} (f : A -> bool) l :
  List.length (filter f l) = List.length l <-> forallb f l = true.
Proof.
  induction l as [|x l IH]; simpl; [tauto|].
  pose proof (filter_length_le f l).
  destruct (f x); simpl.
  - rewrite <- IH. lia.
  - split; [lia|discriminate].
Qed.

(** X5.  When the result holds an array of alerts, none of them [null],
    each of the three counters shows the number of alerts of its own
    severity ("Critical", "High", "Medium") and the total shows the number
    of all alerts; the three counters never add up to more than the total,
    and they add up to it exactly when every alert has one of the three
    severities (an alert marked "Low" is in the total only). *)
Theorem severity_counters_partition (output : value) (alerts : list value)
  (Halerts : get output (js "alerts") = inr (Some (JArr alerts)))
  (Hnull : Forall (fun a => a <> JNull) alerts) :
  let count severity := List.length (filter (has_severity severity) alerts) in
  severity_count (js "Critical") output = inr (count_of (count (js "Critical")))
  /\ severity_count (js "High") output = inr (count_of (count (js "High")))
  /\ severity_count (js "Medium") output = inr (count_of (count (js "Medium")))
  /\ total_count output = inr (count_of (List.length alerts))
  /\ (count (js "Critical") + count (js "High") + count (js "Medium")
      <= List.length alerts)%nat
  /\ ((count (js "Critical") + count (js "High") + count (js "Medium")
       = List.length alerts)%nat
      <-> forallb counted alerts = true).
Proof.
  intros count. unfold count, severity_count, total_count. rewrite Halerts.
  rewrite !filter_severity_filter, !or_zero_count by assumption.
  repeat split; rewrite three_way_count.
  - apply filter_length_le.
  - apply filter_all_length.
  - apply filter_all_length.
Qed.

Lemma severity_counters_partition_witness :
  severity_count (js "Critical") Samples.sample_report = inr (count_of 1)
  /\ severity_count (js "High") Samples.sample_report = inr (count_of 1)
  /\ severity_count (js "Medium") Samples.sample_report = inr (count_of 0)
  /\ total_count Samples.sample_report = inr (count_of 3).
Proof.
  destruct (severity_counters_partition Samples.sample_report
              Samples.sample_alerts eq_refl)
    as (E1 & E2 & E3 & E4 & _).
  - repeat constructor; discriminate.
  - split; [exact E1|split; [exact E2|split; [exact E3|exact E4]]].
Defined.

End BlockersScanFacts.

(** ** Blockers: calls that overlap *)

Module BlockersSessionFacts.

Import BlockersSession HandlerFacts Scenarios Samples.

(** The two halves make up the body of [handleSubmit]. *)
Lemma submit_begin_resume BACKEND_URL net input s :
  Runtime.run (BlockersScan.submit_with BACKEND_URL net input) s
  = Runtime.run (submit_begin BACKEND_URL input ;;
         submit_resume
           (axios_post net [SetLoading true]
              (Config.API BACKEND_URL ++ js "/blockers")
              (BlockersModule.body input))) s.
Proof.
  unfold BlockersScan.submit_with, submit_begin, submit_resume,
    BlockersModule.setLoading, BlockersModule.setOutput.
  run_handler. destruct (axios_post net _ _ _); reflexivity.
Qed.

(** One click on Run Analysis, and the answer to the oldest request. *)
Lemma step_run_analysis BACKEND_URL p :
  step BACKEND_URL ClickRunAnalysis p
  = Page (BlockersModule.State
            (BlockersModule.FormInput (num_of_N 3) true true)
            (BlockersModule.output (view p)) true
            (BlockersModule.autoScan (view p)))
         (pending p ++ [BlockersModule.body (BlockersModule.input (view p))])
         (log p
          ++ [SetLoading true;
              AxiosPost (Config.API BACKEND_URL ++ js "/blockers")
                (BlockersModule.body (BlockersModule.input (view p)))]).
Proof.
  destruct p as [v waiting l].
  unfold step, call, advance, submit_begin, BlockersModule.setLoading,
    BlockersModule.setInput.
  run_handler. now rewrite <- !app_assoc.
Qed.

Lemma step_settle_oldest BACKEND_URL reply p request rest :
  pending p = request :: rest ->
  step BACKEND_URL (Settle 0 reply) p
  = Page (BlockersModule.State
            (BlockersModule.input (view p))
            (match reply with
             | inr data => Some data
             | inl _ => BlockersModule.output (view p)
             end)
            false
            (BlockersModule.autoScan (view p)))
         rest
         (log p
          ++ match reply with
             | inr data => [SetOutput data]
             | inl e => [ConsoleError (js "Error generating blocker analysis:") e]
             end
          ++ [SetLoading false]).
Proof.
  destruct p as [v waiting l]. simpl pending. intros ->.
  unfold step, advance, submit_resume, BlockersModule.setLoading,
    BlockersModule.setOutput.
  run_handler. destruct reply; simpl; now rewrite <- !app_assoc.
Qed.

(** C8.  The loading flag does not last as long as the call when two calls
    of [handleSubmit] overlap, which the Run Analysis button allows: it is
    never disabled.  After one click the flag is up and one request waits,
    and the answer, whatever it is, lowers the flag; the submit button of
    the form cannot start a second call meanwhile.  After a second click on
    Run Analysis two requests wait, and the answer to the first lowers the
    flag while the second request is still waiting. *)
Theorem run_analysis_overlap_lowers_flag_early (BACKEND_URL : jsstring)
  (s : BlockersModule.state) (r1 : error + value) :
  let p1 := step BACKEND_URL ClickRunAnalysis (fresh s) in
  let p2 := step BACKEND_URL ClickRunAnalysis p1 in
  let p3 := step BACKEND_URL (Settle 0 r1) p2 in
  (BlockersModule.loading (view p1) = true
   /\ pending p1 = [BlockersModule.body (BlockersModule.input s)])
  /\ (BlockersModule.loading (view (step BACKEND_URL (Settle 0 r1) p1)) = false
      /\ pending (step BACKEND_URL (Settle 0 r1) p1) = [])
  /\ step BACKEND_URL ClickSubmit p1 = p1
  /\ (BlockersModule.loading (view p2) = true
      /\ List.length (pending p2) = 2%nat)
  /\ (BlockersModule.loading (view p3) = false
      /\ pending p3
         = [BlockersModule.body
              (BlockersModule.FormInput (num_of_N 3) true true)]).
Proof.
  cbv zeta. rewrite !step_run_analysis. unfold fresh.
  repeat match goal with
         | |- context [step _ (Settle 0 r1) ?p] =>
             rewrite (step_settle_oldest BACKEND_URL r1 p _ _ eq_refl)
         end.
  repeat split.
Qed.

(** The same at the component as it is mounted, with the first request
    rejected: the flag is down and a request waits. *)
Example run_analysis_twice :
  let p := BlockersSession.run []
             [ClickRunAnalysis; ClickRunAnalysis; Settle 0 (inl NetworkError)]
             (fresh BlockersModule.initial) in
  BlockersModule.loading (view p) = false
  /\ List.length (pending p) = 1%nat
  /\ log p
     = [SetLoading true;
        AxiosPost (js "/api/blockers") (BlockersModule.body
                                          (BlockersModule.input BlockersModule.initial));
        SetLoading true;
        AxiosPost (js "/api/blockers") (BlockersModule.body
                                          (BlockersModule.input BlockersModule.initial));
        ConsoleError (js "Error generating blocker analysis:") NetworkError;
        SetLoading false].
Proof. repeat split. Qed.

End BlockersSessionFacts.

(** ** The ticket's export, copy and request body *)

Module SmartTicketActionsFacts.

Import SmartTicketActions HandlerFacts Samples Scenarios.

Ltac unfold_actions :=
  unfold exportToJira, copy_json, copyToClipboard, await_writeText, writeText,
    clipboard_writeText, await_fetch_get;
  with_strategy opaque [Json.get Json.truthy Json.to_string_opt output_of
                        stringify_indented]
    run_handler.

Ltac tidy :=
  with_strategy opaque [Json.get Json.truthy Json.to_string_opt output_of
                        stringify_indented]
    (simpl in *).

(** X6.  Export to JIRA does nothing at all without a result, and when the
    backend answers with a status outside 2xx it does nothing beyond the
    request: nothing is copied, nothing is logged and no message is shown,
    so the user cannot tell that the export failed.  The identifier is one
    that has a text (a string, a number, or none at all, which reads
    "undefined"). *)
Theorem exportToJira_silent_on_error_status (BACKEND_URL : jsstring)
  (net : network) (navigator_clipboard : option (jsstring -> option error))
  (d : desk) (result : value) (id : option value) (id_text : jsstring)
  (resp : response)
  (Hout : output_of d = Some result)
  (Htruthy : truthy (Some result) = true)
  (Hid : get result (js "id") = inr id)
  (Htext : to_string_opt id = inr id_text)
  (Hreply : fetch net []
              (BACKEND_URL ++ js "/export/ticket/" ++ id_text
               ++ js "?format=jira") [] = inr resp)
  (Hstatus : ok resp = false) :
  run (exportToJira BACKEND_URL net navigator_clipboard) d
  = (inr tt,
     World d [Fetch (BACKEND_URL ++ js "/export/ticket/" ++ id_text
                     ++ js "?format=jira") (js "GET") [] []])
  /\ forall d0, output_of d0 = None ->
       run (exportToJira BACKEND_URL net navigator_clipboard) d0
       = (inr tt, World d0 []).
Proof.
  split.
  - unfold_actions. rewrite Hout, Htruthy. tidy.
    rewrite Hid. tidy. rewrite Htext. tidy. rewrite Hreply. tidy.
    now rewrite Hstatus.
  - intros d0 H0. unfold_actions. now rewrite H0.
Qed.

Lemma exportToJira_silent_on_error_status_witness :
  events (exportToJira [] (failing_with JNull) clipboard_open) ticket_desk
  = [Fetch (js "/export/ticket/a1b2?format=jira") (js "GET") [] []]
  /\ clipboard (final_state (exportToJira [] (failing_with JNull) clipboard_open)
                  ticket_desk) = None.
Proof.
  destruct (exportToJira_silent_on_error_status [] (failing_with JNull)
              clipboard_open ticket_desk sample_result
              (Some (JStr (js "a1b2"))) (js "a1b2") (Response false (inr JNull))
              eq_refl eq_refl eq_refl eq_refl eq_refl eq_refl)
    as [E _].
  unfold events, final_state. rewrite E. split; reflexivity.
Defined.

(** X7.  When the export succeeds and the page has a clipboard, Export to
    JIRA announces "JIRA format copied to clipboard!" without waiting for
    the clipboard: the message is the same whether the browser took the
    text, refused it, or the content had no text to write, and only in the
    first case does the clipboard hold the content.  On a page without
    [navigator.clipboard] (one not served securely) the call throws: the
    error is logged and the message is "Export failed". *)
Theorem exportToJira_announces_before_copy (BACKEND_URL : jsstring)
  (net : network) (navigator_clipboard : option (jsstring -> option error))
  (d : desk) (result exportData : value) (id content : option value)
  (id_text : jsstring) (resp : response)
  (Hout : output_of d = Some result)
  (Htruthy : truthy (Some result) = true)
  (Hid : get result (js "id") = inr id)
  (Htext : to_string_opt id = inr id_text)
  (Hreply : fetch net []
              (BACKEND_URL ++ js "/export/ticket/" ++ id_text
               ++ js "?format=jira") [] = inr resp)
  (Hstatus : ok resp = true)
  (Hbody : json resp = inr exportData)
  (Hcontent : get exportData (js "content") = inr content) :
  let request :=
    Fetch (BACKEND_URL ++ js "/export/ticket/" ++ id_text ++ js "?format=jira")
          (js "GET") [] [] in
  let tr := events (exportToJira BACKEND_URL net navigator_clipboard) d in
  let d' := final_state (exportToJira BACKEND_URL net navigator_clipboard) d in
  match navigator_clipboard with
  | Some rejects =>
      tr = [request; Alert (js "JIRA format copied to clipboard!")]
      /\ clipboard d'
         = match to_string_opt content with
           | inr text =>
               match rejects text with
               | None => Some text
               | Some _ => clipboard d
               end
           | inl _ => clipboard d
           end
  | None =>
      tr = [request; ConsoleError (js "Export failed:") TypeError;
            Alert (js "Export failed")]
      /\ clipboard d' = clipboard d
  end.
Proof.
  unfold_actions. rewrite Hout, Htruthy. tidy.
  rewrite Hid. tidy. rewrite Htext. tidy. rewrite Hreply. tidy.
  rewrite Hstatus, Hbody. tidy.
  destruct navigator_clipboard as [rejects|]; tidy; [|split; reflexivity].
  rewrite Hcontent. tidy.
  destruct (to_string_opt content) as [e|text]; tidy; [split; reflexivity|].
  destruct (rejects text); split; reflexivity.
Qed.

Lemma exportToJira_announces_before_copy_witness :
  events (exportToJira []
            (answering (JObj [(js "content", JStr (js "h1. Ticket"))]))
            clipboard_denied) ticket_desk
  = [Fetch (js "/export/ticket/a1b2?format=jira") (js "GET") [] [];
     Alert (js "JIRA format copied to clipboard!")]
  /\ events (exportToJira []
               (answering (JObj [(js "content", JStr (js "h1. Ticket"))]))
               clipboard_absent) ticket_desk
     = [Fetch (js "/export/ticket/a1b2?format=jira") (js "GET") [] [];
        ConsoleError (js "Export failed:") TypeError;
        Alert (js "Export failed")].
Proof.
  split.
  - apply (exportToJira_announces_before_copy []
             (answering (JObj [(js "content", JStr (js "h1. Ticket"))]))
             clipboard_denied ticket_desk sample_result
             (JObj [(js "content", JStr (js "h1. Ticket"))])
             (Some (JStr (js "a1b2"))) (Some (JStr (js "h1. Ticket")))
             (js "a1b2")
             (Response true (inr (JObj [(js "content", JStr (js "h1. Ticket"))])))
             eq_refl eq_refl eq_refl eq_refl eq_refl eq_refl eq_refl eq_refl).
  - apply (exportToJira_announces_before_copy []
             (answering (JObj [(js "content", JStr (js "h1. Ticket"))]))
             clipboard_absent ticket_desk sample_result
             (JObj [(js "content", JStr (js "h1. Ticket"))])
             (Some (JStr (js "a1b2"))) (Some (JStr (js "h1. Ticket")))
             (js "a1b2")
             (Response true (inr (JObj [(js "content", JStr (js "h1. Ticket"))])))
             eq_refl eq_refl eq_refl eq_refl eq_refl eq_refl eq_refl eq_refl).
Defined.



Lemma ticket_body_wf (d : SmartTicketGenerator.form_data) :
  wf_value (SmartTicketGenerator.body d) = true.
Proof.
  unfold SmartTicketGenerator.body. simpl.
  induction (SmartTicketGenerator.labels d); simpl; auto.
Qed.

(** X9.  Whatever the user typed into the ticket form, the body of the
    request a submission sends is well-formed UTF-16 and valid JSON, and
    parsing it gives back exactly the object built from the form: nothing
    typed can break out of its string or add a field.  The request is the
    third thing the handler does, after [preventDefault] and raising the
    loading flag. *)
Theorem ticket_request_body_round_trip (BACKEND_URL : jsstring)
  (net : network) (s : SmartTicketGenerator.state)
  (Hdesc : SmartTicketGenerator.description (SmartTicketGenerator.formData s)
           <> []) :
  exists text,
    firstn 3 (events (SmartTicketGenerator.handleSubmit BACKEND_URL net) s)
    = [PreventDefault; SetLoading true;
       Fetch (BACKEND_URL ++ js "/ticket") (js "POST")
             (js "application/json") text]
    /\ parse text
       = Some (SmartTicketGenerator.body (SmartTicketGenerator.formData s))
    /\ well_formed text = true.
Proof.
  exists (stringify (SmartTicketGenerator.body (SmartTicketGenerator.formData s))).
  split; [|split].
  - apply JsStringFacts.truthy_nonempty in Hdesc.
    unfold_submit. rewrite Hdesc. simpl.
    destruct (fetch net _ _ _) as [e|[okay [e|body]]]; simpl;
      [reflexivity|destruct okay; reflexivity|].
    destruct okay; simpl; [reflexivity|].
    destruct (get body (js "detail")) as [e|detail]; simpl; [reflexivity|].
    destruct (truthy detail); [destruct (to_string_opt detail)|]; reflexivity.
  - apply JsonFacts.parse_stringify, ticket_body_wf.
  - apply JsonFacts.well_formed_serialize; auto using ticket_body_wf.
Qed.

Lemma ticket_request_body_round_trip_witness :
  exists text,
    firstn 3 (events (SmartTicketGenerator.handleSubmit [] offline)
                ticket_filled)
    = [PreventDefault; SetLoading true;
       Fetch (js "/ticket") (js "POST") (js "application/json") text]
    /\ parse text
       = Some (SmartTicketGenerator.body
                 (SmartTicketGenerator.formData ticket_filled)).
Proof.
  destruct (ticket_request_body_round_trip [] offline ticket_filled
              ltac:(discriminate)) as (text & E & P & _).
  exists text. split; [exact E|exact P].
Defined.

End SmartTicketActionsFacts.

(** ** What the user is told when a submission fails *)

Module FailureFacts.

Import HandlerFacts Samples Scenarios.

(** X10.  A failed ticket submission always ends in exactly one alert.  When
    the backend answered with a status outside 2xx and a JSON body that is
    not [null], the alert is "Error: " followed by the body's [detail], or
    by "Failed to generate ticket" when there is no [detail].  In every
    other case (no answer, a body that is not JSON, a [null] body, a
    [detail] that has no text) the error is logged and the alert is "Failed
    to generate ticket". *)
Theorem ticket_failure_alerts_once (BACKEND_URL : jsstring) (net : network)
  (s : SmartTicketGenerator.state)
  (Hdesc : SmartTicketGenerator.description (SmartTicketGenerator.formData s) <> [])
  (Hfail : fetch_failed
             (fetch net [PreventDefault; SetLoading true]
                (BACKEND_URL ++ js "/ticket")
                (stringify (SmartTicketGenerator.body
                              (SmartTicketGenerator.formData s))))) :
  let reply :=
    fetch net [PreventDefault; SetLoading true] (BACKEND_URL ++ js "/ticket")
      (stringify (SmartTicketGenerator.body (SmartTicketGenerator.formData s))) in
  let tr := events (SmartTicketGenerator.handleSubmit BACKEND_URL net) s in
  let told :=
    match reply with
    | inr (Response false (inr (JObj props))) =>
        if truthy (lookup (js "detail") props)
        then match to_string_opt (lookup (js "detail") props) with
             | inr text => Some text
             | inl _ => None
             end
        else Some (js "Failed to generate ticket")
    | inr (Response false (inr JNull)) => None
    | inr (Response false (inr _)) => Some (js "Failed to generate ticket")
    | _ => None
    end in
  filter is_alert tr
  = [Alert match told with
           | Some text => js "Error: " ++ text
           | None => js "Failed to generate ticket"
           end]
  /\ existsb is_console_error tr
     = match told with Some _ => false | None => true end.
Proof.
  intros reply tr told. subst tr told. fold reply in Hfail.
  apply JsStringFacts.truthy_nonempty in Hdesc.
  unfold SmartTicketGenerator.handleSubmit, SmartTicketGenerator.setLoading,
    SmartTicketGenerator.setOutput.
  with_strategy opaque [Json.to_string_opt] run_handler.
  rewrite Hdesc. with_strategy opaque [Json.to_string_opt] simpl. fold reply.
  destruct reply as [e|[okay [e|body]]];
    with_strategy opaque [Json.to_string_opt] (simpl in * ).
  - split; reflexivity.
  - destruct okay; split; reflexivity.
  - destruct Hfail as [->|[]].
    destruct body; with_strategy opaque [Json.to_string_opt] simpl;
      try (split; reflexivity).
    destruct (truthy (lookup (js "detail") props));
      with_strategy opaque [Json.to_string_opt] simpl; [|split; reflexivity].
    destruct (to_string_opt (lookup (js "detail") props)); split; reflexivity.
Qed.

Lemma ticket_failure_alerts_once_witness :
  filter is_alert
    (events (SmartTicketGenerator.handleSubmit []
               (failing_with (JObj [(js "detail", JStr (js "quota exceeded"))])))
       ticket_filled)
  = [Alert (js "Error: quota exceeded")]
  /\ filter is_alert
       (events (SmartTicketGenerator.handleSubmit []
                  (failing_with
                     (JObj [(js "detail", JObj [(js "toString", JNull)])])))
          ticket_filled)
     = [Alert (js "Failed to generate ticket")]
  /\ filter is_alert
       (events (SmartTicketGenerator.handleSubmit [] offline) ticket_filled)
     = [Alert (js "Failed to generate ticket")].
Proof.
  destruct (ticket_failure_alerts_once []
              (failing_with (JObj [(js "detail", JStr (js "quota exceeded"))]))
              ticket_filled ltac:(discriminate) (or_introl eq_refl)) as [E1 _].
  destruct (ticket_failure_alerts_once []
              (failing_with (JObj [(js "detail", JObj [(js "toString", JNull)])]))
              ticket_filled ltac:(discriminate) (or_introl eq_refl)) as [E2 _].
  destruct (ticket_failure_alerts_once [] offline
              ticket_filled ltac:(discriminate) I) as [E3 _].
  split; [exact E1|split; [exact E2|exact E3]].
Defined.

(** X11.  A failed submission of the Standup, the Retrospective or the
    Blockers form tells the user nothing: the rejection is written to the
    console and the loading flag lowered, and that is all.  This holds for
    each form by itself, whatever becomes of the requests of the others. *)
Theorem axios_failure_is_only_logged (BACKEND_URL : jsstring) :
  (forall (net : network) (s : StandupModule.state) (e : error),
     StandupModule.team_member_id (StandupModule.input s) <> [] ->
     axios_post net [PreventDefault; SetLoading true]
       (Config.API BACKEND_URL ++ js "/standup")
       (StandupModule.body (StandupModule.input s)) = inl e ->
     events (StandupModule.handleSubmit BACKEND_URL net) s
     = [PreventDefault; SetLoading true;
        AxiosPost (Config.API BACKEND_URL ++ js "/standup")
          (StandupModule.body (StandupModule.input s));
        ConsoleError (js "Error generating standup:") e;
        SetLoading false])
  /\ (forall (net : network) (s : RetroModule.state) (e : error),
        axios_post net [PreventDefault; SetLoading true]
          (Config.API BACKEND_URL ++ js "/retrospective")
          (RetroModule.body (RetroModule.input s)) = inl e ->
        events (RetroModule.handleSubmit BACKEND_URL net) s
        = [PreventDefault; SetLoading true;
           AxiosPost (Config.API BACKEND_URL ++ js "/retrospective")
             (RetroModule.body (RetroModule.input s));
           ConsoleError (js "Error generating retrospective:") e;
           SetLoading false])
  /\ (forall (net : network) (s : BlockersModule.state) (e : error),
        axios_post net [PreventDefault; SetLoading true]
          (Config.API BACKEND_URL ++ js "/blockers")
          (BlockersModule.body (BlockersModule.input s)) = inl e ->
        events (BlockersModule.handleSubmit BACKEND_URL net) s
        = [PreventDefault; SetLoading true;
           AxiosPost (Config.API BACKEND_URL ++ js "/blockers")
             (BlockersModule.body (BlockersModule.input s));
           ConsoleError (js "Error generating blocker analysis:") e;
           SetLoading false]).
Proof.
  split; [|split].
  - intros net s e G H. apply JsStringFacts.truthy_nonempty in G.
    unfold_submit. rewrite G. simpl. now rewrite H.
  - intros net s e H. unfold_submit. now rewrite H.
  - intros net s e H. unfold_submit. now rewrite H.
Qed.

Lemma axios_failure_is_only_logged_witness :
  existsb is_alert
    (events (StandupModule.handleSubmit []
               (failing_only (js "/api/standup") JNull)) standup_filled) = false
  /\ existsb is_alert
       (events (RetroModule.handleSubmit []
                  (failing_only (js "/api/retrospective") JNull))
          retro_filled) = false
  /\ existsb is_alert
       (events (BlockersModule.handleSubmit []
                  (failing_only (js "/api/blockers") JNull))
          blockers_filled) = false.
Proof.
  destruct (axios_failure_is_only_logged []) as (T1 & T2 & T3).
  rewrite (T1 (failing_only (js "/api/standup") JNull) standup_filled
             NetworkError ltac:(discriminate) eq_refl).
  rewrite (T2 (failing_only (js "/api/retrospective") JNull) retro_filled
             NetworkError eq_refl).
  rewrite (T3 (failing_only (js "/api/blockers") JNull) blockers_filled
             NetworkError eq_refl).
  repeat split.
Defined.

End FailureFacts.

(** ** The export through the backend *)

Module ExportBackendFacts.

Import HandlerFacts ExportFacts Samples Scenarios.

(** X12.  With an identifier that has a text and a format other than "json",
    an export whose request is rejected only logs the error: no file is
    produced and the user gets no message.  An identifier that has no text
    (an object with a [toString] property of its own) fails before anything
    is requested, and that is logged in the same way. *)
Theorem export_failure_is_only_logged (BACKEND_URL : jsstring) (net : network)
  (data : value) (filename format : jsstring) (id : value)
  (Hid : get data (js "id") = inr (Some id))
  (Htruthy : truthy (Some id) = true)
  (Hformat : format <> js "json") :
  match to_string id with
  | inr id_text =>
      forall e,
        axios_get net []
          (Config.API BACKEND_URL ++ js "/export/"
           ++ ExportButton.module_of filename ++ js "/" ++ id_text
           ++ js "?format=" ++ format) = inl e ->
        run (ExportButton.handleExport BACKEND_URL net data filename format) tt
        = (inr tt,
           World tt [AxiosGet (Config.API BACKEND_URL ++ js "/export/"
                               ++ ExportButton.module_of filename ++ js "/"
                               ++ id_text ++ js "?format=" ++ format);
                     ConsoleError (js "Export failed:") e])
  | inl e =>
      run (ExportButton.handleExport BACKEND_URL net data filename format) tt
      = (inr tt, World tt [ConsoleError (js "Export failed:") e])
  end.
Proof.
  apply JsStringFacts.eqb_neq in Hformat.
  change (to_string id) with (to_string_opt (Some id)).
  destruct (to_string_opt (Some id)) as [e|id_text] eqn:Htext.
  - unfold_export. rewrite Hid. tidy_export. rewrite Htruthy, Hformat.
    tidy_export. now rewrite Htext.
  - intros e Hreply.
    unfold_export. rewrite Hid. tidy_export. rewrite Htruthy, Hformat.
    tidy_export. rewrite Htext. tidy_export. now rewrite Hreply.
Qed.

Lemma export_failure_is_only_logged_witness :
  events (ExportButton.handleExport [] offline sample_result
            (js "standup-summary") (js "slack")) tt
  = [AxiosGet (js "/api/export/standup/a1b2?format=slack");
     ConsoleError (js "Export failed:") NetworkError]
  /\ events (ExportButton.handleExport [] offline
               (JObj [(js "id", JObj [(js "toString", JBool true)])])
               (js "standup-summary") (js "slack")) tt
     = [ConsoleError (js "Export failed:") TypeError].
Proof.
  pose proof (export_failure_is_only_logged [] offline sample_result
                (js "standup-summary") (js "slack") (JStr (js "a1b2"))
                eq_refl eq_refl ltac:(discriminate)) as E1.
  pose proof (export_failure_is_only_logged [] offline
                (JObj [(js "id", JObj [(js "toString", JBool true)])])
                (js "standup-summary") (js "slack")
                (JObj [(js "toString", JBool true)])
                eq_refl eq_refl ltac:(discriminate)) as E2.
  simpl in E1, E2. unfold events.
  rewrite (E1 NetworkError eq_refl), E2. split; reflexivity.
Defined.

(** X13.  With an identifier and a format other than "json", an export whose
    request succeeds downloads a blob made of the [content] of the answer
    and typed with its [content_type], or "text/plain" when it names none.
    The blob holds the content with every surrogate that stands alone
    replaced by U+FFFD, so a content that is well-formed UTF-16 is held as
    it is; its type is in lower case, or empty when the type given has a
    character outside printable ASCII.  The file is called after the button,
    with the extension "md" for "markdown" and the format itself
    otherwise. *)
Theorem export_downloads_backend_content (BACKEND_URL : jsstring)
  (net : network) (data answer : value) (filename format : jsstring)
  (id : value) (content content_type : option value)
  (id_text text type : jsstring)
  (Hid : get data (js "id") = inr (Some id))
  (Htruthy : truthy (Some id) = true)
  (Hid_text : to_string id = inr id_text)
  (Hformat : format <> js "json")
  (Hreply : axios_get net []
              (Config.API BACKEND_URL ++ js "/export/"
               ++ ExportButton.module_of filename ++ js "/" ++ id_text
               ++ js "?format=" ++ format) = inr answer)
  (Hcontent : get answer (js "content") = inr content)
  (Htype : get answer (js "content_type") = inr content_type)
  (Htext : to_string_opt content = inr text)
  (Htype_text : (if truthy content_type then to_string_opt content_type
                 else inr (js "text/plain")) = inr type) :
  run (ExportButton.handleExport BACKEND_URL net data filename format) tt
  = (inr tt,
     World tt [AxiosGet (Config.API BACKEND_URL ++ js "/export/"
                         ++ ExportButton.module_of filename ++ js "/"
                         ++ id_text ++ js "?format=" ++ format);
               CreateObjectURL (Blob.to_usv text) (Blob.type_of type);
               AnchorClick (filename ++ js "."
                            ++ (if JsString.eqb format (js "markdown")
                                then js "md" else format));
               RevokeObjectURL])
  /\ (well_formed text = true -> Blob.to_usv text = text).
Proof.
  split; [|apply JsonFacts.to_usv_well_formed].
  apply JsStringFacts.eqb_neq in Hformat.
  change (to_string_opt (Some id) = inr id_text) in Hid_text.
  unfold_export. rewrite Hid. tidy_export. rewrite Htruthy, Hformat.
  tidy_export. rewrite Hid_text. tidy_export. rewrite Hreply. tidy_export.
  rewrite Hcontent. tidy_export. rewrite Htype. tidy_export.
  rewrite Htext. tidy_export. rewrite Htype_text. reflexivity.
Qed.

Lemma export_downloads_backend_content_witness :
  events (ExportButton.handleExport []
            (answering (JObj [(js "content", JStr (js "# Standup"))]))
            sample_result (js "standup-summary") (js "markdown")) tt
  = [AxiosGet (js "/api/export/standup/a1b2?format=markdown");
     CreateObjectURL (js "# Standup") (js "text/plain");
     AnchorClick (js "standup-summary.md");
     RevokeObjectURL]
  /\ events (ExportButton.handleExport []
               (answering (JObj [(js "content", JStr [35; 55357]);
                                 (js "content_type", JStr (js "Text/Markdown"))]))
               sample_result (js "standup-summary") (js "markdown")) tt
     = [AxiosGet (js "/api/export/standup/a1b2?format=markdown");
        CreateObjectURL [35; 65533] (js "text/markdown");
        AnchorClick (js "standup-summary.md");
        RevokeObjectURL].
Proof.
  destruct (export_downloads_backend_content []
              (answering (JObj [(js "content", JStr (js "# Standup"))]))
              sample_result (JObj [(js "content", JStr (js "# Standup"))])
              (js "standup-summary") (js "markdown") (JStr (js "a1b2"))
              (Some (JStr (js "# Standup"))) None
              (js "a1b2") (js "# Standup") (js "text/plain")
              eq_refl eq_refl eq_refl ltac:(discriminate)
              eq_refl eq_refl eq_refl eq_refl eq_refl) as [E1 _].
  destruct (export_downloads_backend_content []
              (answering (JObj [(js "content", JStr [35; 55357]);
                                (js "content_type", JStr (js "Text/Markdown"))]))
              sample_result
              (JObj [(js "content", JStr [35; 55357]);
                     (js "content_type", JStr (js "Text/Markdown"))])
              (js "standup-summary") (js "markdown") (JStr (js "a1b2"))
              (Some (JStr [35; 55357])) (Some (JStr (js "Text/Markdown")))
              (js "a1b2") [35; 55357] (js "Text/Markdown")
              eq_refl eq_refl eq_refl ltac:(discriminate)
              eq_refl eq_refl eq_refl eq_refl eq_refl) as [E2 _].
  unfold events. rewrite E1, E2. split; reflexivity.
Defined.

End ExportBackendFacts.

(** ** The dashboard's loading state *)

Module DashboardViewFacts.

Import Dashboard DashboardRun Scenarios.

Section Loading.
Variable BACKEND_URL : jsstring.

Abbreviation step := (Dashboard.step BACKEND_URL).
Abbreviation run := (Dashboard.run BACKEND_URL).

(** Nothing ever raises the loading flag again. *)
Lemma loading_stays_down i b :
  loading (view b) = false -> loading (view (step i b)) = false.
Proof.
  intros H. destruct i as [| |dt|h|r]; simpl.
  - destruct (life b); exact H.
  - destruct (life b); exact H.
  - exact H.
  - destruct (find_timer h b); [|exact H].
    destruct (_ <=? _); exact H.
  - destruct (awaiting b); [exact H|].
    unfold fetchDashboardData_resume, setLoading, setInsights, setMetrics,
      update, record.
    destruct r as [e|[m ins]]; simpl; destruct (life b); simpl; auto.
Qed.

Lemma loading_stays_down_run inputs b :
  loading (view b) = false -> loading (view (run inputs b)) = false.
Proof.
  revert b. induction inputs as [|i inputs IH]; intros b H; [exact H|].
  simpl. apply IH. now apply loading_stays_down.
Qed.

(** While the component is mounted, either the flag is down already or a
    call of [fetchDashboardData] is still waiting for its answer. *)
Definition settles (b : browser) : Prop :=
  (exists h, life b = Mounted h)
  /\ (loading (view b) = false \/ (0 < awaiting b)%nat).

Lemma settles_step i b :
  is_unmount i = false -> settles b -> settles (step i b).
Proof.
  intros Hi [[h Hl] Hs]. destruct i as [| |dt|k|r]; try discriminate; simpl.
  - rewrite Hl. split; eauto.
  - split; eauto.
  - destruct (find_timer k b); [|split; eauto].
    destruct (_ <=? _); [|split; eauto].
    split; [exists h; exact Hl|]. right. simpl. lia.
  - destruct (awaiting b) as [|n] eqn:A.
    + split; [eauto|]. destruct Hs as [Hs|Hs]; [left; exact Hs|lia].
    + split.
      * exists h. unfold fetchDashboardData_resume, setLoading, setInsights,
          setMetrics, update, record.
        destruct r as [e|[m ins]]; exact Hl.
      * left. unfold fetchDashboardData_resume, setLoading, setInsights,
          setMetrics, update, record.
        destruct r as [e|[m ins]]; simpl; rewrite Hl; reflexivity.
Qed.

Lemma settles_run inputs b :
  forallb (fun i => negb (is_unmount i)) inputs = true ->
  settles b -> settles (run inputs b).
Proof.
  revert b. induction inputs as [|i inputs IH]; intros b Hi Hb; [exact Hb|].
  simpl in Hi. apply andb_true_iff in Hi. destruct Hi as [Hi His].
  apply negb_true_iff in Hi. simpl. apply IH; [exact His|].
  now apply settles_step.
Qed.

Lemma settle_lowers_loading r b :
  settles b -> loading (view (step (Settle r) b)) = false.
Proof.
  intros [[h Hl] [H|H]]; [now apply loading_stays_down|].
  simpl. destruct (awaiting b) as [|n]; [lia|].
  unfold fetchDashboardData_resume, setLoading, setInsights, setMetrics,
    update, record.
  destruct r as [e|[m ins]]; simpl; rewrite Hl; reflexivity.
Qed.

End Loading.

(** X14.  Once an answer to a fetch has come in while the dashboard is
    mounted -- the data or a failure -- the dashboard is out of its loading
    state and stays out of it for as long as it lives: the polls that follow
    never bring the spinner back.  A failed fetch leaves the metrics and the
    insights shown as they were. *)
Theorem dashboard_leaves_loading_state (BACKEND_URL : jsstring) (t0 h0 : N)
  (before after : list input) (r : error + value * value)
  (Hmounted : forallb (fun i => negb (is_unmount i)) before = true) :
  loading
    (view (Dashboard.run BACKEND_URL (Mount :: before ++ Settle r :: after)
             (boot t0 h0)))
  = false
  /\ forall b e,
       metrics (view (Dashboard.step BACKEND_URL (Settle (inl e)) b))
       = metrics (view b)
       /\ insights (view (Dashboard.step BACKEND_URL (Settle (inl e)) b))
          = insights (view b).
Proof.
  split.
  - change (Dashboard.run BACKEND_URL (Mount :: before ++ Settle r :: after)
              (boot t0 h0))
      with (Dashboard.run BACKEND_URL (before ++ Settle r :: after)
              (Dashboard.step BACKEND_URL Mount (boot t0 h0))).
    unfold Dashboard.run. rewrite fold_left_app. simpl fold_left.
    apply (loading_stays_down_run BACKEND_URL).
    apply (settle_lowers_loading BACKEND_URL).
    apply (settles_run BACKEND_URL); [exact Hmounted|].
    split; [eexists; reflexivity|]. right. simpl. lia.
  - intros b e. simpl. destruct (awaiting b); [auto|].
    unfold fetchDashboardData_resume, setLoading, update, record. simpl.
    destruct (life b); auto.
Qed.

Lemma dashboard_leaves_loading_state_witness :
  loading
    (view (Dashboard.run []
             [Mount; Elapse 30000; Fire 7; Settle (inl NetworkError);
              Elapse 30000; Fire 7; Unmount]
             (boot 1000 7)))
  = false.
Proof.
  apply (dashboard_leaves_loading_state [] 1000 7 [Elapse 30000; Fire 7]
           [Elapse 30000; Fire 7; Unmount] (inl NetworkError)).
  reflexivity.
Defined.

End DashboardViewFacts.

(** ** The sidebar *)

Module SidebarFacts.

Import Sidebar Scenarios.

Lemma one_active_item tab :
  In tab (map App.id App.menuItems) ->
  exists item,
    App.id item = tab /\ filter (is_active tab) App.menuItems = [item].
Proof.
  simpl. intros H.
  repeat (destruct H as [<-|H];
          [eexists; split; [|reflexivity]; reflexivity|]).
  contradiction.
Qed.

Lemma after_clicks_in_menu clicks tab :
  In tab (map App.id App.menuItems) ->
  Forall (fun c => In c App.menuItems) clicks ->
  In (fold_left (fun tab item => click item tab) clicks tab)
     (map App.id App.menuItems).
Proof.
  revert tab. induction clicks as [|c clicks IH]; intros tab Ht Hc; [exact Ht|].
  inversion Hc; subst. simpl. apply IH; [|assumption].
  unfold click. now apply in_map.
Qed.

Lemma nav_class_active tab item :
  nav_class tab item = js "nav-item active" <-> is_active tab item = true.
Proof.
  unfold nav_class. destruct (is_active tab item); simpl; split; intros H;
    try reflexivity; discriminate H.
Qed.

Lemma last_default {A} (l : list A) : forall x d d',
  last (x :: l) d = last (x :: l) d'.
Proof.
  induction l as [|y l IH]; intros x d d'; [reflexivity|].
  change (last (y :: l) d = last (y :: l) d'). apply IH.
Qed.

Lemma last_click clicks : forall tab d,
  App.id d = tab ->
  fold_left (fun tab item => click item tab) clicks tab
  = App.id (last clicks d).
Proof.
  induction clicks as [|c clicks IH]; intros tab d Hd; [symmetry; exact Hd|].
  simpl fold_left. rewrite (IH (click c tab) c eq_refl).
  destruct clicks as [|c' clicks]; [reflexivity|].
  f_equal. apply (last_default clicks c' c d).
Qed.

(** X15.  Whatever sequence of sidebar buttons is clicked, exactly one button
    carries the class [active] afterwards: the one clicked last, or the
    Dashboard's (the first of the menu) when none was clicked. *)
Theorem sidebar_marks_one_item (clicks : list App.menu_item)
  (Hclicks : Forall (fun c => In c App.menuItems) clicks) :
  exists item,
    In item App.menuItems
    /\ item = last clicks (hd item App.menuItems)
    /\ App.id item = after_clicks clicks
    /\ forall other, In other App.menuItems ->
         (nav_class (after_clicks clicks) other = js "nav-item active"
          <-> other = item).
Proof.
  destruct (one_active_item (after_clicks clicks)) as (item & Hid & Hf).
  { apply after_clicks_in_menu; [simpl; auto|assumption]. }
  assert (Hin : forall other,
            In other App.menuItems ->
            (is_active (after_clicks clicks) other = true <-> other = item)).
  { intros other Ho. split; intros H.
    - assert (Hm : In other (filter (is_active (after_clicks clicks))
                               App.menuItems))
        by (apply filter_In; split; assumption).
      rewrite Hf in Hm. destruct Hm as [Hm|[]]. now symmetry.
    - subst other. unfold is_active. rewrite Hid. apply JsStringFacts.eqb_refl. }
  assert (Hitem : In item App.menuItems).
  { assert (Hm : In item (filter (is_active (after_clicks clicks))
                            App.menuItems)) by (rewrite Hf; now left).
    apply filter_In in Hm. tauto. }
  exists item. split; [exact Hitem|]. split; [|split; [exact Hid|]].
  - pose proof (last_click clicks App.initial_tab (hd item App.menuItems)
                  eq_refl) as Hlast.
    fold (after_clicks clicks) in Hlast.
    assert (Hl : In (last clicks (hd item App.menuItems)) App.menuItems).
    { clear - Hclicks. set (d := hd item App.menuItems).
      assert (Hd : In d App.menuItems) by (simpl; auto).
      clearbody d. revert d Hd.
      induction Hclicks as [|c clicks Hc _ IH]; intros d Hd; [exact Hd|].
      destruct clicks as [|c' clicks]; [exact Hc|]. apply (IH d Hd). }
    symmetry. apply Hin; [exact Hl|].
    unfold is_active. rewrite Hlast. apply JsStringFacts.eqb_refl.
  - intros other Ho. rewrite nav_class_active. now apply Hin.
Qed.

Lemma sidebar_marks_one_item_witness :
  exists item,
    In item App.menuItems
    /\ App.id item
       = after_clicks (firstn 2 (skipn 3 App.menuItems)).
Proof.
  destruct (sidebar_marks_one_item (firstn 2 (skipn 3 App.menuItems)))
    as (item & Hin & _ & Hid & _).
  - simpl. repeat constructor; simpl; tauto.
  - exists item. split; [exact Hin|exact Hid].
Defined.

End SidebarFacts.
